(** * box: nested text boxes (Go), a shallow embedding

    The development follows [box.go]: the ANSI-aware width measure
    ([stripAnsi], [maxLineWidth]), the renderer of one box ([createBox]),
    the nesting loop ([createNestedBoxes]) and the colour theme engine
    ([getNextColor]) in its two revisions: the stateless one of [box.go]
    and the tracking one of the later revision ([unnamed/part_001]).

    Conventions.
    - A Go [string] is modelled by the code points that [range] yields on
      it (valid UTF-8 text); [utf8.RuneCountInString] is then the length.
    - A Go [int] is a 64-bit integer: arithmetic goes through [wrap].
    - A panic (of [strings.Repeat], of an index out of range) and a loop
      that has not returned are [None].
    - A nil [*color.Color] is [None]. *)

From Stdlib Require Import ZArith Lia Decimal.
From stdpp Require Import gmap strings list fin_maps.

Local Open Scope Z_scope.

(** ** Go strings and integers *)

Abbreviation rune := Z (only parsing).
Abbreviation gostring := (list Z) (only parsing).

(** An ASCII literal of the source as a Go string. *)
Definition runes (s : string) : gostring :=
  (λ a, Z.of_N (Ascii.N_of_ascii a)) <$> String.list_ascii_of_string s.

Definition RuneCountInString (s : gostring) : Z := Z.of_nat (length s).

Definition maxInt : Z := 2 ^ 63 - 1.
Definition minInt : Z := - 2 ^ 63.

(** Two's complement wrap-around of Go's [int]. *)
Definition wrap (z : Z) : Z := (z + 2 ^ 63) mod 2 ^ 64 - 2 ^ 63.

Definition int_add (a b : Z) : Z := wrap (a + b).
Definition int_sub (a b : Z) : Z := wrap (a - b).
Definition int_mul (a b : Z) : Z := wrap (a * b).

(** Bytes of the UTF-8 encoding of a code point ([utf8.RuneLen], with the
    three bytes of U+FFFD for what is no code point). *)
Definition runeLen (r : rune) : Z :=
  if r <? 0 then 3
  else if r <? 128 then 1
  else if r <? 2048 then 2
  else if r <? 65536 then 3
  else if r <=? 1114111 then 4
  else 3.

Definition byteLen (s : gostring) : Z := foldr (λ r n, runeLen r + n) 0 s.

(** [strings.Repeat]: it panics on a negative count and when the length
    of the result, in bytes, overflows [int]. The limit of the allocator
    is left out here; [Alloc.Repeat] below has it. *)
Definition Repeat (s : gostring) (count : Z) : option gostring :=
  if count =? 0 then Some []
  else if count =? 1 then Some s
  else if count <? 0 then None
  else if maxInt <? byteLen s * count then None
  else Some (mjoin (replicate (Z.to_nat count) s)).

(** [strconv.Itoa]. *)
Fixpoint runes_of_uint (d : Decimal.uint) : gostring :=
  match d with
  | Decimal.Nil => []
  | Decimal.D0 d => 48 :: runes_of_uint d
  | Decimal.D1 d => 49 :: runes_of_uint d
  | Decimal.D2 d => 50 :: runes_of_uint d
  | Decimal.D3 d => 51 :: runes_of_uint d
  | Decimal.D4 d => 52 :: runes_of_uint d
  | Decimal.D5 d => 53 :: runes_of_uint d
  | Decimal.D6 d => 54 :: runes_of_uint d
  | Decimal.D7 d => 55 :: runes_of_uint d
  | Decimal.D8 d => 56 :: runes_of_uint d
  | Decimal.D9 d => 57 :: runes_of_uint d
  end.

Definition Itoa (z : Z) : gostring :=
  match Z.to_int z with
  | Decimal.Pos d => runes_of_uint d
  | Decimal.Neg d => 45 :: runes_of_uint d
  end.

(** [strconv.Atoi]: an optional sign, then decimal digits, at least one;
    a value outside [int] is an error. *)
Definition digitVal (r : rune) : option Z :=
  if (48 <=? r) && (r <=? 57) then Some (r - 48) else None.

Fixpoint parseDigits (acc : Z) (s : gostring) : option Z :=
  match s with
  | [] => Some acc
  | r :: s' => d ← digitVal r; parseDigits (10 * acc + d) s'
  end.

Definition Atoi (s : gostring) : option Z :=
  let '(neg, ds) :=
    match s with
    | 43 :: t => (false, t)
    | 45 :: t => (true, t)
    | _ => (false, s)
    end in
  match ds with
  | [] => None
  | _ =>
      n ← parseDigits 0 ds;
      let v := if neg : bool then - n else n in
      if (minInt <=? v) && (v <=? maxInt) then Some v else None
  end.

(** [strings.Join]. *)
Fixpoint Join (elems : list gostring) (sep : gostring) : gostring :=
  match elems with
  | [] => []
  | [e] => e
  | e :: rest => e ++ sep ++ Join rest sep
  end.

(** ** The colour library (github.com/fatih/color)

    The library is no part of the repository. A colour is its list of SGR
    parameters; [Sprint] wraps the text between the sequence that sets
    them and the sequence that resets them, unless colours are switched
    off ([color.NoColor], set by the library when the output is no
    terminal), in which case the text is returned as it is. *)
Module color.

Record Color := New { params : list Z }.

Definition Reset : Z := 0.
Definition FgBlack : Z := 30.
Definition FgRed : Z := 31.
Definition FgGreen : Z := 32.
Definition FgYellow : Z := 33.
Definition FgBlue : Z := 34.
Definition FgMagenta : Z := 35.
Definition FgCyan : Z := 36.
Definition FgWhite : Z := 37.
Definition FgHiBlack : Z := 90.
Definition FgHiRed : Z := 91.
Definition FgHiGreen : Z := 92.
Definition FgHiYellow : Z := 93.
Definition FgHiBlue : Z := 94.
Definition FgHiMagenta : Z := 95.
Definition FgHiCyan : Z := 96.
Definition FgHiWhite : Z := 97.

(** [ESC [ p1 ; ... ; pn m]. *)
Definition sgr (ps : list Z) : gostring :=
  [27; 91] ++ Join (Itoa <$> ps) [59] ++ [109].

Section Sprint.
(** Colours switched off. *)
Variable NoColor : bool.
(** The parameters of the resetting sequence, from those of the colour:
    [0] alone in the releases up to 1.15, one reset code for each
    parameter since. *)
Variable resetParams : list Z → list Z.

Definition format (c : Color) : gostring := sgr (params c).
Definition unformat (c : Color) : gostring := sgr (resetParams (params c)).

Definition Sprint (c : Color) (s : gostring) : gostring :=
  if NoColor then s else format c ++ s ++ unformat c.

End Sprint.

End color.

Import color.

(** ** Glyph themes (box.go:25-37, 95-106) *)

Definition themeUnicode : gmap string gostring :=
  list_to_map [("WE", [9473]); ("NS", [9475]); ("NW", [9487]);
               ("NE", [9491]); ("SW", [9495]); ("SE", [9499])]%string.

Definition themeAscii : gmap string gostring :=
  list_to_map [("WE", runes "-"); ("NS", runes "|"); ("NW", runes "+");
               ("NE", runes "+"); ("SW", runes "+"); ("SE", runes "+")]%string.

Definition themePlain : gmap string gostring :=
  list_to_map [("WE", runes " "); ("NS", runes " "); ("NW", runes " ");
               ("NE", runes " "); ("SW", runes " "); ("SE", runes " ")]%string.

Definition getTheme (name : gostring) : gmap string gostring :=
  if decide (name = runes "unicode") then themeUnicode
  else if decide (name = runes "ascii") then themeAscii
  else if decide (name = runes "plain") then themePlain
  else themeUnicode.

(** [theme[k]]: a missing key of a Go map reads as the empty string. *)
Definition glyph (theme : gmap string gostring) (k : string) : gostring :=
  default [] (theme !! k).

(** The invariant of a glyph set: each of the six glyphs is one code
    point, and none starts an escape sequence. *)
Definition oneColumn (g : gostring) : bool :=
  match g with
  | [r] => negb (r =? 27)
  | _ => false
  end.

Definition wf_theme (theme : gmap string gostring) : bool :=
  forallb (λ k, oneColumn (glyph theme k))
          ["WE"; "NS"; "NW"; "NE"; "SW"; "SE"]%string.

(** ** Width measure (box.go:152-185) *)

Definition repeatChar (char : gostring) (n : Z) : option gostring :=
  Repeat char n.

Definition isLetter (r : rune) : bool :=
  ((97 <=? r) && (r <=? 122)) || ((65 <=? r) && (r <=? 90)).

(** The loop of [stripAnsi], from a given value of [inEscape]. *)
Fixpoint stripAnsiFrom (inEscape : bool) (str : gostring) : gostring :=
  match str with
  | [] => []
  | r :: rest =>
      if r =? 27 then stripAnsiFrom true rest
      else if inEscape then
        if isLetter r then stripAnsiFrom false rest
        else stripAnsiFrom true rest
      else r :: stripAnsiFrom false rest
  end.

Definition stripAnsi (str : gostring) : gostring := stripAnsiFrom false str.

(** The value of [inEscape] when the loop ends. *)
Fixpoint escapeAfter (inEscape : bool) (str : gostring) : bool :=
  match str with
  | [] => inEscape
  | r :: rest =>
      if r =? 27 then escapeAfter true rest
      else if inEscape then
        if isLetter r then escapeAfter false rest
        else escapeAfter true rest
      else escapeAfter false rest
  end.

(** A string with no escape sequence left open at its end. *)
Definition closed (s : gostring) : Prop := escapeAfter false s = false.

Definition maxLineWidth (lines : list gostring) : Z :=
  fold_left
    (λ max line,
       let l := RuneCountInString (stripAnsi line) in
       if l >? max then l else max)
    lines 0.

(** The display width of a rendered line. *)
Definition displayWidth (line : gostring) : Z :=
  RuneCountInString (stripAnsi line).

(** ** The renderer of one box (box.go:187-262) *)

(** [n] rounds of a loop whose body appends one line. *)
Fixpoint times {A} (n : nat) (body : option A) : option (list A) :=
  match n with
  | O => Some []
  | S n' => x ← body; xs ← times n' body; Some (x :: xs)
  end.

Section Renderer.
Variable NoColor : bool.
Variable resetParams : list Z → list Z.

(** [c.Sprint(s)] when [c] is not nil, [s] otherwise. *)
Definition paint (c : option Color) (s : gostring) : gostring :=
  match c with
  | Some c => Sprint NoColor resetParams c s
  | None => s
  end.

(** The inner width [maxWidth] (box.go:196-202). *)
Definition innerWidth (lines : list gostring) (boxTitle : gostring)
    (hpadding : Z) : Z :=
  let maxWidth := int_add (maxLineWidth lines) (int_mul 2 hpadding) in
  match boxTitle with
  | [] => maxWidth
  | _ =>
      let titleLen := RuneCountInString (stripAnsi boxTitle) in
      if titleLen >? maxWidth then titleLen else maxWidth
  end.

(** One content line (the body of the loop at box.go:237-247). *)
Definition contentLine (boxColor contentColor : option Color)
    (theme : gmap string gostring) (maxWidth hpadding : Z)
    (line : gostring) : option gostring :=
  let stripped := stripAnsi line in
  padLeft ← Repeat (runes " ") hpadding;
  padRight ← Repeat (runes " ") hpadding;
  let content := paint contentColor line in
  let totalPadding := int_sub maxWidth (RuneCountInString stripped) in
  fill ← Repeat (runes " ") (int_sub totalPadding (int_mul 2 hpadding));
  Some (paint boxColor (glyph theme "NS") ++ padLeft ++ content ++ padRight
          ++ fill ++ paint boxColor (glyph theme "NS")).

(** One line of vertical padding (box.go:234, 250). *)
Definition paddingLine (boxColor : option Color)
    (theme : gmap string gostring) (maxWidth : Z) : option gostring :=
  sp ← Repeat (runes " ") maxWidth;
  Some (paint boxColor (glyph theme "NS") ++ sp
          ++ paint boxColor (glyph theme "NS")).

(** The top border (box.go:210-230). *)
Definition topLine (boxColor : option Color) (boxTitle : gostring)
    (titleColor : option Color) (theme : gmap string gostring)
    (maxWidth : Z) : option gostring :=
  match boxTitle with
  | [] =>
      fill ← repeatChar (glyph theme "WE") maxWidth;
      Some (paint boxColor (glyph theme "NW") ++ paint boxColor fill
              ++ paint boxColor (glyph theme "NE"))
  | _ =>
      let title := paint titleColor boxTitle in
      let rest :=
        int_sub maxWidth (RuneCountInString (stripAnsi boxTitle)) in
      fill ← repeatChar (glyph theme "WE") rest;
      Some (paint boxColor (glyph theme "NW") ++ title ++ paint boxColor fill
              ++ paint boxColor (glyph theme "NE"))
  end.

(** The bottom border (box.go:253-259). *)
Definition bottomLine (boxColor : option Color)
    (theme : gmap string gostring) (maxWidth : Z) : option gostring :=
  fill ← repeatChar (glyph theme "WE") maxWidth;
  Some (paint boxColor (glyph theme "SW") ++ paint boxColor fill
          ++ paint boxColor (glyph theme "SE")).

Definition createBox (lines : list gostring)
    (boxColor contentColor : option Color) (boxTitle : gostring)
    (titleColor : option Color) (theme : gmap string gostring)
    (vpadding hpadding : Z) : option (list gostring) :=
  let maxWidth := innerWidth lines boxTitle hpadding in
  top ← topLine boxColor boxTitle titleColor theme maxWidth;
  padTop ← times (Z.to_nat vpadding) (paddingLine boxColor theme maxWidth);
  content ← mapM (contentLine boxColor contentColor theme maxWidth hpadding)
                 lines;
  padBottom ← times (Z.to_nat vpadding) (paddingLine boxColor theme maxWidth);
  bottom ← bottomLine boxColor theme maxWidth;
  Some ([top] ++ padTop ++ content ++ padBottom ++ [bottom]).

End Renderer.

(** The sizes [createBox] works with stay within [int]: the inner width,
    and the bytes of the horizontal border. *)
Definition boxFits (theme : gmap string gostring) (lines : list gostring)
    (boxTitle : gostring) (hpadding : Z) : Prop :=
  Z.max 1 (byteLen (glyph theme "WE"))
  * Z.max (maxLineWidth lines + 2 * hpadding) (displayWidth boxTitle)
  ≤ maxInt.

(** ** Undoing a plain box

    The inverse that the round-trip property of the specification
    describes: the border lines and the border glyphs are removed, and the
    spaces at the end of each content line are trimmed. *)
Fixpoint trimRight (s : gostring) : gostring :=
  match s with
  | [] => []
  | r :: s' =>
      match trimRight s' with
      | [] => if r =? 32 then [] else [r]
      | t => r :: t
      end
  end.

(** A list without its first and its last element. *)
Definition inner {A} (l : list A) : list A := removelast (tail l).

Definition unbox (box : list gostring) : list gostring :=
  (λ l, trimRight (inner l)) <$> inner box.

(** ** Colour names (box.go:108-150) *)

Section Colours.
(** [strings.ToLower], with the case tables of the Unicode library. *)
Variable ToLower : gostring → gostring.

(** The named cases of the switch. *)
Definition namedColor (l : gostring) : option Color :=
  if decide (l = runes "black") then Some (New [FgBlack])
  else if decide (l = runes "red") then Some (New [FgRed])
  else if decide (l = runes "green") then Some (New [FgGreen])
  else if decide (l = runes "yellow") then Some (New [FgYellow])
  else if decide (l = runes "blue") then Some (New [FgBlue])
  else if decide (l = runes "magenta") then Some (New [FgMagenta])
  else if decide (l = runes "cyan") then Some (New [FgCyan])
  else if decide (l = runes "white") then Some (New [FgWhite])
  else if decide (l = runes "gray" ∨ l = runes "bright_black")
    then Some (New [FgHiBlack])
  else if decide (l = runes "bright_red") then Some (New [FgHiRed])
  else if decide (l = runes "bright_green") then Some (New [FgHiGreen])
  else if decide (l = runes "bright_yellow") then Some (New [FgHiYellow])
  else if decide (l = runes "bright_blue") then Some (New [FgHiBlue])
  else if decide (l = runes "bright_magenta") then Some (New [FgHiMagenta])
  else if decide (l = runes "bright_cyan") then Some (New [FgHiCyan])
  else if decide (l = runes "bright_white") then Some (New [FgHiWhite])
  else None.

Definition parseColor (name : gostring) : Color :=
  match namedColor (ToLower name) with
  | Some c => c
  | None =>
      (* Try to parse as a number for 256-color mode *)
      match Atoi name with
      | Some num => New [int_add FgHiBlack num]
      | None => New [Reset]
      end
  end.

End Colours.

(** ** The nesting loop (box.go:264-308, the same text in the later
    revision)

    The colour theme engine is a parameter of the section: the loop is the
    same over the stateless engine of [box.go] and the tracking engine of
    the later revision. The engine works on the theme behind the pointer
    [colorTheme] and on the random source, so its state is threaded
    through the rounds of the loop. *)

(** A colour of layer [i] from a list of names (box.go:279-285 for the
    border, 286-292 for the title): unset when the list is empty. *)
Definition listColor (parseColor : gostring → Color)
    (colors : list gostring) (i : nat) : option Color :=
  if (0 <? length colors)%nat then
    if (i <? length colors)%nat then Some (parseColor (colors !!! i))
    else Some (parseColor (colors !!! 0%nat))
  else None.

(** The title of layer [i] (box.go:293-299). *)
Definition layerTitle (boxTitles : list gostring) (i : nat) : gostring :=
  if (0 <? length boxTitles)%nat then
    if (i <? length boxTitles)%nat then boxTitles !!! i
    else []
  else [].

Section Nesting.
Variable NoColor : bool.
Variable resetParams : list Z → list Z.
Variable ToLower : gostring → gostring.
Variable ThemeState : Type.
Variable getColorFromTheme : ThemeState → Z → option (Color * ThemeState).

(** The border colour of layer [i] (box.go:276-285): the engine's when a
    colour theme is active. *)
Definition layerBoxColor (boxColors : list gostring)
    (colorTheme : option ThemeState) (i : nat)
    : option (option Color * option ThemeState) :=
  match colorTheme with
  | Some th =>
      '(c, th') ← getColorFromTheme th (Z.of_nat i);
      Some (Some c, Some th')
  | None => Some (listColor (parseColor ToLower) boxColors i, None)
  end.

(** [rounds] rounds of the loop, from index [i]. *)
Fixpoint nestFrom (rounds i : nat) (lines : list gostring) (depth : Z)
    (boxColors titleColors boxTitles : list gostring)
    (theme : gmap string gostring) (vpadding hpadding : Z)
    (contentColor : option Color) (colorTheme : option ThemeState)
    : option (list gostring) :=
  match rounds with
  | O => Some lines
  | S rounds' =>
      '(boxColor, colorTheme') ← layerBoxColor boxColors colorTheme i;
      let titleColor := listColor (parseColor ToLower) titleColors i in
      let boxTitle := layerTitle boxTitles i in
      let thisContentColor :=
        if Z.of_nat i =? int_sub depth 1 then contentColor else None in
      lines' ← createBox NoColor resetParams lines boxColor thisContentColor
                 boxTitle titleColor theme vpadding hpadding;
      nestFrom rounds' (S i) lines' depth boxColors titleColors boxTitles
        theme vpadding hpadding contentColor colorTheme'
  end.

Definition createNestedBoxes (lines : list gostring) (depth : Z)
    (boxColors titleColors boxTitles : list gostring)
    (theme : gmap string gostring) (vpadding hpadding : Z)
    (contentColor : option Color) (colorTheme : option ThemeState)
    : option (list gostring) :=
  nestFrom (Z.to_nat depth) 0 lines depth boxColors titleColors boxTitles
    theme vpadding hpadding contentColor colorTheme.

End Nesting.

(** The sizes of [depth] nested boxes stay within [int]: each layer adds
    the two border glyphs and the padding to the width. *)
Definition nestFits (lines boxTitles : list gostring) (depth hpadding : Z)
    : Prop :=
  4 * (Z.max (maxLineWidth lines) (maxLineWidth boxTitles)
       + depth * (2 * hpadding + 2)) ≤ maxInt.

(** The rule of the specification for an attribute list: the element at
    position [i] if present, else the first element, else nothing. *)
Definition resolve {A} (l : list A) (i : nat) : option A :=
  match l !! i with
  | Some x => Some x
  | None => head l
  end.

(** ** The random source (math/rand)

    The source is the stream of its draws, with the number of draws made
    so far; [rand.Intn(n)] reduces the next draw into [0, n). *)
Record Source := { draws : nat → Z; drawn : nat }.

Definition Intn (n : Z) (src : Source) : Z * Source :=
  (draws src (drawn src) `mod` n,
   {| draws := draws src; drawn := S (drawn src) |}).

(** A source that keeps producing every index: after any number of
    draws, each index of [0, 216) is drawn again. *)
Definition fair (src : Source) : Prop :=
  ∀ (p : nat) (c : Z), 0 ≤ c < 216 →
    ∃ q, (p ≤ q)%nat ∧ draws src q `mod` 216 = c.

(** [s[i]] on a slice: out of range is a panic. *)
Definition at_index (s : list Z) (i : Z) : option Z :=
  if i <? 0 then None else s !! Z.to_nat i.

(** ** The colour theme engine of box.go (box.go:39-93) *)
Module BoxGo.

Record ColorTheme := { name : gostring; startColor : Z }.

Definition prideColors : list Z := [196; 208; 226; 46; 21; 129].
Definition transColors : list Z := [51; 213; 15; 213; 51].
Definition biColors : list Z := [213; 129; 21].
Definition panColors : list Z := [213; 226; 21].
Definition nbColors : list Z := [226; 15; 129; 0].

Definition cycle (colors : list Z) (index : Z) : option Z :=
  at_index colors (Z.rem index (Z.of_nat (length colors))).

Definition getNextColor (theme : ColorTheme) (index : Z) (src : Source)
    : option (Z * Source) :=
  if decide (name theme = runes "random") then Some (Intn 216 src)
  else if decide (name theme = runes "gradient") then
    Some (Z.rem (int_add (startColor theme) index) 216, src)
  else if decide (name theme = runes "rainbow") then
    Some (Z.rem index 216, src)
  else if decide (name theme = runes "pride") then
    c ← cycle prideColors index; Some (c, src)
  else if decide (name theme = runes "trans") then
    c ← cycle transColors index; Some (c, src)
  else if decide (name theme = runes "bi") then
    c ← cycle biColors index; Some (c, src)
  else if decide (name theme = runes "pan") then
    c ← cycle panColors index; Some (c, src)
  else if decide (name theme = runes "nb") then
    c ← cycle nbColors index; Some (c, src)
  else Some (startColor theme, src).

Definition newColorTheme (name : gostring) (src : Source)
    : ColorTheme * Source :=
  let '(start, src') := Intn 216 src in
  ({| name := name; startColor := start |}, src').

Definition getColorFromTheme (st : ColorTheme * Source) (index : Z)
    : option (Color * (ColorTheme * Source)) :=
  '(colorCode, src') ← getNextColor st.1 index st.2;
  Some (New [38; 5; colorCode], (st.1, src')).

End BoxGo.

(** ** The colour theme engine of the later revision
    (unnamed/part_001:102-200): colours already returned are tracked *)
Module Tracking.

Record ColorTheme := {
  name : gostring;
  startColor : Z;
  usedColors : gmap Z bool;
  colorIndex : Z
}.

(** [theme.usedColors[color]]: a missing key reads as [false]. *)
Definition used (m : gmap Z bool) (color : Z) : bool :=
  default false (m !! color).

(** The loop [for { ... }] of the random theme (part_001:120-126);
    [fuel] bounds the number of draws. *)
Fixpoint drawUnused (fuel : nat) (usedColors : gmap Z bool) (src : Source)
    : option (Z * gmap Z bool * Source) :=
  match fuel with
  | O => None
  | S fuel' =>
      let '(color, src') := Intn 216 src in
      if negb (used usedColors color)
      then Some (color, <[color := true]> usedColors, src')
      else drawUnused fuel' usedColors src'
  end.

(** The loop over a flag palette (part_001:165-173) from [i], [todo]
    rounds left, then the fallback (part_001:175-180). *)
Fixpoint scanPalette (todo : nat) (i : Z) (candidateColors : list Z)
    (theme : ColorTheme) : option (Z * ColorTheme) :=
  let len := Z.of_nat (length candidateColors) in
  match todo with
  | O =>
      color ← at_index candidateColors 0;
      Some (color, {| name := name theme; startColor := startColor theme;
                      usedColors := <[color := true]> ∅; colorIndex := 1 |})
  | S todo' =>
      let colorIndex' := Z.rem (int_add (colorIndex theme) i) len in
      color ← at_index candidateColors colorIndex';
      if negb (used (usedColors theme) color)
      then Some (color,
                 {| name := name theme; startColor := startColor theme;
                    usedColors := <[color := true]> (usedColors theme);
                    colorIndex := Z.rem (int_add colorIndex' 1) len |})
      else scanPalette todo' (int_add i 1) candidateColors theme
  end.

Definition clearUsed (theme : ColorTheme) : ColorTheme :=
  {| name := name theme; startColor := startColor theme;
     usedColors := ∅; colorIndex := colorIndex theme |}.

Definition bumpIndex (theme : ColorTheme) : ColorTheme :=
  {| name := name theme; startColor := startColor theme;
     usedColors := usedColors theme;
     colorIndex := int_add (colorIndex theme) 1 |}.

(** The palette of a flag theme, [[]] for the other names. *)
Definition candidateColors (name : gostring) : list Z :=
  if decide (name = runes "pride") then [196; 208; 226; 46; 21; 129]
  else if decide (name = runes "trans") then [51; 213; 15]
  else if decide (name = runes "bi") then [213; 129; 21]
  else if decide (name = runes "pan") then [213; 226; 21]
  else if decide (name = runes "nb") then [226; 15; 129; 0]
  else [].

Definition getNextColor (fuel : nat) (theme : ColorTheme) (index : Z)
    (src : Source) : option (Z * ColorTheme * Source) :=
  if decide (name theme = runes "random") then
    let theme :=
      if 216 <=? Z.of_nat (size (usedColors theme))
      then clearUsed theme else theme in
    '(color, usedColors', src') ← drawUnused fuel (usedColors theme) src;
    Some (color,
          {| name := name theme; startColor := startColor theme;
             usedColors := usedColors'; colorIndex := colorIndex theme |},
          src')
  else if decide (name theme = runes "gradient") then
    let color := Z.rem (int_add (startColor theme) (colorIndex theme)) 216 in
    Some (color, bumpIndex theme, src)
  else if decide (name theme = runes "rainbow") then
    let color := Z.rem (colorIndex theme) 216 in
    Some (color, bumpIndex theme, src)
  else
    let candidateColors := candidateColors (name theme) in
    if (0 <? length candidateColors)%nat then
      let theme :=
        if Z.of_nat (length candidateColors)
             <=? Z.of_nat (size (usedColors theme))
        then clearUsed theme else theme in
      '(color, theme') ←
        scanPalette (length candidateColors) 0 candidateColors theme;
      Some (color, theme', src)
    else Some (startColor theme, theme, src).

Definition newColorTheme (name : gostring) (src : Source)
    : ColorTheme * Source :=
  let '(start, src') := Intn 216 src in
  ({| name := name; startColor := start; usedColors := ∅; colorIndex := 0 |},
   src').

Definition getColorFromTheme (fuel : nat) (st : ColorTheme * Source)
    (index : Z) : option (Color * (ColorTheme * Source)) :=
  '(colorCode, theme', src') ← getNextColor fuel st.1 index st.2;
  Some (New [38; 5; colorCode], (theme', src')).

(** [n] consecutive calls, as the nesting loop makes them: the indices
    returned, and the state after the last. *)
Fixpoint calls (fuel n : nat) (i : Z) (theme : ColorTheme) (src : Source)
    : option (list Z * ColorTheme * Source) :=
  match n with
  | O => Some ([], theme, src)
  | S n' =>
      '(color, theme', src') ← getNextColor fuel theme i src;
      '(rest, theme'', src'') ← calls fuel n' (i + 1) theme' src';
      Some (color :: rest, theme'', src'')
  end.

(** The start of a cycle of the random theme: nothing tracked yet, or
    everything, so that the next call clears the set. *)
Definition cycleStart (theme : ColorTheme) : Prop :=
  usedColors theme = ∅ ∨ (216 ≤ size (usedColors theme))%nat.

(** Within a cycle: [returned] are the indices returned since its start,
    and the set tracks exactly these. *)
Definition tracked (returned : list Z) (theme : ColorTheme) : Prop :=
  name theme = runes "random"
  ∧ NoDup returned
  ∧ Forall (λ c, 0 ≤ c < 216) returned
  ∧ size (usedColors theme) = length returned
  ∧ ∀ c, usedColors theme !! c
         = if decide (c ∈ returned) then Some true else None.

End Tracking.

(** ** The nesting loop of the first revision (unnamed/part_002:199-234):
    no colour theme, the layers taken from [depth-1] down to [0], the
    content colour passed to every layer *)
Module FirstPort.

Section Nesting.
Variable NoColor : bool.
Variable resetParams : list Z → list Z.
Variable ToLower : gostring → gostring.

(** part_002:48-85: the names only, no numbers. *)
Definition parseColor (name : gostring) : Color :=
  match namedColor (ToLower name) with
  | Some c => c
  | None => New [Reset]
  end.

(** The rounds of the loop: [S i] rounds left is the round of index [i]. *)
Fixpoint nestDown (rounds : nat) (lines : list gostring)
    (boxColors titleColors boxTitles : list gostring)
    (theme : gmap string gostring) (vpadding hpadding : Z)
    (contentColor : option Color) : option (list gostring) :=
  match rounds with
  | O => Some lines
  | S i =>
      let boxColor := listColor parseColor boxColors i in
      let titleColor := listColor parseColor titleColors i in
      let boxTitle := layerTitle boxTitles i in
      lines' ← createBox NoColor resetParams lines boxColor contentColor
                 boxTitle titleColor theme vpadding hpadding;
      nestDown i lines' boxColors titleColors boxTitles theme vpadding
        hpadding contentColor
  end.

Definition createNestedBoxes (lines : list gostring) (depth : Z)
    (boxColors titleColors boxTitles : list gostring)
    (theme : gmap string gostring) (vpadding hpadding : Z)
    (contentColor : option Color) : option (list gostring) :=
  nestDown (Z.to_nat (int_sub depth 1 + 1)) lines boxColors titleColors
    boxTitles theme vpadding hpadding contentColor.

End Nesting.

End FirstPort.

From Stdlib Require DecimalPos.

(** ** The renderer under the allocator's limit (box.go:152-262)

    [strings.Repeat] builds its result in a buffer of [len(s) * count]
    bytes, which it asks of the runtime at once ([Builder.Grow]). The
    runtime panics (makeslice: len out of range) when the size is beyond
    its limit, 2^48 bytes on 64-bit Linux, and the process dies when the
    memory is not there. [maxAlloc] is the greatest size that the runtime
    grants. [Repeat] and the renderer above leave the allocator out: they
    are the definitions below with no limit but that of [int]. *)
Module Alloc.

Section Renderer.
Variable maxAlloc : Z.
Variable NoColor : bool.
Variable resetParams : list Z → list Z.

(** [strings.Repeat]: the two panics of its own, then the buffer. *)
Definition Repeat (s : gostring) (count : Z) : option gostring :=
  if count =? 0 then Some []
  else if count =? 1 then Some s
  else if count <? 0 then None
  else if maxInt <? byteLen s * count then None
  else if byteLen s =? 0 then Some []
  else if maxAlloc <? byteLen s * count then None
  else Some (mjoin (replicate (Z.to_nat count) s)).

Definition repeatChar (char : gostring) (n : Z) : option gostring :=
  Repeat char n.

(** One content line (the body of the loop at box.go:237-247). *)
Definition contentLine (boxColor contentColor : option Color)
    (theme : gmap string gostring) (maxWidth hpadding : Z)
    (line : gostring) : option gostring :=
  let stripped := stripAnsi line in
  padLeft ← Repeat (runes " ") hpadding;
  padRight ← Repeat (runes " ") hpadding;
  let content := paint NoColor resetParams contentColor line in
  let totalPadding := int_sub maxWidth (RuneCountInString stripped) in
  fill ← Repeat (runes " ") (int_sub totalPadding (int_mul 2 hpadding));
  Some (paint NoColor resetParams boxColor (glyph theme "NS") ++ padLeft
          ++ content ++ padRight ++ fill
          ++ paint NoColor resetParams boxColor (glyph theme "NS")).

(** One line of vertical padding (box.go:234, 250). *)
Definition paddingLine (boxColor : option Color)
    (theme : gmap string gostring) (maxWidth : Z) : option gostring :=
  sp ← Repeat (runes " ") maxWidth;
  Some (paint NoColor resetParams boxColor (glyph theme "NS") ++ sp
          ++ paint NoColor resetParams boxColor (glyph theme "NS")).

(** The top border (box.go:210-230). *)
Definition topLine (boxColor : option Color) (boxTitle : gostring)
    (titleColor : option Color) (theme : gmap string gostring)
    (maxWidth : Z) : option gostring :=
  match boxTitle with
  | [] =>
      fill ← repeatChar (glyph theme "WE") maxWidth;
      Some (paint NoColor resetParams boxColor (glyph theme "NW")
              ++ paint NoColor resetParams boxColor fill
              ++ paint NoColor resetParams boxColor (glyph theme "NE"))
  | _ =>
      let title := paint NoColor resetParams titleColor boxTitle in
      let rest :=
        int_sub maxWidth (RuneCountInString (stripAnsi boxTitle)) in
      fill ← repeatChar (glyph theme "WE") rest;
      Some (paint NoColor resetParams boxColor (glyph theme "NW") ++ title
              ++ paint NoColor resetParams boxColor fill
              ++ paint NoColor resetParams boxColor (glyph theme "NE"))
  end.

(** The bottom border (box.go:253-259). *)
Definition bottomLine (boxColor : option Color)
    (theme : gmap string gostring) (maxWidth : Z) : option gostring :=
  fill ← repeatChar (glyph theme "WE") maxWidth;
  Some (paint NoColor resetParams boxColor (glyph theme "SW")
          ++ paint NoColor resetParams boxColor fill
          ++ paint NoColor resetParams boxColor (glyph theme "SE")).

Definition createBox (lines : list gostring)
    (boxColor contentColor : option Color) (boxTitle : gostring)
    (titleColor : option Color) (theme : gmap string gostring)
    (vpadding hpadding : Z) : option (list gostring) :=
  let maxWidth := innerWidth lines boxTitle hpadding in
  top ← topLine boxColor boxTitle titleColor theme maxWidth;
  padTop ← times (Z.to_nat vpadding) (paddingLine boxColor theme maxWidth);
  content ← mapM (contentLine boxColor contentColor theme maxWidth hpadding)
                 lines;
  padBottom ← times (Z.to_nat vpadding) (paddingLine boxColor theme maxWidth);
  bottom ← bottomLine boxColor theme maxWidth;
  Some ([top] ++ padTop ++ content ++ padBottom ++ [bottom]).

End Renderer.

(** The strings that [createBox] repeats are within the allocator's
    limit: the horizontal border is the longest. *)
Definition boxFits (maxAlloc : Z) (theme : gmap string gostring)
    (lines : list gostring) (boxTitle : gostring) (hpadding : Z) : Prop :=
  Z.max 1 (byteLen (glyph theme "WE"))
  * Z.max (maxLineWidth lines + 2 * hpadding) (displayWidth boxTitle)
  ≤ maxAlloc.

End Alloc.

(** ** Invariants of the later revision's flag themes

    [j] colours of the palette have been returned since the tracking set
    was last cleared: the set holds the first [j] entries of the palette,
    and the cursor [colorIndex] stands on the next one. *)
Definition flagPhase (palette : list Z) (j : nat)
    (theme : Tracking.ColorTheme) : Prop :=
  Tracking.colorIndex theme
  = Z.of_nat j `mod` Z.of_nat (length palette)
  ∧ size (Tracking.usedColors theme) = j
  ∧ ∀ c, Tracking.usedColors theme !! c
         = if decide (c ∈ take j palette) then Some true else None.

(** ** Valid UTF-8

    [utf8.ValidRune]: a code point that UTF-8 encodes, no surrogate half.
    A Go string that is valid UTF-8 is the list of its code points, each of
    them valid: [range] yields them and [WriteRune] writes them back as
    they were. A byte that is not part of a valid encoding is read as
    U+FFFD and written as its three bytes; the lists of code points do not
    tell such a string from the one with U+FFFD in its place. *)
Definition ValidRune (r : rune) : bool :=
  if (0 <=? r) && (r <? 55296) then true
  else if (57343 <? r) && (r <=? 1114111) then true
  else false.

Definition ValidString (s : gostring) : Prop :=
  Forall (λ r, ValidRune r = true) s.

(** ** [strings.Split]

    The parts of [s] between the occurrences of [sep], found from the
    left and not overlapping; an empty [sep] splits after each code
    point. [skip] code points of a separator just found remain to be
    passed over. *)
Fixpoint splitFrom (sep : gostring) (skip : nat) (s : gostring)
    : list gostring :=
  match s with
  | [] => [[]]
  | c :: rest =>
      match skip with
      | S skip' => splitFrom sep skip' rest
      | O =>
          if bool_decide (sep `prefix_of` s)
          then [] :: splitFrom sep (length sep - 1) rest
          else
            match splitFrom sep 0 rest with
            | part :: parts => (c :: part) :: parts
            | [] => [[c]]
            end
      end
  end.

Definition Split (s sep : gostring) : list gostring :=
  match sep with
  | [] => (λ c, [c]) <$> s
  | _ => splitFrom sep 0 s
  end.

(** ** The command line *)

(** The flags of the root command (box.go:403-414,
    unnamed/part_001:535-546, the [flag] variables of
    unnamed/part_002:237-248); [sep] is not used. *)
Record Flags := {
  number : Z;
  title : gostring;
  boxColor : gostring;
  titleColor : gostring;
  centerColor : gostring;
  vpadding : Z;
  hpadding : Z;
  themeName : gostring;
  mode : gostring
}.

(** A comma-separated flag (box.go:333-345): no list for the empty
    string. *)
Definition splitList (flag : gostring) : list gostring :=
  if decide (flag = []) then [] else Split flag [44].

(** ** The root command of box.go (box.go:322-400); the padding is that
    of the first revision (unnamed/part_002:289-311) *)
Module BoxGoCmd.

(** box.go:359-365: titles are padded in front with empty titles. *)
Definition padTitles (depth : Z) (boxTitles : list gostring)
    : list gostring :=
  if Z.of_nat (length boxTitles) <? depth
  then replicate (Z.to_nat (int_sub depth (Z.of_nat (length boxTitles)))) []
         ++ boxTitles
  else boxTitles.

(** box.go:366-379: a list of colours that is not empty is padded in
    front with its first colour. *)
Definition padColors (depth : Z) (colors : list gostring) : list gostring :=
  if (Z.of_nat (length colors) <? depth) && (0 <? Z.of_nat (length colors))
  then replicate (Z.to_nat (int_sub depth (Z.of_nat (length colors))))
         (colors !!! 0%nat)
         ++ colors
  else colors.

(** The standard input as the scanner meets it (box.go:324-331): its
    lines, or an error of the scanner: a line of 64 KiB or more, or a
    read that fails. *)
Inductive Stdin :=
  | Lines (lines : list gostring)
  | ScanError.

(** What a run of the command comes to: the lines printed, the error of
    the scanner returned with nothing printed, or a panic. *)
Inductive Outcome :=
  | Printed (out : list gostring)
  | Failed
  | Panic.

Section RunE.
Variable NoColor : bool.
Variable resetParams : list Z → list Z.
Variable ToLower : gostring → gostring.

Definition RunE (flags : Flags) (stdin : Stdin) (src : Source) : Outcome :=
  match stdin with
  | ScanError => Failed
  | Lines lines =>
      let boxTitles := splitList (title flags) in
      let boxColors := splitList (boxColor flags) in
      let titleColors := splitList (titleColor flags) in
      let contentColor :=
        if decide (centerColor flags = []) then None
        else Some (parseColor ToLower (centerColor flags)) in
      let depth := number flags in
      let colorTheme :=
        if decide (mode flags = []) then None
        else Some (BoxGo.newColorTheme (mode flags) src) in
      let boxTitles := padTitles depth boxTitles in
      let boxColors := padColors depth boxColors in
      let titleColors := padColors depth titleColors in
      let theme := getTheme (themeName flags) in
      match createNestedBoxes NoColor resetParams ToLower _
              BoxGo.getColorFromTheme lines depth boxColors titleColors
              boxTitles theme (vpadding flags) (hpadding flags) contentColor
              colorTheme with
      | Some resultLines => Printed resultLines
      | None => Panic
      end
  end.

End RunE.

End BoxGoCmd.

(** ** The root command of the later revision
    (unnamed/part_001:25-86, 430-532) *)
Module TrackingCmd.

(** The standard input as [resolveTextInput] meets it: [Stat] fails, a
    terminal, or a pipe or file whose lines the scanner reads or fails to
    read. *)
Inductive Stdin :=
  | StatError
  | CharDevice
  | Piped (lines : list gostring)
  | ReadError.

Inductive InputError := NoInput | ReadFailed.

(** part_001:72-86; the separator is the two characters backslash, n. *)
Fixpoint processArguments (args : list gostring) : list gostring :=
  match args with
  | [] => []
  | arg :: args' =>
      if decide (arg = []) then processArguments args'
      else Split arg [92; 110] ++ processArguments args'
  end.

(** part_001:27-69. *)
Definition resolveTextInput (stdin : Stdin) (args : list gostring)
    : list gostring + InputError :=
  match stdin with
  | StatError =>
      let lines := processArguments args in
      if (length lines =? 0)%nat then inr NoInput else inl lines
  | Piped lines => inl lines
  | ReadError => inr ReadFailed
  | CharDevice =>
      let lines := processArguments args in
      if (length lines =? 0)%nat then inr NoInput else inl lines
  end.

(** part_001:463-475: a list has no, one or [depth] values. *)
Definition validate (depth : Z) (values : list gostring) : bool :=
  if (length values =? 0)%nat then true
  else if negb (length values =? 1)%nat
          && negb (Z.of_nat (length values) =? depth)
  then false
  else true.

(** part_001:487-502; [make] panics on a negative length (and on one
    beyond the limit of the allocator, which is left out here). *)
Definition expand (depth : Z) (values : list gostring)
    : option (list gostring) :=
  if (length values =? 0)%nat then
    if depth <? 0 then None else Some (replicate (Z.to_nat depth) [])
  else if (length values =? 1)%nat then
    if depth <? 0 then None
    else Some (replicate (Z.to_nat depth) (values !!! 0%nat))
  else Some values.

(** What a run of the command comes to: the lines printed, the usage text
    for a missing input, an error returned, or no result: a panic, or a
    colour theme engine that does not return. *)
Inductive Outcome :=
  | Printed (out : list gostring)
  | Usage
  | Failed
  | NoResult.

Section RunE.
Variable NoColor : bool.
Variable resetParams : list Z → list Z.
Variable ToLower : gostring → gostring.

Definition RunE (fuel : nat) (flags : Flags) (stdin : Stdin)
    (args : list gostring) (src : Source) : Outcome :=
  match resolveTextInput stdin args with
  | inr NoInput => Usage
  | inr ReadFailed => Failed
  | inl lines =>
      let depth := number flags in
      let titles := splitList (title flags) in
      let boxColors := splitList (boxColor flags) in
      let titleColors := splitList (titleColor flags) in
      let contentColor :=
        if decide (centerColor flags = []) then None
        else Some (parseColor ToLower (centerColor flags)) in
      if negb (validate depth titles) then Failed
      else if negb (validate depth boxColors) then Failed
      else if negb (validate depth titleColors) then Failed
      else
        match expand depth titles, expand depth boxColors,
              expand depth titleColors with
        | Some boxTitles, Some boxColors, Some titleColors =>
            let colorTheme :=
              if decide (mode flags = []) then None
              else Some (Tracking.newColorTheme (mode flags) src) in
            let theme := getTheme (themeName flags) in
            match createNestedBoxes NoColor resetParams ToLower _
                    (Tracking.getColorFromTheme fuel) lines depth boxColors
                    titleColors boxTitles theme (vpadding flags)
                    (hpadding flags) contentColor colorTheme with
            | Some result => Printed result
            | None => NoResult
            end
        | _, _, _ => NoResult
        end
  end.

End RunE.

End TrackingCmd.
(** The spec's end-to-end example: ["hi"], ascii, hpad 1. *)
Example createBox_hi :
  createBox false (λ _, [0]) [runes "hi"] None None [] None themeAscii 0 1
  = Some [runes "+----+"; runes "| hi |"; runes "+----+"].
Proof. vm_compute. reflexivity. Qed.

(** ** Integers and repetition *)

Lemma wrap_id (z : Z) : minInt ≤ z ≤ maxInt → wrap z = z.
Proof.
  unfold wrap, minInt, maxInt. intros H.
  rewrite Z.mod_small by lia. lia.
Qed.

Lemma mjoin_replicate_singleton {A} (n : nat) (x : A) :
  mjoin (replicate n [x]) = replicate n x.
Proof. induction n as [|n IH]; simpl; [done | by rewrite IH]. Qed.

Lemma byteLen_nonneg (s : gostring) : 0 ≤ byteLen s.
Proof.
  induction s as [|r s IH]; simpl; [lia |].
  unfold runeLen. repeat case_match; lia.
Qed.

Lemma Repeat_Some (s : gostring) (n : Z) :
  0 ≤ n → byteLen s * n ≤ maxInt →
  Repeat s n = Some (mjoin (replicate (Z.to_nat n) s)).
Proof.
  intros Hn Hfit. unfold Repeat.
  destruct (Z.eqb_spec n 0) as [->|H0]; [done |].
  destruct (Z.eqb_spec n 1) as [->|H1]; [simpl; by rewrite app_nil_r |].
  destruct (Z.ltb_spec n 0); [lia |].
  destruct (Z.ltb_spec maxInt (byteLen s * n)); [lia | done].
Qed.

Lemma Repeat_inv (s r : gostring) (n : Z) :
  Repeat s n = Some r → 0 ≤ n ∧ r = mjoin (replicate (Z.to_nat n) s).
Proof.
  unfold Repeat.
  destruct (Z.eqb_spec n 0) as [->|H0]; [intros [= <-]; by split |].
  destruct (Z.eqb_spec n 1) as [->|H1].
  { intros [= <-]. split; [lia |]. simpl. by rewrite app_nil_r. }
  destruct (Z.ltb_spec n 0); [done |].
  destruct (Z.ltb_spec maxInt (byteLen s * n)); [done |].
  intros [= <-]. by split.
Qed.

Lemma Repeat_negative (s : gostring) (n : Z) : n < 0 → Repeat s n = None.
Proof.
  intros Hn. unfold Repeat.
  destruct (Z.eqb_spec n 0); [lia |].
  destruct (Z.eqb_spec n 1); [lia |].
  destruct (Z.ltb_spec n 0); [done | lia].
Qed.

Lemma times_Some {A} (n : nat) (body : option A) (x : A) :
  body = Some x → times n body = Some (replicate n x).
Proof.
  intros ->. induction n as [|n IH]; simpl; [done | by rewrite IH].
Qed.

Lemma times_inv {A} (n : nat) (body : option A) (xs : list A) :
  times n body = Some xs →
  length xs = n ∧ ∀ x, x ∈ xs → body = Some x.
Proof.
  revert xs. induction n as [|n IH]; simpl; intros xs H.
  - injection H as <-. split; [done |]. intros x Hx. by apply elem_of_nil in Hx.
  - destruct body as [b|] eqn:Hb; simpl in H; [|done].
    destruct (times n (Some b)) as [ys|] eqn:Hys; simpl in H; [|done].
    injection H as <-. destruct (IH ys eq_refl) as [Hlen Hall].
    split; [simpl; by rewrite Hlen |].
    intros x [->|Hx]%elem_of_cons; [done | by apply Hall].
Qed.

(** ** Escape sequences and the stripped text *)

Lemma stripAnsiFrom_app (b : bool) (x y : gostring) :
  stripAnsiFrom b (x ++ y)
  = stripAnsiFrom b x ++ stripAnsiFrom (escapeAfter b x) y.
Proof.
  revert b. induction x as [|r x IH]; intros b; simpl; [done |].
  destruct (r =? 27); [apply IH |].
  destruct b; [destruct (isLetter r); apply IH |].
  by rewrite IH.
Qed.

Lemma escapeAfter_app (b : bool) (x y : gostring) :
  escapeAfter b (x ++ y) = escapeAfter (escapeAfter b x) y.
Proof.
  revert b. induction x as [|r x IH]; intros b; simpl; [done |].
  destruct (r =? 27); [apply IH |].
  destruct b; [destruct (isLetter r); apply IH | apply IH].
Qed.

(** Inside an escape sequence the loop writes no more than outside. *)
Lemma stripAnsiFrom_true_le (s : gostring) :
  (length (stripAnsiFrom true s) ≤ length (stripAnsiFrom false s))%nat.
Proof.
  induction s as [|r s IH]; simpl; [done |].
  destruct (r =? 27); [done |].
  destruct (isLetter r); simpl; lia.
Qed.

Lemma stripAnsiFrom_le (b : bool) (s : gostring) :
  (length (stripAnsiFrom b s) ≤ length (stripAnsi s))%nat.
Proof. destruct b; [apply stripAnsiFrom_true_le | done]. Qed.

(** Text with no escape character, read outside an escape sequence. *)
Lemma stripAnsiFrom_plain (s : gostring) :
  Forall (λ r, r ≠ 27) s →
  stripAnsiFrom false s = s ∧ escapeAfter false s = false.
Proof.
  induction 1 as [|r s Hr _ [IH1 IH2]]; simpl; [done |].
  destruct (Z.eqb_spec r 27); [done |]. by rewrite IH1.
Qed.

(** The tail of an escape sequence: no letter, no escape, then a letter. *)
Lemma stripAnsiFrom_tail (s : gostring) (l : rune) :
  Forall (λ r, r ≠ 27 ∧ isLetter r = false) s →
  isLetter l = true → l ≠ 27 →
  stripAnsiFrom true (s ++ [l]) = [] ∧ escapeAfter true (s ++ [l]) = false.
Proof.
  intros Hs Hl Hl'.
  induction Hs as [|r s [Hr1 Hr2] _ IH]; simpl.
  - destruct (Z.eqb_spec l 27); [done |]. by rewrite Hl.
  - destruct (Z.eqb_spec r 27); [done |]. by rewrite Hr2.
Qed.

Lemma runes_of_uint_digits (d : Decimal.uint) :
  Forall (λ r, r ≠ 27 ∧ isLetter r = false) (runes_of_uint d).
Proof. induction d; simpl; constructor; done. Qed.

Lemma Itoa_digits (z : Z) :
  Forall (λ r, r ≠ 27 ∧ isLetter r = false) (Itoa z).
Proof.
  unfold Itoa. destruct (Z.to_int z);
    [| constructor; [done |]]; apply runes_of_uint_digits.
Qed.

Lemma Join_digits (ps : list Z) :
  Forall (λ r, r ≠ 27 ∧ isLetter r = false) (Join (Itoa <$> ps) [59]).
Proof.
  induction ps as [|p ps IH]; [constructor |].
  destruct ps as [|q ps]; [apply Itoa_digits |].
  change (Join (Itoa <$> p :: q :: ps) [59])
    with (Itoa p ++ [59] ++ Join (Itoa <$> q :: ps) [59]).
  apply Forall_app; split; [apply Itoa_digits |].
  apply Forall_app; split; [by repeat constructor | apply IH].
Qed.

(** A colour sequence is swallowed whole, whatever the state before it. *)
Lemma stripAnsiFrom_sgr (b : bool) (ps : list Z) :
  stripAnsiFrom b (sgr ps) = [] ∧ escapeAfter b (sgr ps) = false.
Proof.
  unfold sgr.
  change ([27; 91] ++ Join (Itoa <$> ps) [59] ++ [109])
    with (27 :: (91 :: Join (Itoa <$> ps) [59]) ++ [109]).
  assert (H : stripAnsiFrom true ((91 :: Join (Itoa <$> ps) [59]) ++ [109]) = []
            ∧ escapeAfter true ((91 :: Join (Itoa <$> ps) [59]) ++ [109]) = false).
  { apply stripAnsiFrom_tail; [|done..].
    constructor; [done | apply Join_digits]. }
  destruct b; exact H.
Qed.

(** A coloured text: both sequences are swallowed. *)
Lemma stripAnsi_Sprint (resetParams : list Z → list Z) (b : bool)
    (c : Color) (s : gostring) :
  stripAnsiFrom b (Sprint false resetParams c s) = stripAnsi s
  ∧ escapeAfter b (Sprint false resetParams c s) = false.
Proof.
  unfold Sprint, format, unformat.
  destruct (stripAnsiFrom_sgr b (params c)) as [H1 H2].
  destruct (stripAnsiFrom_sgr (escapeAfter false s)
              (resetParams (params c))) as [H3 H4].
  rewrite !stripAnsiFrom_app, !escapeAfter_app, H1, H2, H3, H4.
  rewrite app_nil_l, app_nil_r. done.
Qed.

(** ** Painted text *)

Section RendererFacts.
Variable NoColor : bool.
Variable resetParams : list Z → list Z.

Local Abbreviation paint := (paint NoColor resetParams).
Local Abbreviation createBox := (createBox NoColor resetParams).
Local Abbreviation topLine := (topLine NoColor resetParams).
Local Abbreviation bottomLine := (bottomLine NoColor resetParams).
Local Abbreviation paddingLine := (paddingLine NoColor resetParams).
Local Abbreviation contentLine := (contentLine NoColor resetParams).

Lemma stripAnsi_paint (c : option Color) (s : gostring) :
  stripAnsi (paint c s) = stripAnsi s.
Proof.
  destruct c as [c|]; [|done]. simpl.
  destruct NoColor; [done | apply stripAnsi_Sprint].
Qed.

(** The stripped text of a painted piece is never longer, in any state. *)
Lemma stripAnsiFrom_paint_le (b : bool) (c : option Color) (s : gostring) :
  (length (stripAnsiFrom b (paint c s)) ≤ length (stripAnsi s))%nat.
Proof.
  destruct c as [c|]; simpl; [|apply stripAnsiFrom_le].
  destruct NoColor; [apply stripAnsiFrom_le |].
  by rewrite (proj1 (stripAnsi_Sprint resetParams b c s)).
Qed.

Lemma closed_paint (c : option Color) (s : gostring) :
  closed s → closed (paint c s).
Proof.
  intros Hs. destruct c as [c|]; [|done]. unfold closed. simpl.
  destruct NoColor; [done | apply stripAnsi_Sprint].
Qed.

Lemma closed_app (x y : gostring) : closed x → closed y → closed (x ++ y).
Proof. unfold closed. intros Hx Hy. by rewrite escapeAfter_app, Hx. Qed.

Lemma closed_plain (s : gostring) : Forall (λ r, r ≠ 27) s → closed s.
Proof. intros H. by apply stripAnsiFrom_plain. Qed.

Lemma displayWidth_app (x y : gostring) :
  closed x → displayWidth (x ++ y) = displayWidth x + displayWidth y.
Proof.
  unfold closed, displayWidth, RuneCountInString, stripAnsi. intros Hx.
  rewrite stripAnsiFrom_app, Hx, length_app. lia.
Qed.

Lemma displayWidth_app_le (x y : gostring) :
  displayWidth (x ++ y) ≤ displayWidth x + displayWidth y.
Proof.
  unfold displayWidth, RuneCountInString, stripAnsi.
  rewrite stripAnsiFrom_app, length_app.
  pose proof (stripAnsiFrom_le (escapeAfter false x) y). unfold stripAnsi in *.
  lia.
Qed.

Lemma displayWidth_paint (c : option Color) (s : gostring) :
  displayWidth (paint c s) = displayWidth s.
Proof. unfold displayWidth. by rewrite stripAnsi_paint. Qed.

Lemma displayWidth_plain (s : gostring) :
  Forall (λ r, r ≠ 27) s → displayWidth s = Z.of_nat (length s).
Proof.
  intros H. unfold displayWidth, RuneCountInString, stripAnsi.
  by rewrite (proj1 (stripAnsiFrom_plain s H)).
Qed.

Lemma displayWidth_nonneg (s : gostring) : 0 ≤ displayWidth s.
Proof. unfold displayWidth, RuneCountInString. lia. Qed.

(** *** The widest line *)

Lemma maxLineWidth_fold (lines : list gostring) (a : Z) :
  a ≤ fold_left
        (λ max line,
           let l := RuneCountInString (stripAnsi line) in
           if l >? max then l else max) lines a
  ∧ Forall (λ l, displayWidth l
                 ≤ fold_left
                     (λ max line,
                        let l := RuneCountInString (stripAnsi line) in
                        if l >? max then l else max) lines a) lines
  ∧ ∀ B, a ≤ B → Forall (λ l, displayWidth l ≤ B) lines →
         fold_left
           (λ max line,
              let l := RuneCountInString (stripAnsi line) in
              if l >? max then l else max) lines a ≤ B.
Proof.
  set (f := λ (max : Z) (line : gostring),
              let l := RuneCountInString (stripAnsi line) in
              if l >? max then l else max).
  revert a. induction lines as [|line lines IH]; intros a.
  - simpl. split; [lia |]. split; [constructor |]. intros; lia.
  - change (fold_left f (line :: lines) a) with (fold_left f lines (f a line)).
    destruct (IH (f a line)) as (H1 & H2 & H3).
    assert (Hm : a ≤ f a line ∧ displayWidth line ≤ f a line
                 ∧ ∀ B, a ≤ B → displayWidth line ≤ B → f a line ≤ B).
    { unfold f, displayWidth. simpl.
      destruct (Z.gtb_spec (RuneCountInString (stripAnsi line)) a);
        repeat split; intros; lia. }
    destruct Hm as (Ha & Hl & Hb).
    split; [lia |]. split.
    + constructor; [lia | exact H2].
    + intros B HB HF. inversion HF; subst. apply H3; [|done]. by apply Hb.
Qed.

Lemma maxLineWidth_nonneg (lines : list gostring) : 0 ≤ maxLineWidth lines.
Proof. apply (maxLineWidth_fold lines 0). Qed.

Lemma maxLineWidth_ge (lines : list gostring) :
  Forall (λ l, displayWidth l ≤ maxLineWidth lines) lines.
Proof. apply (maxLineWidth_fold lines 0). Qed.

Lemma maxLineWidth_le (lines : list gostring) (B : Z) :
  0 ≤ B → Forall (λ l, displayWidth l ≤ B) lines → maxLineWidth lines ≤ B.
Proof. apply (maxLineWidth_fold lines 0). Qed.

(** *** The pieces of a line *)

Lemma wf_theme_glyph (theme : gmap string gostring) (k : string) :
  wf_theme theme = true →
  k ∈ ["WE"; "NS"; "NW"; "NE"; "SW"; "SE"]%string →
  ∃ r, glyph theme k = [r] ∧ r ≠ 27.
Proof.
  unfold wf_theme. rewrite forallb_forall. intros H Hk.
  specialize (H k (proj1 (list_elem_of_In _ _) Hk)).
  destruct (glyph theme k) as [|r [|]]; simpl in H; try done.
  exists r. split; [done |]. by destruct (Z.eqb_spec r 27).
Qed.

(** The three glyph sets of the program keep the invariant. *)
Lemma getTheme_wf (name : gostring) : wf_theme (getTheme name) = true.
Proof. unfold getTheme. repeat case_decide; reflexivity. Qed.

Lemma glyph_painted (c : option Color) (r : rune) :
  r ≠ 27 → displayWidth (paint c [r]) = 1 ∧ closed (paint c [r]).
Proof.
  intros Hr. assert (Hp : Forall (λ r, r ≠ 27) [r]) by by constructor.
  split.
  - rewrite displayWidth_paint. by rewrite displayWidth_plain.
  - apply closed_paint. by apply closed_plain.
Qed.

Lemma replicate_plain (n : nat) (r : rune) :
  r ≠ 27 → Forall (λ r, r ≠ 27) (replicate n r).
Proof. intros Hr. by apply Forall_replicate. Qed.

Lemma fill_painted (c : option Color) (n : nat) (r : rune) :
  r ≠ 27 →
  displayWidth (paint c (replicate n r)) = Z.of_nat n
  ∧ closed (paint c (replicate n r)).
Proof.
  intros Hr. pose proof (replicate_plain n r Hr) as Hp. split.
  - rewrite displayWidth_paint, displayWidth_plain by done.
    by rewrite length_replicate.
  - apply closed_paint. by apply closed_plain.
Qed.

Lemma Repeat_glyph (r : rune) (n : Z) :
  0 ≤ n → byteLen [r] * n ≤ maxInt →
  Repeat [r] n = Some (replicate (Z.to_nat n) r).
Proof.
  intros Hn Hfit. rewrite Repeat_Some by done.
  by rewrite mjoin_replicate_singleton.
Qed.

Lemma Repeat_spaces (n : Z) :
  0 ≤ n → n ≤ maxInt →
  Repeat (runes " ") n = Some (replicate (Z.to_nat n) 32).
Proof.
  intros Hn Hfit. change (runes " ") with [32]. apply Repeat_glyph; [done |].
  change (byteLen [32]) with 1. lia.
Qed.

Lemma piece_glyph (c : option Color) (r : rune) (rest : gostring) :
  r ≠ 27 →
  displayWidth (paint c [r] ++ rest) = 1 + displayWidth rest
  ∧ (closed rest → closed (paint c [r] ++ rest)).
Proof.
  intros Hr. destruct (glyph_painted c r Hr) as [Hw Hc]. split.
  - by rewrite displayWidth_app, Hw.
  - intros. by apply closed_app.
Qed.

Lemma piece_fill (c : option Color) (n : nat) (r : rune) (rest : gostring) :
  r ≠ 27 →
  displayWidth (paint c (replicate n r) ++ rest)
  = Z.of_nat n + displayWidth rest
  ∧ (closed rest → closed (paint c (replicate n r) ++ rest)).
Proof.
  intros Hr. destruct (fill_painted c n r Hr) as [Hw Hc]. split.
  - by rewrite displayWidth_app, Hw.
  - intros. by apply closed_app.
Qed.

Lemma piece_text (c : option Color) (s rest : gostring) :
  displayWidth (paint c s ++ rest) ≤ displayWidth s + displayWidth rest
  ∧ (closed s →
     displayWidth (paint c s ++ rest) = displayWidth s + displayWidth rest
     ∧ (closed rest → closed (paint c s ++ rest))).
Proof.
  split.
  - pose proof (displayWidth_app_le (paint c s) rest) as H.
    by rewrite displayWidth_paint in H.
  - intros Hs. pose proof (closed_paint c s Hs) as Hc. split.
    + by rewrite displayWidth_app, displayWidth_paint.
    + intros. by apply closed_app.
Qed.

(** *** The lines of a box *)

Lemma paddingLine_ok (boxColor : option Color)
    (theme : gmap string gostring) (W : Z) :
  wf_theme theme = true → 0 ≤ W → W ≤ maxInt →
  ∃ l, paddingLine boxColor theme W = Some l
       ∧ displayWidth l = W + 2 ∧ closed l.
Proof.
  intros Hwf H0 Hfit.
  destruct (wf_theme_glyph theme "NS" Hwf) as (ns & Hns & Hns');
    [set_solver |].
  unfold paddingLine. rewrite Repeat_spaces, Hns by done. simpl.
  eexists. split; [done |].
  destruct (glyph_painted boxColor ns Hns') as [Hw Hc].
  destruct (piece_fill None (Z.to_nat W) 32 (paint boxColor [ns]))
    as [Hw2 Hc2]; [done |]. simpl in Hw2, Hc2.
  destruct (piece_glyph boxColor ns
              (replicate (Z.to_nat W) 32 ++ paint boxColor [ns]) Hns')
    as [Hw3 Hc3].
  split; [rewrite Hw3, Hw2, Hw; lia | auto].
Qed.

Lemma bottomLine_ok (boxColor : option Color)
    (theme : gmap string gostring) (W : Z) :
  wf_theme theme = true → 0 ≤ W → byteLen (glyph theme "WE") * W ≤ maxInt →
  ∃ l, bottomLine boxColor theme W = Some l
       ∧ displayWidth l = W + 2 ∧ closed l.
Proof.
  intros Hwf H0 Hfit.
  destruct (wf_theme_glyph theme "WE" Hwf) as (we & Hwe & Hwe');
    [set_solver |].
  destruct (wf_theme_glyph theme "SW" Hwf) as (sw & Hsw & Hsw');
    [set_solver |].
  destruct (wf_theme_glyph theme "SE" Hwf) as (se & Hse & Hse');
    [set_solver |].
  unfold bottomLine, repeatChar. rewrite Hwe in *.
  rewrite Repeat_glyph, Hsw, Hse by done. simpl.
  eexists. split; [done |].
  destruct (glyph_painted boxColor se Hse') as [Hw Hc].
  destruct (piece_fill boxColor (Z.to_nat W) we (paint boxColor [se]) Hwe')
    as [Hw2 Hc2].
  destruct (piece_glyph boxColor sw
              (paint boxColor (replicate (Z.to_nat W) we)
                 ++ paint boxColor [se]) Hsw') as [Hw3 Hc3].
  split; [rewrite Hw3, Hw2, Hw; lia | auto].
Qed.

Lemma topLine_ok (boxColor : option Color) (boxTitle : gostring)
    (titleColor : option Color) (theme : gmap string gostring) (W : Z) :
  wf_theme theme = true → 0 ≤ W → byteLen (glyph theme "WE") * W ≤ maxInt →
  W ≤ maxInt → displayWidth boxTitle ≤ W →
  ∃ l, topLine boxColor boxTitle titleColor theme W = Some l
       ∧ displayWidth l ≤ W + 2
       ∧ (closed boxTitle → displayWidth l = W + 2 ∧ closed l).
Proof.
  intros Hwf H0 Hfit HW Ht.
  destruct (wf_theme_glyph theme "WE" Hwf) as (we & Hwe & Hwe');
    [set_solver |].
  destruct (wf_theme_glyph theme "NW" Hwf) as (nw & Hnw & Hnw');
    [set_solver |].
  destruct (wf_theme_glyph theme "NE" Hwf) as (ne & Hne & Hne');
    [set_solver |].
  pose proof (displayWidth_nonneg boxTitle) as Ht0.
  pose proof (byteLen_nonneg (glyph theme "WE")) as Hb0.
  destruct (glyph_painted boxColor ne Hne') as [Hw Hc].
  unfold topLine, repeatChar. rewrite Hwe in *.
  destruct boxTitle as [|t0 title] eqn:Etitle.
  - rewrite Repeat_glyph, Hnw, Hne by done. simpl.
    eexists. split; [done |].
    destruct (piece_fill boxColor (Z.to_nat W) we (paint boxColor [ne]) Hwe')
      as [Hw2 Hc2].
    destruct (piece_glyph boxColor nw
                (paint boxColor (replicate (Z.to_nat W) we)
                   ++ paint boxColor [ne]) Hnw') as [Hw3 Hc3].
    assert (Heq : displayWidth
                    (paint boxColor [nw]
                     ++ paint boxColor (replicate (Z.to_nat W) we)
                     ++ paint boxColor [ne]) = W + 2)
      by (rewrite Hw3, Hw2, Hw; lia).
    split; [lia |]. intros _. split; [done | auto].
  - rewrite <- Etitle in *. clear Etitle.
    fold (displayWidth boxTitle).
    set (rest := int_sub W (displayWidth boxTitle)).
    assert (Hrest : rest = W - displayWidth boxTitle).
    { unfold rest, int_sub. apply wrap_id. unfold minInt, maxInt in *. lia. }
    rewrite Repeat_glyph, Hnw, Hne by (rewrite Hrest; nia). simpl.
    eexists. split; [done |].
    destruct (piece_fill boxColor (Z.to_nat rest) we (paint boxColor [ne])
                Hwe') as [Hw2 Hc2].
    destruct (piece_text titleColor boxTitle
                (paint boxColor (replicate (Z.to_nat rest) we)
                   ++ paint boxColor [ne])) as [Hle Heq].
    destruct (piece_glyph boxColor nw
                (paint titleColor boxTitle
                   ++ paint boxColor (replicate (Z.to_nat rest) we)
                   ++ paint boxColor [ne]) Hnw') as [Hw3 Hc3].
    split; [rewrite Hw3; lia |].
    intros Hclosed. destruct (Heq Hclosed) as [Heq1 Heq2].
    split; [rewrite Hw3, Heq1, Hw2, Hw; lia | auto].
Qed.

Lemma contentLine_ok (boxColor contentColor : option Color)
    (theme : gmap string gostring) (W hpadding : Z) (line : gostring) :
  wf_theme theme = true → 0 ≤ hpadding → W ≤ maxInt →
  displayWidth line + 2 * hpadding ≤ W →
  ∃ l, contentLine boxColor contentColor theme W hpadding line = Some l
       ∧ displayWidth l ≤ W + 2
       ∧ (closed line → displayWidth l = W + 2 ∧ closed l).
Proof.
  intros Hwf Hh HW Hline.
  destruct (wf_theme_glyph theme "NS" Hwf) as (ns & Hns & Hns');
    [set_solver |].
  pose proof (displayWidth_nonneg line) as Hl0.
  destruct (glyph_painted boxColor ns Hns') as [Hw Hc].
  unfold contentLine. fold (displayWidth line).
  assert (H2h : int_mul 2 hpadding = 2 * hpadding).
  { apply wrap_id. unfold minInt, maxInt in *. lia. }
  assert (Htot : int_sub W (displayWidth line) = W - displayWidth line).
  { apply wrap_id. unfold minInt, maxInt in *. lia. }
  rewrite H2h, Htot.
  set (fill := int_sub (W - displayWidth line) (2 * hpadding)).
  assert (Hfill : fill = W - displayWidth line - 2 * hpadding).
  { apply wrap_id. unfold minInt, maxInt in *. lia. }
  rewrite !Repeat_spaces, Hns by lia. simpl.
  eexists. split; [done |].
  destruct (piece_fill None (Z.to_nat fill) 32 (paint boxColor [ns]))
    as [Hw2 Hc2]; [done |]. simpl in Hw2, Hc2.
  destruct (piece_fill None (Z.to_nat hpadding) 32
              (replicate (Z.to_nat fill) 32 ++ paint boxColor [ns]))
    as [Hw3 Hc3]; [done |]. simpl in Hw3, Hc3.
  destruct (piece_text contentColor line
              (replicate (Z.to_nat hpadding) 32
                 ++ replicate (Z.to_nat fill) 32 ++ paint boxColor [ns]))
    as [Hle Heq].
  destruct (piece_fill None (Z.to_nat hpadding) 32
              (paint contentColor line
                 ++ replicate (Z.to_nat hpadding) 32
                 ++ replicate (Z.to_nat fill) 32 ++ paint boxColor [ns]))
    as [Hw4 Hc4]; [done |]. simpl in Hw4, Hc4.
  destruct (piece_glyph boxColor ns
              (replicate (Z.to_nat hpadding) 32
                 ++ paint contentColor line
                 ++ replicate (Z.to_nat hpadding) 32
                 ++ replicate (Z.to_nat fill) 32 ++ paint boxColor [ns])
              Hns') as [Hw5 Hc5].
  split; [rewrite Hw5, Hw4; lia |].
  intros Hclosed. destruct (Heq Hclosed) as [Heq1 Heq2].
  split; [rewrite Hw5, Hw4, Heq1, Hw3, Hw2, Hw; lia | auto 10].
Qed.

(** *** The whole box *)

Lemma innerWidth_bounds (theme : gmap string gostring)
    (lines : list gostring) (boxTitle : gostring) (hpadding : Z) :
  0 ≤ hpadding → boxFits theme lines boxTitle hpadding →
  maxLineWidth lines + 2 * hpadding ≤ innerWidth lines boxTitle hpadding
  ∧ displayWidth boxTitle ≤ innerWidth lines boxTitle hpadding
  ∧ innerWidth lines boxTitle hpadding
    ≤ Z.max (maxLineWidth lines + 2 * hpadding) (displayWidth boxTitle)
  ∧ innerWidth lines boxTitle hpadding ≤ maxInt
  ∧ byteLen (glyph theme "WE") * innerWidth lines boxTitle hpadding ≤ maxInt.
Proof.
  intros Hh Hfit. unfold boxFits in Hfit.
  pose proof (maxLineWidth_nonneg lines) as Hm.
  pose proof (displayWidth_nonneg boxTitle) as Ht.
  pose proof (byteLen_nonneg (glyph theme "WE")) as Hb.
  assert (Hmax : Z.max (maxLineWidth lines + 2 * hpadding)
                   (displayWidth boxTitle) ≤ maxInt) by nia.
  assert (Hsum : int_add (maxLineWidth lines) (int_mul 2 hpadding)
                 = maxLineWidth lines + 2 * hpadding).
  { unfold int_add, int_mul. rewrite (wrap_id (2 * hpadding));
      [apply wrap_id |]; unfold minInt, maxInt in *; lia. }
  assert (HW : maxLineWidth lines + 2 * hpadding
                 ≤ innerWidth lines boxTitle hpadding
               ∧ displayWidth boxTitle ≤ innerWidth lines boxTitle hpadding
               ∧ innerWidth lines boxTitle hpadding
                 ≤ Z.max (maxLineWidth lines + 2 * hpadding)
                     (displayWidth boxTitle)).
  { unfold innerWidth. rewrite Hsum. destruct boxTitle as [|t0 title] eqn:E.
    - change (displayWidth []) with 0. lia.
    - rewrite <- E in *. fold (displayWidth boxTitle).
      destruct (Z.gtb_spec (displayWidth boxTitle)
                  (maxLineWidth lines + 2 * hpadding)); lia. }
  destruct HW as (H1 & H2 & H3). repeat split; [done.. | lia | nia].
Qed.

Lemma createBox_length (lines : list gostring)
    (boxColor contentColor : option Color) (boxTitle : gostring)
    (titleColor : option Color) (theme : gmap string gostring)
    (vpadding hpadding : Z) (box : list gostring) :
  createBox lines boxColor contentColor boxTitle titleColor theme
    vpadding hpadding = Some box →
  length box = (length lines + 2 + 2 * Z.to_nat vpadding)%nat.
Proof.
  unfold createBox. intros H.
  destruct (topLine _ _ _ _ _) as [top|]; simpl in H; [|done].
  destruct (times _ _) as [pad|] eqn:Hpad; simpl in H; [|done].
  destruct (mapM _ _) as [content|] eqn:Hcontent; simpl in H; [|done].
  destruct (bottomLine _ _ _) as [bottom|]; simpl in H; [|done].
  injection H as <-.
  apply times_inv in Hpad as [Hpad _]. apply length_mapM in Hcontent.
  simpl. rewrite !length_app. simpl. lia.
Qed.

Lemma content_ok (boxColor contentColor : option Color)
    (theme : gmap string gostring) (W hpadding : Z)
    (lines : list gostring) :
  wf_theme theme = true → 0 ≤ hpadding → W ≤ maxInt →
  Forall (λ line, displayWidth line + 2 * hpadding ≤ W) lines →
  ∃ content,
    mapM (contentLine boxColor contentColor theme W hpadding) lines
    = Some content
    ∧ Forall (λ l, displayWidth l ≤ W + 2) content
    ∧ (Forall closed lines →
       Forall (λ l, displayWidth l = W + 2 ∧ closed l) content).
Proof.
  intros Hwf Hh HW. induction 1 as [|line lines Hline _ IH].
  - exists []. by repeat split.
  - destruct IH as (content & Hc & Hle & Heq).
    destruct (contentLine_ok boxColor contentColor theme W hpadding line)
      as (l & Hl & Hlle & Hleq); [done.. |].
    exists (l :: content). simpl. rewrite Hl, Hc. simpl.
    split; [done |]. split; [by constructor |].
    intros Hcl. inversion Hcl; subst. constructor; auto.
Qed.

Lemma createBox_ok (lines : list gostring)
    (boxColor contentColor : option Color) (boxTitle : gostring)
    (titleColor : option Color) (theme : gmap string gostring)
    (vpadding hpadding : Z) :
  wf_theme theme = true → 0 ≤ hpadding →
  boxFits theme lines boxTitle hpadding →
  ∃ box,
    createBox lines boxColor contentColor boxTitle titleColor theme
      vpadding hpadding = Some box
    ∧ Forall (λ l, displayWidth l
                   ≤ innerWidth lines boxTitle hpadding + 2) box
    ∧ (Forall closed lines → closed boxTitle →
       Forall (λ l, displayWidth l = innerWidth lines boxTitle hpadding + 2
                    ∧ closed l) box).
Proof.
  intros Hwf Hh Hfit.
  destruct (innerWidth_bounds theme lines boxTitle hpadding Hh Hfit)
    as (H1 & H2 & H3 & H4 & H5).
  pose proof (maxLineWidth_nonneg lines) as Hm.
  set (W := innerWidth lines boxTitle hpadding) in *.
  assert (HW0 : 0 ≤ W) by lia.
  destruct (topLine_ok boxColor boxTitle titleColor theme W)
    as (top & Htop & Htle & Hteq); [done.. |].
  destruct (paddingLine_ok boxColor theme W) as (pad & Hpad & Hpw & Hpc);
    [done.. |].
  destruct (content_ok boxColor contentColor theme W hpadding lines)
    as (content & Hcontent & Hcle & Hceq); [done.. | |].
  { eapply Forall_impl; [apply maxLineWidth_ge |]. simpl. intros; lia. }
  destruct (bottomLine_ok boxColor theme W) as (bot & Hbot & Hbw & Hbc);
    [done.. |].
  unfold createBox. fold W.
  rewrite Htop, (times_Some _ _ pad Hpad), Hcontent, Hbot. simpl.
  eexists. split; [done |]. split.
  - constructor; [done |]. repeat (apply Forall_app; split);
      try done; try (apply Forall_replicate; lia).
    constructor; [lia | constructor].
  - intros Hlines Htitle. destruct (Hteq Htitle).
    constructor; [done |]. repeat (apply Forall_app; split);
      try (by apply Forall_replicate); auto.
Qed.


(** *** Claims on the renderer *)

(** C6, as amended: when no line and no title leaves an escape sequence
    open, the glyphs are one column wide, [hpadding] is not negative and
    the sizes fit [int], [createBox] returns a box and every line of it
    (top border, padding, content, bottom border) has the same stripped
    width, the inner width plus the two border glyphs. *)
Theorem createBox_uniform_width (lines : list gostring)
    (boxColor contentColor : option Color) (boxTitle : gostring)
    (titleColor : option Color) (theme : gmap string gostring)
    (vpadding hpadding : Z) :
  wf_theme theme = true → 0 ≤ hpadding →
  boxFits theme lines boxTitle hpadding →
  Forall closed lines → closed boxTitle →
  ∃ box,
    createBox lines boxColor contentColor boxTitle titleColor theme
      vpadding hpadding = Some box
    ∧ Forall (λ l, displayWidth l = innerWidth lines boxTitle hpadding + 2)
        box.
Proof.
  intros Hwf Hh Hfit Hlines Htitle.
  destruct (createBox_ok lines boxColor contentColor boxTitle titleColor
              theme vpadding hpadding Hwf Hh Hfit) as (box & Hbox & _ & Heq).
  exists box. split; [done |].
  eapply Forall_impl; [by apply Heq |]. by intros l [Hl _].
Qed.

End RendererFacts.

(** ** The renderer under the allocator's limit *)




Section AllocFacts.
Variable maxAlloc : Z.
Variable NoColor : bool.
Variable resetParams : list Z → list Z.




End AllocFacts.


Lemma stripAnsiFrom_no_escape (b : bool) (s : gostring) :
  Forall (λ r, r ≠ 27) (stripAnsiFrom b s).
Proof.
  revert b. induction s as [|r s IH]; intros b; simpl; [constructor |].
  destruct (Z.eqb_spec r 27); [apply IH |].
  destruct b; [destruct (isLetter r); apply IH |].
  constructor; [done | apply IH].
Qed.

(** C10: [stripAnsi] is idempotent, since its result holds no escape
    character. *)
Theorem stripAnsi_idempotent (s : gostring) :
  Forall (λ r, r ≠ 27) (stripAnsi s)
  ∧ stripAnsi (stripAnsi s) = stripAnsi s.
Proof.
  pose proof (stripAnsiFrom_no_escape false s) as H. split; [exact H |].
  unfold stripAnsi at 1. by apply stripAnsiFrom_plain.
Qed.

(** *** Undoing a plain box *)

Lemma trimRight_id (s : gostring) : last s ≠ Some 32 → trimRight s = s.
Proof.
  induction s as [|r s IH]; [done |]. intros Hlast.
  destruct s as [|r' s'].
  - simpl in *. destruct (Z.eqb_spec r 32); [congruence | done].
  - change (last (r :: r' :: s')) with (last (r' :: s')) in Hlast.
    change (trimRight (r :: r' :: s'))
      with (match trimRight (r' :: s') with
            | [] => if r =? 32 then [] else [r]
            | t => r :: t
            end).
    by rewrite (IH Hlast).
Qed.

Lemma trimRight_spaces (n : nat) : trimRight (replicate n 32) = [].
Proof. induction n as [|n IH]; simpl; [done | by rewrite IH]. Qed.

Lemma trimRight_app_spaces (s : gostring) (n : nat) :
  last s ≠ Some 32 → trimRight (s ++ replicate n 32) = s.
Proof.
  intros Hlast. induction s as [|r s IH].
  - apply trimRight_spaces.
  - destruct s as [|r' s'].
    + simpl in *. rewrite trimRight_spaces.
      destruct (Z.eqb_spec r 32); [congruence | done].
    + change (last (r :: r' :: s')) with (last (r' :: s')) in Hlast.
      change (trimRight ((r :: r' :: s') ++ replicate n 32))
        with (match trimRight ((r' :: s') ++ replicate n 32) with
              | [] => if r =? 32 then [] else [r]
              | t => r :: t
              end).
      by rewrite (IH Hlast).
Qed.

Lemma inner_wrapped {A} (x y : A) (l : list A) : inner (x :: l ++ [y]) = l.
Proof. unfold inner. simpl. apply removelast_last. Qed.

Section PlainBox.
Variable NoColor : bool.
Variable resetParams : list Z → list Z.

Lemma plain_content (W : Z) (lines : list gostring) :
  W ≤ maxInt → Forall (λ line, displayWidth line ≤ W) lines →
  mapM (contentLine NoColor resetParams None None themePlain W 0) lines
  = Some ((λ line, 32 :: (line
                          ++ replicate (Z.to_nat (W - displayWidth line)) 32)
                         ++ [32]) <$> lines).
Proof.
  intros HW. induction 1 as [|line lines Hline _ IH]; [done |].
  pose proof (displayWidth_nonneg line).
  simpl. rewrite IH.
  unfold contentLine at 1. fold (displayWidth line).
  change (int_mul 2 0) with 0. unfold int_sub.
  rewrite (wrap_id (W - displayWidth line)), Z.sub_0_r, wrap_id
    by (unfold minInt, maxInt in *; lia).
  rewrite Repeat_spaces by lia. simpl. by rewrite <- app_assoc.
Qed.

(** C8, as amended: for input lines none of which ends in a space, the
    plain box of depth one with no padding, title or colour gives the
    lines back once its border lines and border glyphs are removed and the
    fill spaces are trimmed. *)
Theorem plain_box_roundtrip (lines : list gostring) :
  Forall (λ line, last line ≠ Some 32) lines →
  maxLineWidth lines ≤ maxInt →
  ∃ box,
    createBox NoColor resetParams lines None None [] None themePlain 0 0
    = Some box
    ∧ unbox box = lines.
Proof.
  intros Hlast Hfit.
  pose proof (maxLineWidth_nonneg lines) as Hm.
  assert (HW : innerWidth lines [] 0 = maxLineWidth lines).
  { unfold innerWidth. change (int_mul 2 0) with 0. unfold int_add.
    rewrite Z.add_0_r. apply wrap_id. unfold minInt, maxInt in *. lia. }
  unfold createBox. rewrite HW.
  unfold topLine, bottomLine, repeatChar.
  change (glyph themePlain "WE") with [32].
  rewrite Repeat_glyph by (change (byteLen [32]) with 1; lia).
  rewrite (plain_content (maxLineWidth lines) lines Hfit
             (maxLineWidth_ge lines)).
  simpl. eexists. split; [done |].
  unfold unbox.
  rewrite (inner_wrapped _ _ _).
  rewrite <- list_fmap_compose.
  rewrite <- (list_fmap_id lines) at 2.
  apply Forall_fmap_ext_1.
  eapply Forall_impl; [exact Hlast |]. simpl. intros line Hline.
  rewrite inner_wrapped. by apply trimRight_app_spaces.
Qed.

End PlainBox.

(** ** The nesting loop *)

Lemma listColor_resolve (parse : gostring → Color) (colors : list gostring)
    (i : nat) :
  listColor parse colors i = parse <$> resolve colors i.
Proof.
  unfold listColor, resolve.
  destruct (Nat.ltb_spec 0 (length colors)) as [Hne|He].
  - destruct (Nat.ltb_spec i (length colors)) as [Hi|Hi].
    + by rewrite (list_lookup_lookup_total_lt colors i Hi).
    + rewrite (lookup_ge_None_2 colors i Hi), head_lookup.
      by rewrite (list_lookup_lookup_total_lt colors 0 Hne).
  - destruct colors; [done | simpl in He; lia].
Qed.

Lemma layerTitle_lookup (boxTitles : list gostring) (i : nat) :
  layerTitle boxTitles i = default [] (boxTitles !! i).
Proof.
  unfold layerTitle.
  destruct (Nat.ltb_spec 0 (length boxTitles)) as [Hne|He].
  - destruct (Nat.ltb_spec i (length boxTitles)) as [Hi|Hi].
    + by rewrite (list_lookup_lookup_total_lt boxTitles i Hi).
    + by rewrite (lookup_ge_None_2 boxTitles i Hi).
  - destruct boxTitles; [done | simpl in He; lia].
Qed.

Lemma layerTitle_width (boxTitles : list gostring) (i : nat) (M : Z) :
  0 ≤ M → Forall (λ t, displayWidth t ≤ M) boxTitles →
  displayWidth (layerTitle boxTitles i) ≤ M.
Proof.
  intros HM Hall. rewrite layerTitle_lookup.
  destruct (boxTitles !! i) as [t|] eqn:Ht; simpl; [|done].
  by apply (Forall_lookup_1 _ _ _ _ Hall Ht).
Qed.

Section NestingFacts.
Variable NoColor : bool.
Variable resetParams : list Z → list Z.
Variable ToLower : gostring → gostring.
Variable ThemeState : Type.
Variable getColorFromTheme : ThemeState → Z → option (Color * ThemeState).

Local Abbreviation nestFrom :=
  (nestFrom NoColor resetParams ToLower ThemeState getColorFromTheme).
Local Abbreviation createNestedBoxes :=
  (createNestedBoxes NoColor resetParams ToLower ThemeState
     getColorFromTheme).
Local Abbreviation borderColor :=
  (layerBoxColor ToLower ThemeState getColorFromTheme).

Lemma nestFrom_length (rounds : nat) :
  ∀ (i : nat) (lines : list gostring) (depth : Z)
    (boxColors titleColors boxTitles : list gostring)
    (theme : gmap string gostring) (vpadding hpadding : Z)
    (contentColor : option Color) (colorTheme : option ThemeState)
    (out : list gostring),
  nestFrom rounds i lines depth boxColors titleColors boxTitles theme
    vpadding hpadding contentColor colorTheme = Some out →
  length out = (length lines + rounds * (2 + 2 * Z.to_nat vpadding))%nat.
Proof.
  induction rounds as [|rounds IH]; intros i lines depth boxColors
    titleColors boxTitles theme vpadding hpadding contentColor colorTheme
    out H; simpl in H.
  - injection H as <-. lia.
  - destruct (borderColor boxColors colorTheme i) as [[bc th']|];
      simpl in H; [|done].
    destruct (createBox _ _ _ _ _ _ _ _ _ _) as [box|] eqn:Hbox;
      simpl in H; [|done].
    apply IH in H. apply createBox_length in Hbox. lia.
Qed.

Lemma wf_theme_fits (theme : gmap string gostring)
    (lines : list gostring) (boxTitle : gostring) (hpadding M : Z) :
  wf_theme theme = true → 0 ≤ hpadding →
  maxLineWidth lines ≤ M → displayWidth boxTitle ≤ M →
  4 * (M + 2 * hpadding) ≤ maxInt →
  boxFits theme lines boxTitle hpadding.
Proof.
  intros Hwf Hh Hl Ht Hfit.
  destruct (wf_theme_glyph theme "WE" Hwf) as (we & Hwe & _);
    [set_solver |].
  pose proof (maxLineWidth_nonneg lines).
  pose proof (displayWidth_nonneg boxTitle).
  unfold boxFits. rewrite Hwe.
  assert (Hb : 1 ≤ Z.max 1 (byteLen [we]) ≤ 4).
  { simpl. unfold runeLen. repeat case_match; lia. }
  assert (Hm : 0 ≤ Z.max (maxLineWidth lines + 2 * hpadding)
                     (displayWidth boxTitle) ≤ M + 2 * hpadding) by lia.
  nia.
Qed.

Lemma nestFrom_Some (rounds : nat) :
  ∀ (i : nat) (lines : list gostring) (depth : Z)
    (boxColors titleColors boxTitles : list gostring)
    (theme : gmap string gostring) (vpadding hpadding : Z)
    (contentColor : option Color) (colorTheme : option ThemeState) (M : Z),
  wf_theme theme = true → 0 ≤ hpadding →
  colorTheme = None
  ∨ (∀ th (j : nat), is_Some (getColorFromTheme th (Z.of_nat j))) →
  maxLineWidth lines ≤ M → Forall (λ t, displayWidth t ≤ M) boxTitles →
  4 * (M + Z.of_nat rounds * (2 * hpadding + 2)) ≤ maxInt →
  is_Some (nestFrom rounds i lines depth boxColors titleColors boxTitles
             theme vpadding hpadding contentColor colorTheme).
Proof.
  induction rounds as [|rounds IH]; intros i lines depth boxColors
    titleColors boxTitles theme vpadding hpadding contentColor colorTheme M
    Hwf Hh Htotal Hl Ht Hfit; simpl; [by eexists |].
  pose proof (maxLineWidth_nonneg lines) as Hm.
  assert (Hcol : ∃ bc th', borderColor boxColors colorTheme i = Some (bc, th')
                 ∧ (th' = None
                    ∨ ∀ th (j : nat),
                        is_Some (getColorFromTheme th (Z.of_nat j)))).
  { unfold layerBoxColor. destruct colorTheme as [th|].
    - destruct Htotal as [?|Htotal]; [done |].
      destruct (Htotal th i) as [[c th'] ->]. simpl. eauto.
    - eauto. }
  destruct Hcol as (bc & th' & -> & Htotal'). simpl.
  set (title := layerTitle boxTitles i).
  set (cc := if Z.of_nat i =? int_sub depth 1 then contentColor else None).
  set (tc := listColor (parseColor ToLower) titleColors i).
  assert (Htitle : displayWidth title ≤ M)
    by (apply layerTitle_width; [lia | done]).
  assert (Hbf : boxFits theme lines title hpadding).
  { apply (wf_theme_fits theme lines title hpadding M); try done. nia. }
  destruct (createBox_ok NoColor resetParams lines bc cc title tc theme
              vpadding hpadding Hwf Hh Hbf) as (box & -> & Hle & _).
  simpl.
  destruct (innerWidth_bounds theme lines title hpadding Hh Hbf)
    as (H1 & H2 & H3 & H4 & H5).
  apply (IH _ _ _ _ _ _ _ _ _ _ _ (M + 2 * hpadding + 2)); try done.
  - apply maxLineWidth_le; [lia |].
    eapply Forall_impl; [exact Hle |]. simpl. intros; lia.
  - eapply Forall_impl; [exact Ht |]. simpl. intros; lia.
  - lia.
Qed.

(** C7: the output of [createNestedBoxes] has [n + 2*d*(1+vpad)] lines,
    and there is an output when the glyphs are one column wide, the
    horizontal padding is not negative, the theme engine returns and the
    sizes fit [int]. *)
Theorem createNestedBoxes_line_count (lines : list gostring) (depth : Z)
    (boxColors titleColors boxTitles : list gostring)
    (theme : gmap string gostring) (vpadding hpadding : Z)
    (contentColor : option Color) (colorTheme : option ThemeState) :
  0 ≤ depth → 0 ≤ vpadding →
  (∀ out,
     createNestedBoxes lines depth boxColors titleColors boxTitles theme
       vpadding hpadding contentColor colorTheme = Some out →
     Z.of_nat (length out)
     = Z.of_nat (length lines) + 2 * depth * (1 + vpadding))
  ∧ (wf_theme theme = true → 0 ≤ hpadding →
     colorTheme = None
     ∨ (∀ th (j : nat), is_Some (getColorFromTheme th (Z.of_nat j))) →
     nestFits lines boxTitles depth hpadding →
     ∃ out,
       createNestedBoxes lines depth boxColors titleColors boxTitles theme
         vpadding hpadding contentColor colorTheme = Some out).
Proof.
  intros Hd Hv. split.
  - intros out H. apply nestFrom_length in H. rewrite H. nia.
  - intros Hwf Hh Htotal Hfit. unfold nestFits in Hfit.
    apply (nestFrom_Some _ _ _ _ _ _ _ _ _ _ _ _
             (Z.max (maxLineWidth lines) (maxLineWidth boxTitles)));
      try done.
    + lia.
    + eapply Forall_impl; [apply maxLineWidth_ge |]. simpl. intros; lia.
    + rewrite Z2Nat.id by done. exact Hfit.
Qed.

(** C3, as amended: without a colour theme, the border colour and the
    title colour of layer [i] follow the rule of the specification (the
    name at position [i], else the first name, else unset), and the title
    is the one at position [i] when there is one and empty otherwise; the
    round of the loop renders its box with these. *)
Theorem layer_attributes_without_theme (rounds i : nat)
    (lines : list gostring) (depth : Z)
    (boxColors titleColors boxTitles : list gostring)
    (theme : gmap string gostring) (vpadding hpadding : Z)
    (contentColor : option Color) :
  layerBoxColor ToLower ThemeState getColorFromTheme boxColors None i
  = Some (parseColor ToLower <$> resolve boxColors i, None)
  ∧ listColor (parseColor ToLower) titleColors i
    = parseColor ToLower <$> resolve titleColors i
  ∧ layerTitle boxTitles i = default [] (boxTitles !! i)
  ∧ nestFrom (S rounds) i lines depth boxColors titleColors boxTitles theme
      vpadding hpadding contentColor None
    = lines' ← createBox NoColor resetParams lines
                 (parseColor ToLower <$> resolve boxColors i)
                 (if Z.of_nat i =? int_sub depth 1
                  then contentColor else None)
                 (default [] (boxTitles !! i))
                 (parseColor ToLower <$> resolve titleColors i)
                 theme vpadding hpadding;
      nestFrom rounds (S i) lines' depth boxColors titleColors boxTitles
        theme vpadding hpadding contentColor None.
Proof.
  split; [|split; [|split]].
  - unfold layerBoxColor. by rewrite listColor_resolve.
  - apply listColor_resolve.
  - apply layerTitle_lookup.
  - simpl. by rewrite !listColor_resolve, layerTitle_lookup.
Qed.

End NestingFacts.

(** ** The colour theme engine *)

Lemma at_index_Some (s : list Z) (i : Z) :
  0 ≤ i < Z.of_nat (length s) → ∃ c, at_index s i = Some c ∧ c ∈ s.
Proof.
  intros Hi. unfold at_index. destruct (Z.ltb_spec i 0); [lia |].
  destruct (lookup_lt_is_Some_2 s (Z.to_nat i)) as [c Hc]; [lia |].
  exists c. split; [done |]. by eapply list_elem_of_lookup_2.
Qed.

Lemma rem_range (a n : Z) : 0 ≤ a → 0 < n → 0 ≤ Z.rem a n < n.
Proof. intros Ha Hn. apply Z.rem_bound_pos; lia. Qed.

(** One pass over a palette returns one of its colours and leaves the
    cursor within the palette. *)
Lemma scanPalette_member (todo : nat) :
  ∀ (i : Z) (candidateColors : list Z) (theme : Tracking.ColorTheme),
  candidateColors ≠ [] → Z.of_nat (length candidateColors) ≤ 1000 →
  0 ≤ Tracking.colorIndex theme ≤ Z.of_nat (length candidateColors) →
  0 ≤ i → i + Z.of_nat todo ≤ 1000 →
  ∃ c theme',
    Tracking.scanPalette todo i candidateColors theme = Some (c, theme')
    ∧ c ∈ candidateColors
    ∧ Tracking.name theme' = Tracking.name theme
    ∧ 0 ≤ Tracking.colorIndex theme' ≤ Z.of_nat (length candidateColors).
Proof.
  induction todo as [|todo IH]; intros i cands theme Hne Hlen Hci Hi Hbound.
  - destruct cands as [|c0 cands]; [done |]. simpl.
    exists c0. eexists. split; [done |]. split; [by left |].
    simpl. split; [done | lia].
  - assert (Hlen0 : 0 < Z.of_nat (length cands))
      by (destruct cands; [done | simpl; lia]).
    cbn [Tracking.scanPalette].
    assert (Hadd : int_add (Tracking.colorIndex theme) i
                   = Tracking.colorIndex theme + i).
    { apply wrap_id. unfold minInt, maxInt. lia. }
    rewrite Hadd.
    assert (Hsum : 0 ≤ Tracking.colorIndex theme + i) by lia.
    pose proof (rem_range (Tracking.colorIndex theme + i)
                  (Z.of_nat (length cands)) Hsum Hlen0) as Hrem.
    destruct (at_index_Some cands _ Hrem) as (c & -> & Hc). simpl.
    destruct (Tracking.used (Tracking.usedColors theme) c); simpl.
    + assert (Hi1 : int_add i 1 = i + 1).
      { apply wrap_id. unfold minInt, maxInt. lia. }
      rewrite Hi1. apply IH; try done; lia.
    + exists c. eexists. split; [done |]. split; [done |]. simpl.
      split; [done |].
      assert (Hadd1 : int_add (Z.rem (Tracking.colorIndex theme + i)
                                 (Z.of_nat (length cands))) 1
                      = Z.rem (Tracking.colorIndex theme + i)
                          (Z.of_nat (length cands)) + 1).
      { apply wrap_id. unfold minInt, maxInt. lia. }
      rewrite Hadd1.
      assert (Hnext : 0 ≤ Z.rem (Tracking.colorIndex theme + i)
                              (Z.of_nat (length cands)) + 1) by lia.
      pose proof (rem_range _ (Z.of_nat (length cands)) Hnext Hlen0). lia.
Qed.

Lemma trans_call (fuel : nat) (theme : Tracking.ColorTheme) (index : Z)
    (src : Source) :
  Tracking.name theme = runes "trans" →
  0 ≤ Tracking.colorIndex theme ≤ 3 →
  ∃ c theme',
    Tracking.getNextColor fuel theme index src = Some (c, theme', src)
    ∧ c ∈ [51; 213; 15]
    ∧ Tracking.name theme' = runes "trans"
    ∧ 0 ≤ Tracking.colorIndex theme' ≤ 3.
Proof.
  intros Hname Hci. unfold Tracking.getNextColor. rewrite Hname.
  change (Tracking.candidateColors (runes "trans")) with [51; 213; 15].
  repeat (case_decide; [discriminate |]).
  change (length [51; 213; 15]) with 3%nat.
  change (0 <? 3)%nat with true. cbv iota.
  set (theme0 := if Z.of_nat 3
                      <=? Z.of_nat (size (Tracking.usedColors theme))
                 then Tracking.clearUsed theme else theme).
  assert (Hth0 : Tracking.name theme0 = runes "trans"
                 ∧ 0 ≤ Tracking.colorIndex theme0 ≤ 3)
    by (unfold theme0; case_match; done).
  destruct Hth0 as [Hname0 Hci0].
  destruct (scanPalette_member 3 0 [51; 213; 15] theme0)
    as (c & theme' & -> & Hc & Hn & Hi);
    [done | simpl; lia | simpl; lia | lia | lia |].
  exists c, theme'. simpl in Hi. rewrite Hn, Hname0. simpl.
  repeat split; (done || lia).
Qed.

Lemma trans_calls (fuel n : nat) :
  ∀ (i : Z) (theme : Tracking.ColorTheme) (src : Source),
  Tracking.name theme = runes "trans" →
  0 ≤ Tracking.colorIndex theme ≤ 3 →
  ∃ rs theme',
    Tracking.calls fuel n i theme src = Some (rs, theme', src)
    ∧ Forall (λ c, c ∈ [51; 213; 15]) rs.
Proof.
  induction n as [|n IH]; intros i theme src Hname Hci; simpl.
  - by exists [], theme.
  - destruct (trans_call fuel theme i src Hname Hci)
      as (c & theme' & -> & Hc & Hname' & Hci'). simpl.
    destruct (IH (i + 1) theme' src Hname' Hci') as (rs & theme'' & -> & Hrs).
    simpl. exists (c :: rs), theme''. split; [done | by constructor].
Qed.

(** C4, as amended: the trans palette is a literal list over exactly
    three colour indices, 51, 213 and 15: the list of these three in the
    tracking revision, where any number of consecutive calls on a new
    trans theme returns these only, and the five stripes 51, 213, 15, 213,
    51 in box.go, whose trans theme returns no other value either. *)
Theorem trans_palette_three_colors (src0 : Source) :
  Tracking.candidateColors (runes "trans") = [51; 213; 15]
  ∧ NoDup (Tracking.candidateColors (runes "trans"))
  ∧ (list_to_set BoxGo.transColors : gset Z)
    = list_to_set (Tracking.candidateColors (runes "trans"))
  ∧ (∀ (fuel n : nat) (i : Z) (src : Source),
       ∃ rs theme',
         Tracking.calls fuel n i
           (Tracking.newColorTheme (runes "trans") src0).1 src
         = Some (rs, theme', src)
         ∧ Forall (λ c, c ∈ Tracking.candidateColors (runes "trans")) rs)
  ∧ (∀ (theme : BoxGo.ColorTheme) (index : Z) (src : Source),
       BoxGo.name theme = runes "trans" → 0 ≤ index →
       ∃ c, BoxGo.getNextColor theme index src = Some (c, src)
            ∧ c ∈ Tracking.candidateColors (runes "trans")).
Proof.
  change (Tracking.candidateColors (runes "trans")) with [51; 213; 15].
  split; [done |].
  split; [apply (bool_decide_unpack _); by vm_compute |].
  split; [apply (bool_decide_unpack _); by vm_compute |]. split.
  - intros fuel n i src. by apply trans_calls.
  - intros theme index src Hname Hindex.
    unfold BoxGo.getNextColor. rewrite Hname.
    repeat (case_decide; [discriminate |]).
    case_decide; [|done].
    unfold BoxGo.cycle.
    destruct (at_index_Some BoxGo.transColors
                (Z.rem index (Z.of_nat (length BoxGo.transColors))))
      as (c & -> & Hc); [by apply rem_range |].
    exists c. split; [done |]. unfold BoxGo.transColors in Hc.
    rewrite !elem_of_cons in Hc. rewrite !elem_of_cons. tauto.
Qed.

(** *** The random theme *)

Lemma drawUnused_inv (fuel : nat) :
  ∀ (m : gmap Z bool) (src : Source) (c : Z) (m' : gmap Z bool)
    (src' : Source),
  Tracking.drawUnused fuel m src = Some (c, m', src') →
  Tracking.used m c = false ∧ 0 ≤ c < 216 ∧ m' = <[c := true]> m
  ∧ draws src' = draws src.
Proof.
  induction fuel as [|fuel IH]; intros m src c m' src' H; [done |].
  simpl in H.
  destruct (Tracking.used m (draws src (drawn src) `mod` 216)) eqn:Hu;
    simpl in H.
  - apply IH in H as (H1 & H2 & H3 & H4). simpl in H4.
    repeat split; (done || lia).
  - injection H as <- <- <-. repeat split; try done.
    all: apply Z.mod_pos_bound; lia.
Qed.

Lemma drawUnused_mono (fuel : nat) :
  ∀ (fuel' : nat) (m : gmap Z bool) (src : Source) r,
  (fuel ≤ fuel')%nat →
  Tracking.drawUnused fuel m src = Some r →
  Tracking.drawUnused fuel' m src = Some r.
Proof.
  induction fuel as [|fuel IH]; intros fuel' m src r Hle H; [done |].
  destruct fuel' as [|fuel']; [lia |]. simpl in *.
  destruct (Tracking.used m (draws src (drawn src) `mod` 216)); simpl in *;
    [|done].
  apply IH; [lia | done].
Qed.

(** The loop returns once the source reaches an index not yet used. *)
Lemma drawUnused_reaches (k : nat) :
  ∀ (fuel : nat) (m : gmap Z bool) (src : Source),
  Tracking.used m (draws src (drawn src + k)%nat `mod` 216) = false →
  (k < fuel)%nat →
  is_Some (Tracking.drawUnused fuel m src).
Proof.
  induction k as [|k IH]; intros fuel m src Hu Hfuel;
    (destruct fuel as [|fuel]; [lia |]); simpl.
  - rewrite Nat.add_0_r in Hu. rewrite Hu. by eexists.
  - destruct (Tracking.used m (draws src (drawn src) `mod` 216));
      simpl; [|by eexists].
    apply IH; [|lia]. simpl.
    replace (drawn src + S k)%nat with (S (drawn src + k)) in Hu by lia.
    exact Hu.
Qed.

Lemma used_tracked (returned : list Z) (theme : Tracking.ColorTheme)
    (c : Z) :
  Tracking.tracked returned theme →
  (Tracking.used (Tracking.usedColors theme) c = true ↔ c ∈ returned).
Proof.
  intros [_ [_ [_ [_ Hm]]]]. unfold Tracking.used. rewrite Hm.
  case_decide; simpl; split; (done || congruence).
Qed.

(** A call within a cycle returns an index not returned before in it. *)
Lemma random_call (fuel : nat) (returned : list Z)
    (theme theme' : Tracking.ColorTheme) (index c : Z) (src src' : Source) :
  Tracking.tracked returned theme → (length returned < 216)%nat →
  Tracking.getNextColor fuel theme index src = Some (c, theme', src') →
  (c ∉ returned) ∧ Tracking.tracked (returned ++ [c]) theme'
  ∧ draws src' = draws src.
Proof.
  intros Htr Hlen H.
  pose proof Htr as (Hname & Hnd & Hrange & Hsize & Hm).
  unfold Tracking.getNextColor in H. rewrite Hname in H.
  case_decide; [|done].
  destruct (Z.leb_spec 216 (Z.of_nat (size (Tracking.usedColors theme))))
    as [Hfull|_]; [lia |].
  destruct (Tracking.drawUnused fuel (Tracking.usedColors theme) src)
    as [[[c0 m'] src0]|] eqn:Hdraw; simpl in H; [|done].
  injection H as <- <- <-.
  apply drawUnused_inv in Hdraw as (Hu & Hc & -> & Hsrc).
  assert (Hnotin : c0 ∉ returned).
  { intros Hin. apply (used_tracked returned theme c0 Htr) in Hin.
    congruence. }
  assert (Hnone : Tracking.usedColors theme !! c0 = None).
  { rewrite Hm. by case_decide. }
  split; [done |]. split; [|done].
  unfold Tracking.tracked. simpl. split; [done |]. split.
  { apply NoDup_app. split; [done |]. split.
    - intros x Hx ->%list_elem_of_singleton. done.
    - apply NoDup_singleton. }
  split; [apply Forall_app; split; [done | by constructor] |].
  split.
  { rewrite map_size_insert_None by done. rewrite length_app, Hsize.
    simpl. lia. }
  intros x. destruct (decide (x = c0)) as [->|Hne].
  - rewrite lookup_insert_eq. rewrite decide_True; [done |].
    apply elem_of_app. right. by apply list_elem_of_singleton.
  - rewrite lookup_insert_ne by done. rewrite Hm.
    destruct (decide (x ∈ returned)) as [Hin|Hin].
    + rewrite decide_True; [done |]. apply elem_of_app. by left.
    + rewrite decide_False; [done |].
      intros [?|?%list_elem_of_singleton]%elem_of_app; done.
Qed.

Lemma calls_length (fuel n : nat) :
  ∀ (i : Z) (theme theme' : Tracking.ColorTheme) (src src' : Source)
    (rs : list Z),
  Tracking.calls fuel n i theme src = Some (rs, theme', src') →
  length rs = n.
Proof.
  induction n as [|n IH]; intros i theme theme' src src' rs H; simpl in H.
  - by injection H as <- _ _.
  - destruct (Tracking.getNextColor fuel theme i src) as [[[c th1] src1]|];
      simpl in H; [|done].
    destruct (Tracking.calls fuel n (i + 1) th1 src1)
      as [[[rest th2] src2]|] eqn:Hrest; simpl in H; [|done].
    injection H as <- _ _. simpl. f_equal. by eapply IH.
Qed.

(** The calls of a cycle, after those that returned [returned]. *)
Lemma random_calls (fuel n : nat) :
  ∀ (returned : list Z) (i : Z) (theme theme' : Tracking.ColorTheme)
    (src src' : Source) (rs : list Z),
  Tracking.tracked returned theme → (length returned + n ≤ 216)%nat →
  Tracking.calls fuel n i theme src = Some (rs, theme', src') →
  Tracking.tracked (returned ++ rs) theme'.
Proof.
  induction n as [|n IH]; intros returned i theme theme' src src' rs Htr
    Hlen H; simpl in H.
  - injection H as <- <- _. by rewrite app_nil_r.
  - destruct (Tracking.getNextColor fuel theme i src) as [[[c th1] src1]|]
      eqn:Hcall; simpl in H; [|done].
    destruct (Tracking.calls fuel n (i + 1) th1 src1)
      as [[[rest th2] src2]|] eqn:Hrest; simpl in H; [|done].
    injection H as <- <- _.
    destruct (random_call fuel returned theme th1 i c src src1 Htr)
      as (_ & Htr1 & _); [lia | done |].
    replace (returned ++ c :: rest) with ((returned ++ [c]) ++ rest)
      by by rewrite <- app_assoc.
    eapply IH; [exact Htr1 | rewrite length_app; simpl; lia | exact Hrest].
Qed.

(** A full set is cleared by the next call: the call is that on the
    cleared set. *)
Lemma random_call_cleared (fuel : nat) (theme : Tracking.ColorTheme)
    (index : Z) (src : Source) :
  Tracking.name theme = runes "random" →
  (216 ≤ size (Tracking.usedColors theme))%nat →
  Tracking.getNextColor fuel theme index src
  = Tracking.getNextColor fuel (Tracking.clearUsed theme) index src.
Proof.
  intros Hname Hfull. unfold Tracking.getNextColor.
  change (Tracking.name (Tracking.clearUsed theme))
    with (Tracking.name theme).
  rewrite Hname. case_decide; [|done].
  destruct (Z.leb_spec 216 (Z.of_nat (size (Tracking.usedColors theme))));
    [|lia].
  change (Tracking.usedColors (Tracking.clearUsed theme)) with (∅ : gmap Z bool).
  rewrite map_size_empty. done.
Qed.

Lemma tracked_fresh (theme : Tracking.ColorTheme) :
  Tracking.name theme = runes "random" →
  Tracking.usedColors theme = ∅ →
  Tracking.tracked [] theme.
Proof.
  intros Hname Hempty. unfold Tracking.tracked. rewrite Hempty.
  split; [done |]. split; [constructor |]. split; [constructor |].
  split; [by rewrite map_size_empty |].
  intros c. rewrite lookup_empty. rewrite decide_False; [done |].
  by intros ?%elem_of_nil.
Qed.

(** From the start of a cycle, the first call is one on an empty set. *)
Lemma calls_from_start (theme : Tracking.ColorTheme) :
  Tracking.name theme = runes "random" → Tracking.cycleStart theme →
  ∃ theme0,
    Tracking.tracked [] theme0
    ∧ ∀ (fuel n : nat) (i : Z) (src : Source), (0 < n)%nat →
        Tracking.calls fuel n i theme src
        = Tracking.calls fuel n i theme0 src.
Proof.
  intros Hname [Hempty|Hfull].
  - exists theme. split; [by apply tracked_fresh | done].
  - exists (Tracking.clearUsed theme). split; [by apply tracked_fresh |].
    intros fuel n i src Hn. destruct n as [|n]; [lia |]. simpl.
    by rewrite (random_call_cleared fuel theme i src Hname Hfull).
Qed.

Lemma full_cycle (rs : list Z) :
  NoDup rs → Forall (λ c, 0 ≤ c < 216) rs → length rs = 216%nat →
  rs ≡ₚ seqZ 0 216.
Proof.
  intros Hnd Hrange Hlen. apply submseteq_length_Permutation.
  - apply NoDup_submseteq; [done |]. intros x Hx. apply elem_of_seqZ.
    rewrite Forall_forall in Hrange. specialize (Hrange x Hx). lia.
  - rewrite length_seqZ, Hlen. done.
Qed.

(** While fewer than 216 indices are tracked, one of [0, 216) is free. *)
Lemma free_index (returned : list Z) :
  (length returned < 216)%nat → ∃ c, 0 ≤ c < 216 ∧ c ∉ returned.
Proof.
  intros Hlen.
  destruct (decide (Forall (λ c, c ∈ returned) (seqZ 0 216))) as [Hall|Hex].
  - assert (Hsub : seqZ 0 216 ⊆+ returned).
    { apply NoDup_submseteq; [apply NoDup_seqZ |].
      by apply Forall_forall. }
    apply submseteq_length in Hsub. rewrite length_seqZ in Hsub. lia.
  - apply not_Forall_Exists in Hex; [|apply _].
    apply Exists_exists in Hex as (c & Hc & Hnotin).
    apply elem_of_seqZ in Hc. exists c. split; [lia | done].
Qed.

Lemma getNextColor_random (fuel : nat) (theme : Tracking.ColorTheme)
    (index : Z) (src : Source) :
  Tracking.name theme = runes "random" →
  (size (Tracking.usedColors theme) < 216)%nat →
  Tracking.getNextColor fuel theme index src
  = '(color, usedColors', src') ←
      Tracking.drawUnused fuel (Tracking.usedColors theme) src;
    Some (color,
          {| Tracking.name := Tracking.name theme;
             Tracking.startColor := Tracking.startColor theme;
             Tracking.usedColors := usedColors';
             Tracking.colorIndex := Tracking.colorIndex theme |},
          src').
Proof.
  intros Hname Hsize. unfold Tracking.getNextColor. rewrite Hname.
  case_decide; [|done].
  destruct (Z.leb_spec 216 (Z.of_nat (size (Tracking.usedColors theme))));
    [lia |].
  by rewrite Hname.
Qed.

Lemma fair_draws (src src' : Source) :
  draws src' = draws src → fair src → fair src'.
Proof. unfold fair. by intros ->. Qed.

(** With a fair source and enough fuel, the calls of a cycle return. *)
Lemma random_calls_return (n : nat) :
  ∀ (returned : list Z) (i : Z) (theme : Tracking.ColorTheme)
    (src : Source),
  Tracking.tracked returned theme → (length returned + n ≤ 216)%nat →
  fair src →
  ∃ F, ∀ fuel, (F ≤ fuel)%nat →
    is_Some (Tracking.calls fuel n i theme src).
Proof.
  induction n as [|n IH]; intros returned i theme src Htr Hlen Hfair.
  - exists 0%nat. intros fuel _. simpl. by eexists.
  - pose proof Htr as (Hname & _ & _ & Hsize & _).
    destruct (free_index returned) as (c & Hc & Hfree); [lia |].
    destruct (Hfair (drawn src) c Hc) as (q & Hq & Hdraw).
    assert (Hunused :
      Tracking.used (Tracking.usedColors theme)
        (draws src (drawn src + (q - drawn src))%nat `mod` 216) = false).
    { replace (drawn src + (q - drawn src))%nat with q by lia.
      rewrite Hdraw. apply not_true_is_false.
      by rewrite (used_tracked returned theme c Htr). }
    destruct (drawUnused_reaches (q - drawn src) (S (q - drawn src))
                (Tracking.usedColors theme) src Hunused)
      as [[[c1 m1] src1] Hdraw1]; [lia |].
    set (th1 := {| Tracking.name := Tracking.name theme;
                   Tracking.startColor := Tracking.startColor theme;
                   Tracking.usedColors := m1;
                   Tracking.colorIndex := Tracking.colorIndex theme |}).
    assert (Hcall : ∀ fuel, (S (q - drawn src) ≤ fuel)%nat →
      Tracking.getNextColor fuel theme i src = Some (c1, th1, src1)).
    { intros fuel Hfuel. rewrite getNextColor_random by (done || lia).
      by rewrite (drawUnused_mono _ fuel _ _ _ Hfuel Hdraw1). }
    destruct (random_call (S (q - drawn src)) returned theme th1 i c1 src
                src1 Htr) as (_ & Htr1 & Hsrc1); [lia | by apply Hcall |].
    destruct (IH (returned ++ [c1]) (i + 1) th1 src1 Htr1)
      as [F2 HF2]; [rewrite length_app; simpl; lia | |].
    { by apply (fair_draws src). }
    exists (max (S (q - drawn src)) F2). intros fuel Hfuel. simpl.
    rewrite Hcall by lia. simpl.
    destruct (HF2 fuel) as [[[rest th2] src2] ->]; [lia |]. by eexists.
Qed.

(** C5, as amended: in the revision that tracks the returned indices, in
    a cycle of the random theme (from a new theme, or from a set that is
    full), whatever the source draws, the indices that up to 216
    consecutive calls return are pairwise distinct and lie in [0, 216);
    the set tracks exactly them, so nothing is cleared on the way; 216
    calls return every index once, and leave the set full, for the next
    call to clear. The calls return when the source is fair. The random
    theme of box.go returns each draw as it is. *)
Theorem random_cycle_distinct (theme : Tracking.ColorTheme) (src : Source) :
  Tracking.name theme = runes "random" → Tracking.cycleStart theme →
  (∀ (fuel n : nat) (i : Z) (rs : list Z) (theme' : Tracking.ColorTheme)
     (src' : Source),
     (0 < n ≤ 216)%nat →
     Tracking.calls fuel n i theme src = Some (rs, theme', src') →
     NoDup rs ∧ Forall (λ c, 0 ≤ c < 216) rs
     ∧ (∀ c, Tracking.used (Tracking.usedColors theme') c = true ↔ c ∈ rs)
     ∧ (n = 216%nat → rs ≡ₚ seqZ 0 216 ∧ Tracking.cycleStart theme'))
  ∧ (fair src →
     ∃ fuel rs theme' src',
       Tracking.calls fuel 216 0 theme src = Some (rs, theme', src'))
  ∧ (∀ (theme0 : BoxGo.ColorTheme) (index : Z),
       BoxGo.name theme0 = runes "random" →
       BoxGo.getNextColor theme0 index src = Some (Intn 216 src)).
Proof.
  intros Hname Hstart.
  destruct (calls_from_start theme Hname Hstart) as (theme0 & Htr0 & Heq).
  split; [|split].
  3: { intros th0 index Hth0. unfold BoxGo.getNextColor. rewrite Hth0.
       by case_decide. }
  - intros fuel n i rs theme' src' Hn H.
    rewrite Heq in H by lia.
    pose proof (calls_length _ _ _ _ _ _ _ _ H) as Hlen.
    apply (random_calls fuel n [] i theme0 theme' src src' rs Htr0) in H;
      [|simpl; lia].
    simpl in H. pose proof H as (_ & Hnd & Hrange & Hsize & _).
    split; [done |]. split; [done |].
    split; [intros c; by apply used_tracked |].
    intros ->. split; [by apply full_cycle |].
    right. rewrite Hsize, Hlen. done.
  - intros Hfair.
    destruct (random_calls_return 216 [] 0 theme0 src Htr0)
      as [F HF]; [simpl; lia | done |].
    destruct (HF F) as [[[rs theme'] src'] Hcalls]; [lia |].
    exists F, rs, theme', src'. rewrite Heq by lia. exact Hcalls.
Qed.

(** A cycle on a source that draws every number twice: each second draw
    collides and is drawn again, and the 216 calls return 0, ..., 215. *)
Example random_cycle_runs :
  (λ r, r.1.1) <$>
    Tracking.calls 2 216 0
      {| Tracking.name := runes "random"; Tracking.startColor := 0;
         Tracking.usedColors := ∅; Tracking.colorIndex := 0 |}
      {| draws := λ n, Z.of_nat (n / 2); drawn := 1 |}
  = Some (seqZ 0 216).
Proof. vm_compute. reflexivity. Qed.

(** The pride theme of the tracking engine: six calls return the palette
    in order, and the seventh starts it again. *)
Example pride_cycle_runs (src : Source) :
  (λ r, r.1.1) <$>
    Tracking.calls 0 7 0 (Tracking.newColorTheme (runes "pride") src).1 src
  = Some [196; 208; 226; 46; 21; 129; 196].
Proof. vm_compute. reflexivity. Qed.

(** *** The engine of box.go returns *)

Lemma cycle_Some (colors : list Z) (index : Z) :
  colors ≠ [] → 0 ≤ index → is_Some (BoxGo.cycle colors index).
Proof.
  intros Hne Hindex. unfold BoxGo.cycle.
  destruct (at_index_Some colors (Z.rem index (Z.of_nat (length colors))))
    as (c & -> & _); [|by eexists].
  apply rem_range; [done |]. destruct colors; [done | simpl; lia].
Qed.

Lemma BoxGo_getColorFromTheme_Some (st : BoxGo.ColorTheme * Source)
    (j : nat) :
  is_Some (BoxGo.getColorFromTheme st (Z.of_nat j)).
Proof.
  unfold BoxGo.getColorFromTheme, BoxGo.getNextColor.
  repeat (case_decide; [try by eexists |]); try by eexists.
  all: match goal with
       | |- context [BoxGo.cycle ?colors ?index] =>
           destruct (cycle_Some colors index) as [c ->];
             [done | lia | by eexists]
       end.
Qed.

(** The source that draws 0, 1, 2, ... is fair. *)
Lemma counting_source_fair (drawn0 : nat) :
  fair {| draws := λ n, Z.of_nat n; drawn := drawn0 |}.
Proof.
  intros p c Hc. exists (216 * p + Z.to_nat c)%nat. split; [lia |].
  cbn [draws].
  replace (Z.of_nat (216 * p + Z.to_nat c)) with (c + Z.of_nat p * 216)
    by lia.
  rewrite Z.mod_add by lia. apply Z.mod_small. lia.
Qed.

(** ** The order of the layers *)

(** C1 (code defect): [createNestedBoxes] asks the engine for index 0 in
    its first round, and the box of the first round is the one around the
    raw lines, the innermost; the box of the last round, that of index
    [depth-1], encloses the others. Here for two layers and the rainbow
    theme, over the engine of box.go and over the tracking engine: the
    colour of index 0 paints the inner box, that of index 1 the outer. *)
Theorem theme_index_zero_paints_innermost (NoColor : bool)
    (resetParams : list Z → list Z) (ToLower : gostring → gostring)
    (fuel : nat) (start : Z) (src : Source) (lines : list gostring) :
  createNestedBoxes NoColor resetParams ToLower _ BoxGo.getColorFromTheme
    lines 2 [] [] [] themeAscii 0 0 None
    (Some ({| BoxGo.name := runes "rainbow"; BoxGo.startColor := start |},
           src))
  = (inner ← createBox NoColor resetParams lines (Some (New [38; 5; 0]))
               None [] None themeAscii 0 0;
     createBox NoColor resetParams inner (Some (New [38; 5; 1])) None
       [] None themeAscii 0 0)
  ∧ createNestedBoxes NoColor resetParams ToLower _
      (Tracking.getColorFromTheme fuel)
      lines 2 [] [] [] themeAscii 0 0 None
      (Some ({| Tracking.name := runes "rainbow";
                Tracking.startColor := start;
                Tracking.usedColors := ∅;
                Tracking.colorIndex := 0 |}, src))
    = (inner ← createBox NoColor resetParams lines (Some (New [38; 5; 0]))
                 None [] None themeAscii 0 0;
       createBox NoColor resetParams inner (Some (New [38; 5; 1])) None
         [] None themeAscii 0 0).
Proof.
  split; unfold createNestedBoxes; simpl.
  - destruct (createBox _ _ lines _ _ _ _ _ _ _) as [inner|]; simpl; [|done].
    by destruct (createBox _ _ inner _ _ _ _ _ _ _).
  - destruct (createBox _ _ lines _ _ _ _ _ _ _) as [inner|]; simpl; [|done].
    by destruct (createBox _ _ inner _ _ _ _ _ _ _).
Qed.

(** The two layers of the rainbow theme around ["x"], as printed: the
    outer border carries the parameters [38;5;1], the inner [38;5;0]. *)
Example nested_rainbow_x (ToLower : gostring → gostring) (src : Source) :
  createNestedBoxes false (λ _, [0]) ToLower _ BoxGo.getColorFromTheme
    [runes "x"] 2 [] [] [] themeAscii 0 0 None
    (Some ({| BoxGo.name := runes "rainbow"; BoxGo.startColor := 0 |}, src))
  = (let outer := Sprint false (λ _, [0]) (New [38; 5; 1]) in
     let inner := Sprint false (λ _, [0]) (New [38; 5; 0]) in
     Some [outer (runes "+") ++ outer (runes "---") ++ outer (runes "+");
           outer (runes "|")
             ++ inner (runes "+") ++ inner (runes "-") ++ inner (runes "+")
             ++ outer (runes "|");
           outer (runes "|")
             ++ inner (runes "|") ++ runes "x" ++ inner (runes "|")
             ++ outer (runes "|");
           outer (runes "|")
             ++ inner (runes "+") ++ inner (runes "-") ++ inner (runes "+")
             ++ outer (runes "|");
           outer (runes "+") ++ outer (runes "---") ++ outer (runes "+")]).
Proof. vm_compute. reflexivity. Qed.

(** C2 (code defect): the content colour goes to the round of index
    [depth-1], whose lines are the rendered lines of the inner boxes: with
    two layers the raw lines are rendered with no content colour, and the
    colour paints the three lines of the inner box. In the first revision
    every layer is rendered with the content colour. *)
Theorem content_color_paints_outer_layer (NoColor : bool)
    (resetParams : list Z → list Z) (ToLower : gostring → gostring)
    (ThemeState : Type)
    (getColorFromTheme : ThemeState → Z → option (Color * ThemeState))
    (c : Color) (lines : list gostring) :
  createNestedBoxes NoColor resetParams ToLower ThemeState getColorFromTheme
    lines 2 [] [] [] themeAscii 0 0 (Some c) None
  = (inner ← createBox NoColor resetParams lines None None [] None
               themeAscii 0 0;
     createBox NoColor resetParams inner None (Some c) [] None
       themeAscii 0 0)
  ∧ FirstPort.createNestedBoxes NoColor resetParams ToLower
      lines 2 [] [] [] themeAscii 0 0 (Some c)
    = (inner ← createBox NoColor resetParams lines None (Some c) [] None
                 themeAscii 0 0;
       createBox NoColor resetParams inner None (Some c) [] None
         themeAscii 0 0).
Proof.
  split.
  - unfold createNestedBoxes. simpl.
    destruct (createBox _ _ lines _ _ _ _ _ _ _) as [inner|]; simpl; [|done].
    by destruct (createBox _ _ inner _ _ _ _ _ _ _).
  - unfold FirstPort.createNestedBoxes.
    change (Z.to_nat (int_sub 2 1 + 1)) with 2%nat. simpl.
    destruct (createBox _ _ lines _ _ _ _ _ _ _) as [inner|]; simpl; [|done].
    by destruct (createBox _ _ inner _ _ _ _ _ _ _).
Qed.

(** The content colour red around ["x"] in two layers, as printed: the
    colour wraps the lines of the inner box, borders included. *)
Example nested_red_x (ToLower : gostring → gostring) :
  createNestedBoxes false (λ _, [0]) ToLower _ BoxGo.getColorFromTheme
    [runes "x"] 2 [] [] [] themeAscii 0 0 (Some (New [FgRed])) None
  = (let red := Sprint false (λ _, [0]) (New [FgRed]) in
     Some [runes "+---+";
           runes "|" ++ red (runes "+-+") ++ runes "|";
           runes "|" ++ red (runes "|x|") ++ runes "|";
           runes "|" ++ red (runes "+-+") ++ runes "|";
           runes "+---+"]).
Proof. vm_compute. reflexivity. Qed.

(** ** Counterexamples to the claims as they are stated *)

(** C3 as stated fails on the title: a list of one title gives layer 1
    the empty title, not the first element. *)
Lemma layerTitle_no_fallback :
  layerTitle [runes "A"] 1 = []
  ∧ resolve [runes "A"] 1 = Some (runes "A")
  ∧ createNestedBoxes false (λ _, [0]) (λ s, s) _ BoxGo.getColorFromTheme
      [runes "x"] 2 [] [] [runes "A"] themeAscii 0 0 None None
    = Some [runes "+---+"; runes "|+A+|"; runes "||x||"; runes "|+-+|";
            runes "+---+"].
Proof. vm_compute. done. Qed.

(** C4 as stated fails on box.go, whose literal has five entries, one
    for each stripe of the flag. *)
Lemma trans_palette_five_stripes :
  BoxGo.transColors = [51; 213; 15; 213; 51]
  ∧ length BoxGo.transColors = 5%nat.
Proof. split; reflexivity. Qed.

(** C5 as stated fails on box.go, whose random theme does not track what
    it returned: when the source draws the same number twice, two
    consecutive calls return the same index. *)
Lemma random_repeats_in_box_go :
  BoxGo.getNextColor {| BoxGo.name := runes "random"; BoxGo.startColor := 0 |}
    0 {| draws := λ _, 7; drawn := 1 |}
  = Some (7, {| draws := λ _, 7; drawn := 2 |})
  ∧ BoxGo.getNextColor
      {| BoxGo.name := runes "random"; BoxGo.startColor := 0 |}
      1 {| draws := λ _, 7; drawn := 2 |}
    = Some (7, {| draws := λ _, 7; drawn := 3 |}).
Proof. split; reflexivity. Qed.

(** C6 as stated fails on a line that ends inside an escape sequence: the
    border glyph after it is swallowed by [stripAnsi], and the content
    line measures 2 where the borders measure 3. *)
Lemma createBox_open_escape_width :
  createBox false (λ _, [0]) [runes "a" ++ [27]] None None [] None
    themeAscii 0 0
  = Some [runes "+-+"; runes "|a" ++ [27] ++ runes "|"; runes "+-+"]
  ∧ innerWidth [runes "a" ++ [27]] [] 0 + 2 = 3
  ∧ displayWidth (runes "+-+") = 3
  ∧ displayWidth (runes "|a" ++ [27] ++ runes "|") = 2.
Proof. vm_compute. done. Qed.

(** C8 as stated fails on a line that ends in a space: two inputs have
    the same plain box, so no inverse gives both back. *)
Lemma plain_box_trailing_space :
  createBox false (λ _, [0]) [runes "a "; runes "ab"] None None [] None
    themePlain 0 0
  = Some [runes "    "; runes " a  "; runes " ab "; runes "    "]
  ∧ createBox false (λ _, [0]) [runes "a"; runes "ab"] None None [] None
      themePlain 0 0
    = Some [runes "    "; runes " a  "; runes " ab "; runes "    "]
  ∧ unbox [runes "    "; runes " a  "; runes " ab "; runes "    "]
    = [runes "a"; runes "ab"].
Proof. vm_compute. done. Qed.


(** ** The theorems at concrete inputs *)

(** A titled, coloured unicode box around a plain and a coloured line. *)
Lemma createBox_uniform_width_witness :
  ∃ box,
    createBox false (λ _, [0])
      [runes "hi"; [27; 91; 51; 49; 109] ++ runes "red" ++ [27; 91; 48; 109]]
      (Some (New [FgBlue])) (Some (New [FgRed])) (runes "T")
      (Some (New [FgGreen])) themeUnicode 1 2 = Some box
    ∧ Forall (λ l, displayWidth l
                   = innerWidth
                       [runes "hi";
                        [27; 91; 51; 49; 109] ++ runes "red"
                          ++ [27; 91; 48; 109]] (runes "T") 2 + 2) box.
Proof.
  apply (createBox_uniform_width false (λ _, [0])).
  - reflexivity.
  - lia.
  - unfold boxFits. vm_compute. discriminate.
  - repeat constructor.
  - reflexivity.
Defined.


(** Lines with a leading space and an empty line come back. *)
Lemma plain_box_roundtrip_witness :
  ∃ box,
    createBox false (λ _, [0]) [runes "ab"; runes " c"; []] None None []
      None themePlain 0 0 = Some box
    ∧ unbox box = [runes "ab"; runes " c"; []].
Proof.
  apply (plain_box_roundtrip false (λ _, [0])).
  - repeat constructor; discriminate.
  - vm_compute. discriminate.
Defined.

(** Three layers of the pride theme around two lines: 2 + 2*3*2 lines. *)
Lemma createNestedBoxes_line_count_witness :
  (∀ out,
     createNestedBoxes false (λ _, [0]) (λ s, s) _ BoxGo.getColorFromTheme
       [runes "a"; runes "b"] 3 [] [] [runes "T"] themeAscii 1 2 None
       (Some ({| BoxGo.name := runes "pride"; BoxGo.startColor := 0 |},
              {| draws := λ n, Z.of_nat n; drawn := 1 |}))
     = Some out →
     Z.of_nat (length out)
     = Z.of_nat (length [runes "a"; runes "b"]) + 2 * 3 * (1 + 1))
  ∧ ∃ out,
      createNestedBoxes false (λ _, [0]) (λ s, s) _ BoxGo.getColorFromTheme
        [runes "a"; runes "b"] 3 [] [] [runes "T"] themeAscii 1 2 None
        (Some ({| BoxGo.name := runes "pride"; BoxGo.startColor := 0 |},
               {| draws := λ n, Z.of_nat n; drawn := 1 |}))
      = Some out.
Proof.
  destruct (createNestedBoxes_line_count false (λ _, [0]) (λ s, s) _
              BoxGo.getColorFromTheme [runes "a"; runes "b"] 3 [] []
              [runes "T"] themeAscii 1 2 None
              (Some ({| BoxGo.name := runes "pride";
                        BoxGo.startColor := 0 |},
                     {| draws := λ n, Z.of_nat n; drawn := 1 |})))
    as [Hcount Hout]; [lia | lia |].
  split; [exact Hcount |]. apply Hout.
  - reflexivity.
  - lia.
  - right. apply BoxGo_getColorFromTheme_Some.
  - unfold nestFits. vm_compute. discriminate.
Defined.

(** A new random theme on the source that draws 0, 1, 2, ... *)
Lemma random_cycle_distinct_witness :
  (∀ (fuel n : nat) (i : Z) (rs : list Z) (theme' : Tracking.ColorTheme)
     (src' : Source),
     (0 < n ≤ 216)%nat →
     Tracking.calls fuel n i
       {| Tracking.name := runes "random"; Tracking.startColor := 5;
          Tracking.usedColors := ∅; Tracking.colorIndex := 0 |}
       {| draws := λ n, Z.of_nat n; drawn := 1 |}
     = Some (rs, theme', src') →
     NoDup rs ∧ Forall (λ c, 0 ≤ c < 216) rs
     ∧ (∀ c, Tracking.used (Tracking.usedColors theme') c = true ↔ c ∈ rs)
     ∧ (n = 216%nat → rs ≡ₚ seqZ 0 216 ∧ Tracking.cycleStart theme'))
  ∧ (∃ fuel rs theme' src',
       Tracking.calls fuel 216 0
         {| Tracking.name := runes "random"; Tracking.startColor := 5;
            Tracking.usedColors := ∅; Tracking.colorIndex := 0 |}
         {| draws := λ n, Z.of_nat n; drawn := 1 |}
       = Some (rs, theme', src'))
  ∧ (∀ (theme0 : BoxGo.ColorTheme) (index : Z),
       BoxGo.name theme0 = runes "random" →
       BoxGo.getNextColor theme0 index
         {| draws := λ n, Z.of_nat n; drawn := 1 |}
       = Some (Intn 216 {| draws := λ n, Z.of_nat n; drawn := 1 |})).
Proof.
  destruct (random_cycle_distinct
              {| Tracking.name := runes "random"; Tracking.startColor := 5;
                 Tracking.usedColors := ∅; Tracking.colorIndex := 0 |}
              {| draws := λ n, Z.of_nat n; drawn := 1 |})
    as (Hsafe & Hlive & Hboxgo); [reflexivity | left; reflexivity |].
  split; [exact Hsafe |]. split; [|exact Hboxgo].
  apply Hlive. apply counting_source_fair.
Defined.

(** * Further properties of the code *)

(** ** The width measure (box.go:156-185) *)

(** X1: [stripAnsi] leaves a string of valid UTF-8 as it is exactly when
    the string holds no escape character. *)
Theorem stripAnsi_unchanged_iff (s : gostring) :
  ValidString s → (stripAnsi s = s ↔ Forall (λ r, r ≠ 27) s).
Proof.
  intros _. split.
  - intros H. rewrite <- H. apply stripAnsiFrom_no_escape.
  - intros H. by apply stripAnsiFrom_plain.
Qed.

(** A word with an accent, plain and coloured. *)
Lemma stripAnsi_unchanged_iff_witness :
  (stripAnsi ([104; 233; 108; 108; 111]) = [104; 233; 108; 108; 111]
   ↔ Forall (λ r, r ≠ 27) ([104; 233; 108; 108; 111]))
  ∧ (stripAnsi ([27; 91; 51; 49; 109] ++ [104; 233])
     = [27; 91; 51; 49; 109] ++ [104; 233]
     ↔ Forall (λ r, r ≠ 27) ([27; 91; 51; 49; 109] ++ [104; 233])).
Proof.
  split; apply stripAnsi_unchanged_iff; repeat constructor.
Defined.

Lemma byteLen_sublist (l1 l2 : gostring) :
  l1 `sublist_of` l2 → byteLen l1 ≤ byteLen l2.
Proof.
  induction 1 as [|r l1 l2 _ IH|r l1 l2 _ IH]; simpl; [done | lia |].
  assert (0 ≤ runeLen r) by (unfold runeLen; repeat case_match; lia). lia.
Qed.

(** X2: on a string of valid UTF-8 [stripAnsi] only deletes: what it
    returns is a subsequence of the code points of its argument, whatever
    the state of the loop, so it is valid UTF-8 again and no longer than
    the argument, in code points and in bytes. *)
Theorem stripAnsi_deletes_only (b : bool) (s : gostring) :
  ValidString s →
  stripAnsiFrom b s `sublist_of` s
  ∧ ValidString (stripAnsiFrom b s)
  ∧ (length (stripAnsiFrom b s) ≤ length s)%nat
  ∧ byteLen (stripAnsiFrom b s) ≤ byteLen s.
Proof.
  intros Hvalid.
  assert (H : stripAnsiFrom b s `sublist_of` s).
  { clear Hvalid. revert b.
    induction s as [|r s IH]; intros b; simpl; [constructor |].
    destruct (r =? 27); [apply sublist_cons, IH |].
    destruct b; [destruct (isLetter r); apply sublist_cons, IH |].
    apply sublist_skip, IH. }
  split; [exact H |]. split; [|split].
  - unfold ValidString in *. rewrite Forall_forall in *.
    intros r Hr. apply Hvalid. by eapply elem_of_sublist.
  - by apply sublist_length.
  - by apply byteLen_sublist.
Qed.

(** A coloured word with an accent, from outside an escape sequence. *)
Lemma stripAnsi_deletes_only_witness :
  stripAnsiFrom false ([27; 91; 51; 49; 109] ++ [233] ++ [27; 91; 48; 109])
    `sublist_of` [27; 91; 51; 49; 109] ++ [233] ++ [27; 91; 48; 109]
  ∧ ValidString
      (stripAnsiFrom false
         ([27; 91; 51; 49; 109] ++ [233] ++ [27; 91; 48; 109]))
  ∧ le (length
          (stripAnsiFrom false
             ([27; 91; 51; 49; 109] ++ [233] ++ [27; 91; 48; 109])))
       (length ([27; 91; 51; 49; 109] ++ [233] ++ [27; 91; 48; 109]))
  ∧ byteLen
      (stripAnsiFrom false
         ([27; 91; 51; 49; 109] ++ [233] ++ [27; 91; 48; 109]))
    ≤ byteLen ([27; 91; 51; 49; 109] ++ [233] ++ [27; 91; 48; 109]).
Proof.
  apply stripAnsi_deletes_only. repeat constructor.
Defined.

Lemma maxLineWidth_same_widths (l1 l2 : list gostring) :
  Forall2 (λ a b, displayWidth a = displayWidth b) l1 l2 →
  maxLineWidth l1 = maxLineWidth l2.
Proof.
  intros H. unfold maxLineWidth. generalize 0.
  induction H as [|a b l1 l2 Hab _ IH]; intros acc; [done |].
  simpl. unfold displayWidth in Hab. rewrite Hab. apply IH.
Qed.

(** X3: colouring the lines does not change their measure: the sequences
    that [Sprint] adds are the ones [stripAnsi] removes, so a box can be
    measured after it was painted (as the nesting loop does). *)
Theorem maxLineWidth_painted (NoColor : bool)
    (resetParams : list Z → list Z) (c : option Color)
    (lines : list gostring) :
  Forall (λ line, stripAnsi (paint NoColor resetParams c line)
                  = stripAnsi line) lines
  ∧ maxLineWidth (paint NoColor resetParams c <$> lines)
    = maxLineWidth lines.
Proof.
  split.
  - apply Forall_forall. intros line _. apply stripAnsi_paint.
  - apply maxLineWidth_same_widths. apply Forall2_fmap_l.
    apply Forall_Forall2_diag, Forall_forall. intros line _.
    apply displayWidth_paint.
Qed.

Lemma maxLineWidth_attained (lines : list gostring) :
  lines ≠ [] → (∀ l, l ∈ lines → displayWidth l < maxLineWidth lines) → False.
Proof.
  intros Hne Hlt.
  assert (Hle : maxLineWidth lines ≤ maxLineWidth lines - 1).
  { destruct lines as [|l0 lines]; [done |].
    pose proof (Hlt l0 ltac:(left)) as H0.
    pose proof (displayWidth_nonneg l0).
    apply maxLineWidth_le; [lia |].
    apply Forall_forall. intros l Hl. specialize (Hlt l Hl). lia. }
  lia.
Qed.

(** X4: [maxLineWidth] is the greatest stripped width of the lines: no
    line is wider, some line is that wide, and the empty list measures
    0 (as does a list of empty lines). *)
Theorem maxLineWidth_greatest (lines : list gostring) :
  Forall (λ l, displayWidth l ≤ maxLineWidth lines) lines
  ∧ 0 ≤ maxLineWidth lines
  ∧ (lines = [] ∨ ∃ l, l ∈ lines ∧ displayWidth l = maxLineWidth lines).
Proof.
  split; [apply maxLineWidth_ge |]. split; [apply maxLineWidth_nonneg |].
  destruct lines as [|l0 lines]; [by left | right].
  destruct (decide (Exists (λ l, displayWidth l = maxLineWidth (l0 :: lines))
                      (l0 :: lines))) as [Hex|Hno].
  - apply Exists_exists in Hex as (l & Hl & Heq). by exists l.
  - exfalso. apply (maxLineWidth_attained (l0 :: lines)); [done |].
    intros l Hl.
    pose proof (maxLineWidth_ge (l0 :: lines)) as Hge.
    rewrite Forall_forall in Hge. specialize (Hge l Hl).
    assert (displayWidth l ≠ maxLineWidth (l0 :: lines)); [|lia].
    intros Heq. apply Hno. apply Exists_exists. by exists l.
Qed.

(** ** The layout of a box (box.go:187-262) *)

Lemma mapM_explicit {A B} (f : A → option B) (g : A → B) (l : list A) :
  Forall (λ x, f x = Some (g x)) l → mapM f l = Some (g <$> l).
Proof.
  induction 1 as [|x l Hx _ IH]; [done |]. simpl. by rewrite Hx, IH.
Qed.

Lemma stripAnsi_app_closed (x y : gostring) :
  closed x → stripAnsi (x ++ y) = stripAnsi x ++ stripAnsi y.
Proof.
  unfold closed, stripAnsi. intros Hx. by rewrite stripAnsiFrom_app, Hx.
Qed.

Lemma stripAnsi_stripped (s : gostring) : stripAnsi (stripAnsi s) = stripAnsi s.
Proof. apply stripAnsiFrom_plain, stripAnsiFrom_no_escape. Qed.

Lemma closed_stripped (s : gostring) : closed (stripAnsi s).
Proof. apply closed_plain, stripAnsiFrom_no_escape. Qed.

Lemma displayWidth_stripped (s : gostring) :
  displayWidth (stripAnsi s) = displayWidth s.
Proof. unfold displayWidth. by rewrite stripAnsi_stripped. Qed.

Lemma maxLineWidth_stripped (lines : list gostring) :
  maxLineWidth (stripAnsi <$> lines) = maxLineWidth lines.
Proof.
  apply maxLineWidth_same_widths, Forall2_fmap_l, Forall_Forall2_diag,
    Forall_forall. intros line _. apply displayWidth_stripped.
Qed.

(** [count] copies of [s], as [strings.Repeat] returns them. *)
Lemma Repeat_copies_plain (s : gostring) (n : nat) :
  Forall (λ r, r ≠ 27) s → Forall (λ r, r ≠ 27) (mjoin (replicate n s)).
Proof.
  intros Hs. induction n as [|n IH]; simpl; [constructor |].
  by apply Forall_app.
Qed.

Section LayoutFacts.
Variable NoColor : bool.
Variable resetParams : list Z → list Z.

Local Abbreviation paint := (paint NoColor resetParams).
Local Abbreviation createBox := (createBox NoColor resetParams).
Local Abbreviation topLine := (topLine NoColor resetParams).
Local Abbreviation bottomLine := (bottomLine NoColor resetParams).
Local Abbreviation paddingLine := (paddingLine NoColor resetParams).
Local Abbreviation contentLine := (contentLine NoColor resetParams).

Lemma glyph_plain (theme : gmap string gostring) (k : string) :
  wf_theme theme = true →
  k ∈ ["WE"; "NS"; "NW"; "NE"; "SW"; "SE"]%string →
  Forall (λ r, r ≠ 27) (glyph theme k).
Proof.
  intros Hwf Hk. destruct (wf_theme_glyph theme k Hwf Hk) as (r & -> & Hr).
  by constructor.
Qed.

Lemma stripAnsi_painted_plain (c : option Color) (s : gostring) :
  Forall (λ r, r ≠ 27) s →
  stripAnsi (paint c s) = s ∧ closed (paint c s).
Proof.
  intros Hs. split.
  - rewrite stripAnsi_paint. by apply stripAnsiFrom_plain.
  - apply closed_paint. by apply closed_plain.
Qed.

(** The lines of a box, written out. *)
Lemma paddingLine_eq (boxColor : option Color)
    (theme : gmap string gostring) (W : Z) :
  0 ≤ W → W ≤ maxInt →
  paddingLine boxColor theme W
  = Some (paint boxColor (glyph theme "NS") ++ replicate (Z.to_nat W) 32
            ++ paint boxColor (glyph theme "NS")).
Proof.
  intros H0 HW. unfold paddingLine. by rewrite Repeat_spaces.
Qed.

Lemma bottomLine_eq (boxColor : option Color)
    (theme : gmap string gostring) (W : Z) :
  0 ≤ W → byteLen (glyph theme "WE") * W ≤ maxInt →
  bottomLine boxColor theme W
  = Some (paint boxColor (glyph theme "SW")
            ++ paint boxColor
                 (mjoin (replicate (Z.to_nat W) (glyph theme "WE")))
            ++ paint boxColor (glyph theme "SE")).
Proof.
  intros H0 HW. unfold bottomLine, repeatChar. by rewrite Repeat_Some.
Qed.

Lemma topLine_eq (boxColor : option Color) (boxTitle : gostring)
    (titleColor : option Color) (theme : gmap string gostring) (W : Z) :
  0 ≤ W → byteLen (glyph theme "WE") * W ≤ maxInt → W ≤ maxInt →
  displayWidth boxTitle ≤ W →
  topLine boxColor boxTitle titleColor theme W
  = Some (paint boxColor (glyph theme "NW")
            ++ match boxTitle with
               | [] => []
               | _ => paint titleColor boxTitle
               end
            ++ paint boxColor
                 (mjoin (replicate (Z.to_nat (W - displayWidth boxTitle))
                           (glyph theme "WE")))
            ++ paint boxColor (glyph theme "NE")).
Proof.
  intros H0 Hfit HW Ht.
  pose proof (displayWidth_nonneg boxTitle) as Ht0.
  pose proof (byteLen_nonneg (glyph theme "WE")) as Hb0.
  unfold topLine, repeatChar. destruct boxTitle as [|t0 title] eqn:E.
  - rewrite Repeat_Some by done. change (displayWidth []) with 0.
    by rewrite Z.sub_0_r.
  - rewrite <- E in *. fold (displayWidth boxTitle).
    unfold int_sub. rewrite wrap_id by (unfold minInt, maxInt in *; lia).
    rewrite Repeat_Some by nia. done.
Qed.

Lemma contentLine_eq (boxColor contentColor : option Color)
    (theme : gmap string gostring) (W hpadding : Z) (line : gostring) :
  0 ≤ hpadding → W ≤ maxInt → displayWidth line + 2 * hpadding ≤ W →
  contentLine boxColor contentColor theme W hpadding line
  = Some (paint boxColor (glyph theme "NS")
            ++ replicate (Z.to_nat hpadding) 32
            ++ paint contentColor line
            ++ replicate (Z.to_nat hpadding) 32
            ++ replicate (Z.to_nat (W - displayWidth line - 2 * hpadding)) 32
            ++ paint boxColor (glyph theme "NS")).
Proof.
  intros Hh HW Hline. pose proof (displayWidth_nonneg line) as Hl0.
  unfold contentLine. fold (displayWidth line). unfold int_sub, int_mul.
  rewrite (wrap_id (2 * hpadding)), (wrap_id (W - displayWidth line)),
    wrap_id by (unfold minInt, maxInt in *; lia).
  by rewrite !Repeat_spaces by lia.
Qed.

(** The box, written out, when the sizes fit. *)
Lemma createBox_eq (lines : list gostring)
    (boxColor contentColor : option Color) (boxTitle : gostring)
    (titleColor : option Color) (theme : gmap string gostring)
    (vpadding hpadding : Z) :
  0 ≤ hpadding → boxFits theme lines boxTitle hpadding →
  createBox lines boxColor contentColor boxTitle titleColor theme
    vpadding hpadding
  = (let W := innerWidth lines boxTitle hpadding in
     let pad := paint boxColor (glyph theme "NS")
                  ++ replicate (Z.to_nat W) 32
                  ++ paint boxColor (glyph theme "NS") in
     Some ([paint boxColor (glyph theme "NW")
              ++ match boxTitle with
                 | [] => []
                 | _ => paint titleColor boxTitle
                 end
              ++ paint boxColor
                   (mjoin (replicate (Z.to_nat (W - displayWidth boxTitle))
                             (glyph theme "WE")))
              ++ paint boxColor (glyph theme "NE")]
           ++ replicate (Z.to_nat vpadding) pad
           ++ ((λ line,
                  paint boxColor (glyph theme "NS")
                    ++ replicate (Z.to_nat hpadding) 32
                    ++ paint contentColor line
                    ++ replicate (Z.to_nat hpadding) 32
                    ++ replicate
                         (Z.to_nat (W - displayWidth line - 2 * hpadding)) 32
                    ++ paint boxColor (glyph theme "NS")) <$> lines)
           ++ replicate (Z.to_nat vpadding) pad
           ++ [paint boxColor (glyph theme "SW")
                 ++ paint boxColor
                      (mjoin (replicate (Z.to_nat W) (glyph theme "WE")))
                 ++ paint boxColor (glyph theme "SE")])).
Proof.
  intros Hh Hfit.
  destruct (innerWidth_bounds theme lines boxTitle hpadding Hh Hfit)
    as (H1 & H2 & H3 & H4 & H5).
  pose proof (maxLineWidth_nonneg lines) as Hm.
  cbv zeta. unfold createBox.
  set (W := innerWidth lines boxTitle hpadding) in *.
  assert (HW0 : 0 ≤ W) by lia.
  rewrite topLine_eq, (times_Some _ _ _ (paddingLine_eq boxColor theme W
                                           HW0 H4)) by done.
  rewrite (mapM_explicit _ (λ line,
             paint boxColor (glyph theme "NS")
               ++ replicate (Z.to_nat hpadding) 32
               ++ paint contentColor line
               ++ replicate (Z.to_nat hpadding) 32
               ++ replicate
                    (Z.to_nat (W - displayWidth line - 2 * hpadding)) 32
               ++ paint boxColor (glyph theme "NS"))).
  - by rewrite bottomLine_eq.
  - eapply Forall_impl; [apply maxLineWidth_ge |]. simpl.
    intros line Hline. apply contentLine_eq; lia.
Qed.

Lemma strip_piece_plain (c : option Color) (s rest : gostring) :
  Forall (λ r, r ≠ 27) s →
  stripAnsi (paint c s ++ rest) = s ++ stripAnsi rest.
Proof.
  intros Hs. destruct (stripAnsi_painted_plain c s Hs) as [Heq Hc].
  by rewrite stripAnsi_app_closed, Heq.
Qed.

Lemma strip_raw_plain (s rest : gostring) :
  Forall (λ r, r ≠ 27) s → stripAnsi (s ++ rest) = s ++ stripAnsi rest.
Proof. apply (strip_piece_plain None). Qed.

Lemma strip_piece_text (c : option Color) (s rest : gostring) :
  closed s → stripAnsi (paint c s ++ rest) = stripAnsi s ++ stripAnsi rest.
Proof.
  intros Hs. rewrite stripAnsi_app_closed by by apply closed_paint.
  by rewrite stripAnsi_paint.
Qed.

Lemma innerWidth_stripped (theme : gmap string gostring)
    (lines : list gostring) (boxTitle : gostring) (hpadding : Z) :
  0 ≤ hpadding → boxFits theme lines boxTitle hpadding →
  innerWidth (stripAnsi <$> lines) (stripAnsi boxTitle) hpadding
  = innerWidth lines boxTitle hpadding.
Proof.
  intros Hh Hfit.
  destruct (innerWidth_bounds theme lines boxTitle hpadding Hh Hfit)
    as (H1 & H2 & H3 & H4 & H5).
  pose proof (maxLineWidth_nonneg lines) as Hm.
  pose proof (displayWidth_nonneg boxTitle) as Ht.
  assert (Hsum : int_add (maxLineWidth lines) (int_mul 2 hpadding)
                 = maxLineWidth lines + 2 * hpadding).
  { unfold int_add, int_mul. rewrite (wrap_id (2 * hpadding));
      [apply wrap_id |]; unfold minInt, maxInt in *; lia. }
  unfold innerWidth. rewrite maxLineWidth_stripped, Hsum.
  fold (displayWidth (stripAnsi boxTitle)). fold (displayWidth boxTitle).
  rewrite displayWidth_stripped.
  destruct boxTitle as [|t0 title] eqn:E; [done |]. rewrite <- E in *.
  destruct (stripAnsi boxTitle) as [|s0 stripped] eqn:Es; [|done].
  assert (Hz : displayWidth boxTitle = 0)
    by (unfold displayWidth; by rewrite Es).
  rewrite Hz. by destruct (Z.gtb_spec 0 (maxLineWidth lines + 2 * hpadding));
    [lia |].
Qed.

(** X5: colours and escape sequences do not touch the layout. When the
    lines and the title leave no escape sequence open, stripping every
    line of the box gives the box that [createBox] draws, with no colour,
    around the stripped lines under the stripped title. *)
Theorem createBox_layout_ignores_colors (lines : list gostring)
    (boxColor contentColor : option Color) (boxTitle : gostring)
    (titleColor : option Color) (theme : gmap string gostring)
    (vpadding hpadding : Z) :
  wf_theme theme = true → 0 ≤ hpadding →
  boxFits theme lines boxTitle hpadding →
  Forall closed lines → closed boxTitle →
  (λ box : list gostring, stripAnsi <$> box) <$>
    createBox lines boxColor contentColor boxTitle titleColor theme
      vpadding hpadding
  = createBox (stripAnsi <$> lines) None None (stripAnsi boxTitle) None
      theme vpadding hpadding.
Proof.
  intros Hwf Hh Hfit Hlines Htitle.
  assert (Hfit' : boxFits theme (stripAnsi <$> lines) (stripAnsi boxTitle)
                    hpadding).
  { unfold boxFits in *.
    by rewrite maxLineWidth_stripped, displayWidth_stripped. }
  rewrite !createBox_eq by done. cbv zeta.
  rewrite (innerWidth_stripped theme) by done.
  rewrite displayWidth_stripped.
  set (W := innerWidth lines boxTitle hpadding).
  pose proof (glyph_plain theme "WE" Hwf ltac:(set_solver)) as Hwe.
  pose proof (glyph_plain theme "NS" Hwf ltac:(set_solver)) as Hns.
  pose proof (glyph_plain theme "NW" Hwf ltac:(set_solver)) as Hnw.
  pose proof (glyph_plain theme "NE" Hwf ltac:(set_solver)) as Hne.
  pose proof (glyph_plain theme "SW" Hwf ltac:(set_solver)) as Hsw.
  pose proof (glyph_plain theme "SE" Hwf ltac:(set_solver)) as Hse.
  assert (Hsp : ∀ n, Forall (λ r, r ≠ 27) (replicate n 32))
    by (intros n; by apply Forall_replicate).
  assert (Hfill : ∀ n, Forall (λ r, r ≠ 27)
                         (mjoin (replicate n (glyph theme "WE"))))
    by (intros n; by apply Repeat_copies_plain).
  assert (Hlast : ∀ c s, Forall (λ r, r ≠ 27) s → stripAnsi (paint c s) = s)
    by (intros c s Hs; by apply stripAnsi_painted_plain).
  simpl paint. cbn [fmap option_fmap option_map]. f_equal.
  rewrite !fmap_app, !fmap_replicate. simpl fmap.
  f_equal; [|f_equal; [|f_equal; [|f_equal]]].
  - (* the top border *)
    f_equal. rewrite strip_piece_plain by done. f_equal.
    destruct boxTitle as [|t0 title] eqn:E.
    + change (stripAnsi []) with (@nil Z). cbv iota. rewrite !app_nil_l.
      by rewrite strip_piece_plain, Hlast by done.
    + rewrite <- E in *. rewrite strip_piece_text by done.
      rewrite strip_piece_plain, Hlast by done.
      destruct (stripAnsi boxTitle) as [|s0 st] eqn:Es;
        [simpl | rewrite <- Es];
        by rewrite ?strip_raw_plain, ?Hlast by done.
  - (* the padding above *)
    f_equal. by rewrite strip_piece_plain, strip_raw_plain, Hlast by done.
  - (* the content *)
    rewrite <- !list_fmap_compose. apply Forall_fmap_ext_1.
    eapply Forall_impl; [exact Hlines |]. simpl. intros line Hline.
    rewrite displayWidth_stripped.
    rewrite strip_piece_plain, strip_raw_plain, strip_piece_text by done.
    by rewrite !strip_raw_plain, Hlast by done.
  - f_equal. by rewrite strip_piece_plain, strip_raw_plain, Hlast by done.
  - (* the bottom border *)
    f_equal. by rewrite !strip_piece_plain, Hlast by done.
Qed.

End LayoutFacts.

(** A titled, coloured ascii box around a plain and a coloured line. *)
Lemma createBox_layout_ignores_colors_witness :
  (λ box : list gostring, stripAnsi <$> box) <$>
    createBox false (λ _, [0])
      [runes "hi"; [27; 91; 51; 49; 109] ++ runes "red" ++ [27; 91; 48; 109]]
      (Some (New [FgBlue])) (Some (New [FgRed])) (runes "T")
      (Some (New [FgGreen])) themeAscii 1 2
  = createBox false (λ _, [0])
      (stripAnsi <$>
         [runes "hi";
          [27; 91; 51; 49; 109] ++ runes "red" ++ [27; 91; 48; 109]])
      None None (stripAnsi (runes "T")) None themeAscii 1 2.
Proof.
  apply (createBox_layout_ignores_colors false (λ _, [0])).
  - reflexivity.
  - lia.
  - unfold boxFits. vm_compute. discriminate.
  - repeat constructor.
  - reflexivity.
Defined.

(** ** The nesting loop (box.go:264-308) *)

Lemma listColor_single (parse : gostring → Color) (colors : list gostring)
    (i : nat) :
  (length colors ≤ 1)%nat → listColor parse colors i = listColor parse colors 0.
Proof.
  intros Hlen. destruct colors as [|c [|c' colors]]; simpl in Hlen; [done | | lia].
  unfold listColor. simpl. by destruct i.
Qed.

Lemma maxLineWidth_const (box : list gostring) (B : Z) :
  box ≠ [] → Forall (λ l, displayWidth l = B) box → maxLineWidth box = B.
Proof.
  intros Hne Hall.
  assert (HB : 0 ≤ B).
  { destruct box as [|l box]; [done |]. apply Forall_cons in Hall as [<- _].
    apply displayWidth_nonneg. }
  apply Z.le_antisymm.
  - apply maxLineWidth_le; [done |].
    eapply Forall_impl; [exact Hall |]. simpl. intros; lia.
  - destruct box as [|l box]; [done |].
    pose proof (maxLineWidth_ge (l :: box)) as Hge.
    apply Forall_cons in Hge as [Hge _].
    apply Forall_cons in Hall as [<- _]. done.
Qed.

Section NestingMore.
Variable NoColor : bool.
Variable resetParams : list Z → list Z.
Variable ToLower : gostring → gostring.
Variable ThemeState : Type.
Variable getColorFromTheme : ThemeState → Z → option (Color * ThemeState).

Local Abbreviation createBox := (createBox NoColor resetParams).
Local Abbreviation nestFrom :=
  (nestFrom NoColor resetParams ToLower ThemeState getColorFromTheme).
Local Abbreviation createNestedBoxes :=
  (createNestedBoxes NoColor resetParams ToLower ThemeState
     getColorFromTheme).
Local Abbreviation borderColor :=
  (layerBoxColor ToLower ThemeState getColorFromTheme).

(** Without a colour theme, the rounds split: the last one boxes the
    result of the others. *)
Lemma nestFrom_snoc (rounds : nat) :
  ∀ (i : nat) (lines : list gostring) (depth : Z)
    (boxColors titleColors boxTitles : list gostring)
    (theme : gmap string gostring) (vpadding hpadding : Z)
    (contentColor : option Color),
  nestFrom (S rounds) i lines depth boxColors titleColors boxTitles theme
    vpadding hpadding contentColor None
  = mid ← nestFrom rounds i lines depth boxColors titleColors boxTitles
            theme vpadding hpadding contentColor None;
    createBox mid
      (listColor (parseColor ToLower) boxColors (i + rounds))
      (if Z.of_nat (i + rounds) =? int_sub depth 1 then contentColor
       else None)
      (layerTitle boxTitles (i + rounds))
      (listColor (parseColor ToLower) titleColors (i + rounds))
      theme vpadding hpadding.
Proof.
  induction rounds as [|rounds IH]; intros i lines depth boxColors
    titleColors boxTitles theme vpadding hpadding contentColor.
  - simpl. rewrite Nat.add_0_r. by destruct (createBox _ _ _ _ _ _ _ _).
  - specialize (IH (S i)). simpl in IH. simpl.
    destruct (createBox lines _ _ _ _ _ _ _) as [lines'|]; [|done].
    simpl. rewrite IH.
    by replace (i + S rounds)%nat with (S (i + rounds)) by lia.
Qed.

(** The content colour and [depth] matter only in the round of index
    [depth - 1]. *)
Lemma nestFrom_before_last (rounds : nat) :
  ∀ (i : nat) (lines : list gostring) (depth depth' : Z)
    (boxColors titleColors boxTitles : list gostring)
    (theme : gmap string gostring) (vpadding hpadding : Z)
    (contentColor : option Color) (colorTheme : option ThemeState),
  Z.of_nat (i + rounds) ≤ int_sub depth 1 →
  nestFrom rounds i lines depth boxColors titleColors boxTitles theme
    vpadding hpadding contentColor colorTheme
  = nestFrom rounds i lines depth' boxColors titleColors boxTitles theme
      vpadding hpadding None colorTheme.
Proof.
  induction rounds as [|rounds IH]; intros i lines depth depth' boxColors
    titleColors boxTitles theme vpadding hpadding contentColor colorTheme
    Hlast; [done |].
  simpl. destruct (borderColor boxColors colorTheme i) as [[bc th']|];
    [|done].
  simpl. destruct (Z.eqb_spec (Z.of_nat i) (int_sub depth 1)); [lia |].
  replace (if Z.of_nat i =? int_sub depth' 1 then None else None)
    with (@None Color) by by destruct (_ =? _).
  destruct (createBox lines _ _ _ _ _ _ _) as [lines'|]; [|done].
  simpl. apply IH. lia.
Qed.

(** X6: without a colour theme, [depth] nested boxes are one box drawn
    around [depth - 1] nested boxes. The inner boxes are drawn without the
    content colour; the outer box gets it, with the border colour, the
    title and the title colour of index [depth - 1]. *)
Theorem createNestedBoxes_outer_layer (lines : list gostring) (depth : Z)
    (boxColors titleColors boxTitles : list gostring)
    (theme : gmap string gostring) (vpadding hpadding : Z)
    (contentColor : option Color) :
  1 ≤ depth ≤ maxInt →
  createNestedBoxes lines depth boxColors titleColors boxTitles theme
    vpadding hpadding contentColor None
  = mid ← createNestedBoxes lines (depth - 1) boxColors titleColors
            boxTitles theme vpadding hpadding None None;
    createBox mid
      (listColor (parseColor ToLower) boxColors (Z.to_nat (depth - 1)))
      contentColor
      (layerTitle boxTitles (Z.to_nat (depth - 1)))
      (listColor (parseColor ToLower) titleColors (Z.to_nat (depth - 1)))
      theme vpadding hpadding.
Proof.
  intros Hdepth. unfold createNestedBoxes.
  assert (Hsub : int_sub depth 1 = depth - 1)
    by (unfold int_sub; apply wrap_id; unfold minInt, maxInt in *; lia).
  replace (Z.to_nat depth) with (S (Z.to_nat (depth - 1))) by lia.
  rewrite nestFrom_snoc, Nat.add_0_l, Hsub.
  replace (Z.of_nat (Z.to_nat (depth - 1)) =? depth - 1) with true
    by (symmetry; apply Z.eqb_eq; lia).
  rewrite (nestFrom_before_last _ _ _ depth (depth - 1)); [done |].
  rewrite Hsub. lia.
Qed.

(** With at most one border colour and one title colour, no titles and no
    content colour, a round does not depend on its index. *)
Lemma nestFrom_uniform (rounds : nat) :
  ∀ (i i' : nat) (lines : list gostring) (depth depth' : Z)
    (boxColors titleColors : list gostring)
    (theme : gmap string gostring) (vpadding hpadding : Z),
  (length boxColors ≤ 1)%nat → (length titleColors ≤ 1)%nat →
  nestFrom rounds i lines depth boxColors titleColors [] theme vpadding
    hpadding None None
  = nestFrom rounds i' lines depth' boxColors titleColors [] theme vpadding
      hpadding None None.
Proof.
  induction rounds as [|rounds IH]; intros i i' lines depth depth' boxColors
    titleColors theme vpadding hpadding Hb Ht; [done |].
  simpl.
  rewrite (listColor_single _ boxColors i), (listColor_single _ boxColors i'),
    (listColor_single _ titleColors i), (listColor_single _ titleColors i')
    by done.
  replace (if Z.of_nat i =? int_sub depth 1 then None else None)
    with (@None Color) by by destruct (_ =? _).
  replace (if Z.of_nat i' =? int_sub depth' 1 then None else None)
    with (@None Color) by by destruct (_ =? _).
  unfold layerTitle. simpl.
  destruct (createBox lines _ _ _ _ _ _ _) as [lines'|]; [|done].
  simpl. by apply IH.
Qed.

Lemma nestFrom_uniform_app (ra : nat) :
  ∀ (rb i i1 i2 : nat) (lines : list gostring) (d d1 d2 : Z)
    (boxColors titleColors : list gostring)
    (theme : gmap string gostring) (vpadding hpadding : Z),
  (length boxColors ≤ 1)%nat → (length titleColors ≤ 1)%nat →
  nestFrom (ra + rb) i lines d boxColors titleColors [] theme vpadding
    hpadding None None
  = mid ← nestFrom ra i1 lines d1 boxColors titleColors [] theme vpadding
            hpadding None None;
    nestFrom rb i2 mid d2 boxColors titleColors [] theme vpadding hpadding
      None None.
Proof.
  induction ra as [|ra IH]; intros rb i i1 i2 lines d d1 d2 boxColors
    titleColors theme vpadding hpadding Hb Ht.
  - simpl. by apply nestFrom_uniform.
  - simpl.
    rewrite (listColor_single _ boxColors i), (listColor_single _ boxColors i1),
      (listColor_single _ titleColors i), (listColor_single _ titleColors i1)
      by done.
    replace (if Z.of_nat i =? int_sub d 1 then None else None)
      with (@None Color) by by destruct (_ =? _).
    replace (if Z.of_nat i1 =? int_sub d1 1 then None else None)
      with (@None Color) by by destruct (_ =? _).
    unfold layerTitle. simpl.
    destruct (createBox lines _ _ _ _ _ _ _) as [lines'|]; [|done].
    simpl. by apply IH.
Qed.

(** X7: nesting composes. With at most one border colour and one title
    colour for all layers, no titles, no content colour and no colour
    theme, [a + b] nested boxes are [b] nested boxes around the output of
    [a] nested boxes: boxing the output of the program again is the same
    as asking for the greater depth. *)
Theorem createNestedBoxes_compose (lines : list gostring) (a b : Z)
    (boxColors titleColors : list gostring)
    (theme : gmap string gostring) (vpadding hpadding : Z) :
  0 ≤ a → 0 ≤ b →
  (length boxColors ≤ 1)%nat → (length titleColors ≤ 1)%nat →
  createNestedBoxes lines (a + b) boxColors titleColors [] theme vpadding
    hpadding None None
  = mid ← createNestedBoxes lines a boxColors titleColors [] theme
            vpadding hpadding None None;
    createNestedBoxes mid b boxColors titleColors [] theme vpadding
      hpadding None None.
Proof.
  intros Ha Hb Hbc Htc. unfold createNestedBoxes.
  rewrite Z2Nat.inj_add by done. by apply nestFrom_uniform_app.
Qed.

(** One round of the loop on lines and a title that leave no escape
    sequence open, the title no wider than the padded content. *)
Lemma createBox_round (lines : list gostring)
    (boxColor contentColor : option Color) (boxTitle : gostring)
    (titleColor : option Color) (theme : gmap string gostring)
    (vpadding hpadding : Z) (box : list gostring) :
  wf_theme theme = true → 0 ≤ hpadding →
  Forall closed lines → closed boxTitle →
  displayWidth boxTitle ≤ maxLineWidth lines + 2 * hpadding →
  4 * (maxLineWidth lines + 2 * hpadding) ≤ maxInt →
  createBox lines boxColor contentColor boxTitle titleColor theme vpadding
    hpadding = Some box →
  Forall (λ l, displayWidth l = maxLineWidth lines + 2 * hpadding + 2
               ∧ closed l) box
  ∧ maxLineWidth box = maxLineWidth lines + 2 * hpadding + 2.
Proof.
  intros Hwf Hh Hlines Htitle Hwide Hfit Hbox.
  pose proof (maxLineWidth_nonneg lines) as Hm.
  pose proof (displayWidth_nonneg boxTitle) as Ht.
  assert (Hbf : boxFits theme lines boxTitle hpadding).
  { destruct (wf_theme_glyph theme "WE" Hwf) as (we & Hwe & _);
      [set_solver |].
    unfold boxFits. rewrite Hwe.
    assert (Hb : 1 ≤ Z.max 1 (byteLen [we]) ≤ 4).
    { simpl. unfold runeLen. repeat case_match; lia. }
    nia. }
  destruct (createBox_ok NoColor resetParams lines boxColor contentColor
              boxTitle titleColor theme vpadding hpadding Hwf Hh Hbf)
    as (box' & Hbox' & _ & Hall).
  rewrite Hbox in Hbox'. injection Hbox' as <-.
  specialize (Hall Hlines Htitle).
  destruct (innerWidth_bounds theme lines boxTitle hpadding Hh Hbf)
    as (H1 & H2 & H3 & _).
  assert (Hw : innerWidth lines boxTitle hpadding
               = maxLineWidth lines + 2 * hpadding) by lia.
  rewrite Hw in Hall. split; [done |].
  apply maxLineWidth_const.
  - apply createBox_length in Hbox. intros ->. simpl in Hbox. lia.
  - eapply Forall_impl; [exact Hall |]. by intros l [? _].
Qed.

Lemma nestFrom_width (rounds : nat) :
  ∀ (i : nat) (lines : list gostring) (depth : Z)
    (boxColors titleColors boxTitles : list gostring)
    (theme : gmap string gostring) (vpadding hpadding : Z)
    (contentColor : option Color) (colorTheme : option ThemeState)
    (out : list gostring),
  wf_theme theme = true → 0 ≤ hpadding →
  Forall closed lines →
  Forall (λ t, closed t
               ∧ displayWidth t ≤ maxLineWidth lines + 2 * hpadding)
    boxTitles →
  4 * (maxLineWidth lines + Z.of_nat rounds * (2 * hpadding + 2)) ≤ maxInt →
  nestFrom rounds i lines depth boxColors titleColors boxTitles theme
    vpadding hpadding contentColor colorTheme = Some out →
  Forall closed out
  ∧ maxLineWidth out
    = maxLineWidth lines + Z.of_nat rounds * (2 * hpadding + 2)
  ∧ ((1 ≤ rounds)%nat →
     Forall (λ l, displayWidth l = maxLineWidth out) out).
Proof.
  induction rounds as [|rounds IH]; intros i lines depth boxColors
    titleColors boxTitles theme vpadding hpadding contentColor colorTheme
    out Hwf Hh Hlines Htitles Hfit Hout.
  { injection Hout as <-. split; [done |]. split; [lia | lia]. }
  pose proof (maxLineWidth_nonneg lines) as Hm.
  simpl in Hout.
  destruct (borderColor boxColors colorTheme i) as [[bc th']|]; [|done].
  simpl in Hout.
  destruct (createBox lines _ _ _ _ _ _ _) as [box|] eqn:Hbox; [|done].
  simpl in Hout.
  assert (Htitle : closed (layerTitle boxTitles i)
                   ∧ displayWidth (layerTitle boxTitles i)
                     ≤ maxLineWidth lines + 2 * hpadding).
  { rewrite layerTitle_lookup.
    destruct (boxTitles !! i) as [t|] eqn:Hi; simpl.
    - by apply (Forall_lookup_1 _ _ _ _ Htitles Hi).
    - split; [done |]. change (displayWidth []) with 0. lia. }
  destruct Htitle as [Hclosed Hwide].
  apply createBox_round in Hbox as [Hall Hmax]; try done; [|nia].
  pose proof Hout as Hout0.
  apply IH in Hout as (Hc & Hw & Heq); try done.
  - split; [done |]. split; [lia |]. intros _.
    destruct rounds as [|rounds]; [|apply Heq; lia].
    injection Hout0 as <-. rewrite Hmax.
    eapply Forall_impl; [exact Hall |]. by intros l [-> _].
  - eapply Forall_impl; [exact Hall |]. by intros l [_ ?].
  - eapply Forall_impl; [exact Htitles |]. simpl. intros t [? ?].
    split; [done | lia].
  - lia.
Qed.

(** X8: every layer widens the box by its two borders and its padding.
    When the lines and the titles leave no escape sequence open and no
    title is wider than the padded content, every line of the output of
    [createNestedBoxes] at depth [depth >= 1] is
    [maxLineWidth lines + depth * (2 * hpadding + 2)] columns wide. *)
Theorem createNestedBoxes_width (lines : list gostring) (depth : Z)
    (boxColors titleColors boxTitles : list gostring)
    (theme : gmap string gostring) (vpadding hpadding : Z)
    (contentColor : option Color) (colorTheme : option ThemeState)
    (out : list gostring) :
  wf_theme theme = true → 0 ≤ hpadding → 1 ≤ depth →
  Forall closed lines →
  Forall (λ t, closed t
               ∧ displayWidth t ≤ maxLineWidth lines + 2 * hpadding)
    boxTitles →
  4 * (maxLineWidth lines + depth * (2 * hpadding + 2)) ≤ maxInt →
  createNestedBoxes lines depth boxColors titleColors boxTitles theme
    vpadding hpadding contentColor colorTheme = Some out →
  Forall (λ l, displayWidth l
               = maxLineWidth lines + depth * (2 * hpadding + 2)) out.
Proof.
  intros Hwf Hh Hdepth Hlines Htitles Hfit Hout.
  apply nestFrom_width in Hout as (_ & Hw & Heq); try done; [|lia].
  rewrite Z2Nat.id in Hw by lia. rewrite <- Hw. apply Heq. lia.
Qed.

End NestingMore.

(** Two layers with a content colour around one line. *)
Lemma createNestedBoxes_outer_layer_witness :
  createNestedBoxes false (λ _, [0]) (λ s, s) _ BoxGo.getColorFromTheme
    [runes "x"] 2 [runes "red"; runes "blue"] [] [runes "in"; runes "out"]
    themeAscii 0 1 (Some (New [FgGreen])) None
  = mid ← createNestedBoxes false (λ _, [0]) (λ s, s) _
            BoxGo.getColorFromTheme [runes "x"] (2 - 1)
            [runes "red"; runes "blue"] [] [runes "in"; runes "out"]
            themeAscii 0 1 None None;
    createBox false (λ _, [0]) mid
      (listColor (parseColor (λ s, s)) [runes "red"; runes "blue"]
         (Z.to_nat (2 - 1)))
      (Some (New [FgGreen]))
      (layerTitle [runes "in"; runes "out"] (Z.to_nat (2 - 1)))
      (listColor (parseColor (λ s, s)) [] (Z.to_nat (2 - 1)))
      themeAscii 0 1.
Proof.
  apply (createNestedBoxes_outer_layer false (λ _, [0]) (λ s, s) _
           BoxGo.getColorFromTheme).
  unfold maxInt. lia.
Defined.

(** One red box around one red box is two red boxes. *)
Lemma createNestedBoxes_compose_witness :
  createNestedBoxes false (λ _, [0]) (λ s, s) _ BoxGo.getColorFromTheme
    [runes "x"; runes "yz"] (1 + 1) [runes "red"] [] [] themeUnicode 0 1
    None None
  = mid ← createNestedBoxes false (λ _, [0]) (λ s, s) _
            BoxGo.getColorFromTheme [runes "x"; runes "yz"] 1 [runes "red"]
            [] [] themeUnicode 0 1 None None;
    createNestedBoxes false (λ _, [0]) (λ s, s) _ BoxGo.getColorFromTheme
      mid 1 [runes "red"] [] [] themeUnicode 0 1 None None.
Proof.
  apply (createNestedBoxes_compose false (λ _, [0]) (λ s, s) _
           BoxGo.getColorFromTheme); simpl; lia.
Defined.

(** Two titled layers of the pride theme around a plain and a coloured
    line: 3 + 2 * (2 * 1 + 2) columns. *)
Lemma createNestedBoxes_width_witness :
  Forall
    (λ l, displayWidth l
          = maxLineWidth
              [runes "hi";
               [27; 91; 51; 49; 109] ++ runes "red" ++ [27; 91; 48; 109]]
            + 2 * (2 * 1 + 2))
    (default []
       (createNestedBoxes false (λ _, [0]) (λ s, s) _
          BoxGo.getColorFromTheme
          [runes "hi";
           [27; 91; 51; 49; 109] ++ runes "red" ++ [27; 91; 48; 109]]
          2 [] [runes "green"] [runes "T"; runes "Title"] themeAscii 1 1
          (Some (New [FgBlue]))
          (Some ({| BoxGo.name := runes "pride"; BoxGo.startColor := 0 |},
                 {| draws := λ n, Z.of_nat n; drawn := 1 |})))).
Proof.
  apply (createNestedBoxes_width false (λ _, [0]) (λ s, s) _
           BoxGo.getColorFromTheme _ _ [] [runes "green"]
           [runes "T"; runes "Title"] themeAscii 1 1 (Some (New [FgBlue]))
           (Some ({| BoxGo.name := runes "pride"; BoxGo.startColor := 0 |},
                  {| draws := λ n, Z.of_nat n; drawn := 1 |}))).
  - reflexivity.
  - lia.
  - lia.
  - repeat constructor.
  - repeat constructor; vm_compute; discriminate.
  - vm_compute. discriminate.
  - vm_compute. reflexivity.
Defined.

(** ** The nesting loop of the first revision (unnamed/part_002:199-234) *)

Section FirstPortFacts.
Variable NoColor : bool.
Variable resetParams : list Z → list Z.
Variable ToLower : gostring → gostring.

Local Abbreviation createBox := (createBox NoColor resetParams).
Local Abbreviation nestDown := (FirstPort.nestDown NoColor resetParams ToLower).

Lemma nestDown_last (rounds : nat) :
  ∀ (lines : list gostring) (boxColors titleColors boxTitles : list gostring)
    (theme : gmap string gostring) (vpadding hpadding : Z)
    (contentColor : option Color) (out : list gostring),
  nestDown (S rounds) lines boxColors titleColors boxTitles theme vpadding
    hpadding contentColor = Some out →
  ∃ mid,
    length mid = (length lines + rounds * (2 + 2 * Z.to_nat vpadding))%nat
    ∧ createBox mid
        (listColor (FirstPort.parseColor ToLower) boxColors 0) contentColor
        (layerTitle boxTitles 0)
        (listColor (FirstPort.parseColor ToLower) titleColors 0)
        theme vpadding hpadding = Some out.
Proof.
  induction rounds as [|rounds IH]; intros lines boxColors titleColors
    boxTitles theme vpadding hpadding contentColor out Hout.
  - exists lines. split; [lia |]. simpl in Hout.
    by destruct (createBox lines _ _ _ _ _ _ _).
  - change (nestDown (S (S rounds)) lines boxColors titleColors boxTitles
              theme vpadding hpadding contentColor)
      with (lines' ← createBox lines
                        (listColor (FirstPort.parseColor ToLower) boxColors
                           (S rounds))
                        contentColor (layerTitle boxTitles (S rounds))
                        (listColor (FirstPort.parseColor ToLower) titleColors
                           (S rounds))
                        theme vpadding hpadding;
            nestDown (S rounds) lines' boxColors titleColors boxTitles theme
              vpadding hpadding contentColor) in Hout.
    destruct (createBox lines _ _ _ _ _ _ _) as [lines'|] eqn:Hbox; [|done].
    apply createBox_length in Hbox.
    apply IH in Hout as (mid & Hlen & Hmid).
    exists mid. split; [lia | done].
Qed.

(** X9: in the first revision the loop runs from index [depth - 1] down to
    [0], so the output is the box of index 0: a box with the border
    colour, the title and the title colour of index 0, drawn with the
    content colour around the [depth - 1] layers built before. *)
Theorem FirstPort_outer_layer (lines : list gostring) (depth : Z)
    (boxColors titleColors boxTitles : list gostring)
    (theme : gmap string gostring) (vpadding hpadding : Z)
    (contentColor : option Color) (out : list gostring) :
  1 ≤ depth ≤ maxInt →
  FirstPort.createNestedBoxes NoColor resetParams ToLower lines depth
    boxColors titleColors boxTitles theme vpadding hpadding contentColor
  = Some out →
  ∃ mid,
    Z.of_nat (length mid)
    = Z.of_nat (length lines)
      + (depth - 1) * (2 + 2 * Z.of_nat (Z.to_nat vpadding))
    ∧ createBox mid
        (listColor (FirstPort.parseColor ToLower) boxColors 0) contentColor
        (layerTitle boxTitles 0)
        (listColor (FirstPort.parseColor ToLower) titleColors 0)
        theme vpadding hpadding = Some out.
Proof.
  intros Hdepth Hout. unfold FirstPort.createNestedBoxes in Hout.
  assert (Hsub : int_sub depth 1 = depth - 1)
    by (unfold int_sub; apply wrap_id; unfold minInt, maxInt in *; lia).
  rewrite Hsub in Hout.
  replace (Z.to_nat (depth - 1 + 1)) with (S (Z.to_nat (depth - 1)))
    in Hout by lia.
  apply nestDown_last in Hout as (mid & Hlen & Hmid).
  exists mid. split; [|done]. rewrite Hlen. nia.
Qed.

End FirstPortFacts.

(** Two layers with their own colours and titles: the output is the box
    titled "first". *)
Lemma FirstPort_outer_layer_witness :
  ∃ mid,
    Z.of_nat (length mid)
    = Z.of_nat (length [runes "x"])
      + (2 - 1) * (2 + 2 * Z.of_nat (Z.to_nat 0))
    ∧ createBox false (λ _, [0]) mid
        (listColor (FirstPort.parseColor (λ s, s))
           [runes "red"; runes "blue"] 0)
        None (layerTitle [runes "first"; runes "second"] 0)
        (listColor (FirstPort.parseColor (λ s, s)) [] 0) themeAscii 0 1
      = Some
          (default []
             (FirstPort.createNestedBoxes false (λ _, [0]) (λ s, s)
                [runes "x"] 2 [runes "red"; runes "blue"] []
                [runes "first"; runes "second"] themeAscii 0 1 None)).
Proof.
  apply (FirstPort_outer_layer false (λ _, [0]) (λ s, s) [runes "x"] 2
           [runes "red"; runes "blue"] [] [runes "first"; runes "second"]
           themeAscii 0 1 None).
  - unfold maxInt. lia.
  - vm_compute. reflexivity.
Defined.

(** ** The colour theme engine of the later revision
    (unnamed/part_001:102-200) *)

Lemma at_index_lookup (s : list Z) (j : nat) :
  (j < length s)%nat → at_index s (Z.of_nat j) = Some (s !!! j).
Proof.
  intros Hj. unfold at_index. destruct (Z.ltb_spec (Z.of_nat j) 0); [lia |].
  rewrite Nat2Z.id. destruct (lookup_lt_is_Some_2 s j Hj) as [c Hc].
  rewrite Hc. f_equal. symmetry. by apply list_lookup_total_correct.
Qed.

(** The first round of the scan finds the next entry of the palette
    unused. *)
Lemma scanPalette_first (palette : list Z) (j : nat)
    (theme : Tracking.ColorTheme) :
  NoDup palette → (j < length palette)%nat →
  Z.of_nat (length palette) ≤ 1000 →
  flagPhase palette j theme →
  ∃ theme',
    Tracking.scanPalette (length palette) 0 palette theme
    = Some (palette !!! j, theme')
    ∧ Tracking.name theme' = Tracking.name theme
    ∧ Tracking.startColor theme' = Tracking.startColor theme
    ∧ flagPhase palette (S j) theme'.
Proof.
  intros Hnd Hj Hlen (Hci & Hsize & Hused).
  destruct (length palette) as [|todo] eqn:HL; [lia |].
  cbn [Tracking.scanPalette]. rewrite HL.
  assert (Hmod : Z.of_nat j `mod` Z.of_nat (S todo) = Z.of_nat j)
    by (apply Z.mod_small; lia).
  rewrite Hci, Hmod.
  assert (Hadd : int_add (Z.of_nat j) 0 = Z.of_nat j).
  { unfold int_add. rewrite Z.add_0_r. apply wrap_id.
    unfold minInt, maxInt. lia. }
  rewrite Hadd, (Z.rem_small (Z.of_nat j)) by lia.
  rewrite at_index_lookup by lia. cbn [mbind option_bind].
  destruct (lookup_lt_is_Some_2 palette j ltac:(lia)) as [c Hc].
  rewrite (list_lookup_total_correct _ _ _ Hc).
  assert (Hfresh : c ∉ take j palette).
  { rewrite <- (take_drop j palette) in Hnd.
    apply NoDup_app in Hnd as (_ & Hdisj & _). intros Hin.
    apply (Hdisj c Hin). rewrite (drop_S _ _ _ Hc). by left. }
  assert (Hnone : Tracking.usedColors theme !! c = None)
    by (rewrite Hused; by rewrite decide_False).
  unfold Tracking.used. rewrite Hnone. cbn [default negb].
  eexists. split; [done |]. split; [done |]. split; [done |].
  unfold flagPhase.
  cbn [Tracking.colorIndex Tracking.usedColors]. split; [|split].
  - assert (Hadd1 : int_add (Z.of_nat j) 1 = Z.of_nat j + 1).
    { apply wrap_id. unfold minInt, maxInt. lia. }
    rewrite Hadd1, HL, Z.rem_mod_nonneg by lia. f_equal. lia.
  - rewrite map_size_insert_None by done. by rewrite Hsize.
  - intros c'. rewrite (take_S_r _ _ _ Hc).
    destruct (decide (c' = c)) as [->|Hne].
    + rewrite lookup_insert_eq. rewrite decide_True; [done |].
      apply elem_of_app. right. by left.
    + rewrite lookup_insert_ne by done. rewrite Hused.
      destruct (decide (c' ∈ take j palette)) as [Hin|Hnin].
      * rewrite decide_True; [done |]. apply elem_of_app. by left.
      * rewrite decide_False; [done |]. rewrite elem_of_app.
        intros [?|Hin]; [done |]. apply list_elem_of_singleton in Hin. done.
Qed.

Section FlagThemes.
Variable palette : list Z.
Variable nm : gostring.
Hypothesis Hpalette : Tracking.candidateColors nm = palette.
Hypothesis Hflag :
  nm ≠ runes "random" ∧ nm ≠ runes "gradient" ∧ nm ≠ runes "rainbow".
Hypothesis Hnodup : NoDup palette.
Hypothesis Hsome : palette ≠ [].
Hypothesis Hshort : Z.of_nat (length palette) ≤ 1000.

(** One call: the entry under the cursor, after clearing a full set. *)
Lemma flag_call (fuel : nat) (theme : Tracking.ColorTheme) (index : Z)
    (src : Source) (j : nat) :
  Tracking.name theme = nm → (j ≤ length palette)%nat →
  flagPhase palette j theme →
  ∃ theme',
    Tracking.getNextColor fuel theme index src
    = Some (palette !!! (j mod length palette)%nat, theme', src)
    ∧ Tracking.name theme' = nm
    ∧ Tracking.startColor theme' = Tracking.startColor theme
    ∧ flagPhase palette (if decide (j = length palette) then 1%nat else S j)
        theme'.
Proof.
  intros Hname Hj Hphase.
  assert (HL : (0 < length palette)%nat)
    by (destruct palette; [done | simpl; lia]).
  unfold Tracking.getNextColor. rewrite Hname, Hpalette.
  destruct Hflag as (H1 & H2 & H3).
  rewrite !decide_False by done.
  replace (0 <? length palette)%nat with true
    by (symmetry; by apply Nat.ltb_lt).
  set (theme0 := if Z.of_nat (length palette)
                      <=? Z.of_nat (size (Tracking.usedColors theme))
                 then Tracking.clearUsed theme else theme).
  set (j0 := if decide (j = length palette) then 0%nat else j).
  assert (H0 : flagPhase palette j0 theme0
               ∧ Tracking.name theme0 = nm
               ∧ Tracking.startColor theme0 = Tracking.startColor theme).
  { destruct Hphase as (Hci & Hsize & Hused). unfold theme0, j0.
    rewrite Hsize. destruct (decide (j = length palette)) as [->|Hne].
    - rewrite Z.leb_refl. split; [|done]. unfold flagPhase. simpl.
      rewrite Hci, Z.mod_same by lia. split; [done |].
      split; [done |]. intros c. by rewrite lookup_empty.
    - destruct (Z.leb_spec (Z.of_nat (length palette)) (Z.of_nat j));
        [lia | done]. }
  destruct H0 as (Hphase0 & Hname0 & Hstart0).
  assert (Hj0 : (j0 < length palette)%nat)
    by (unfold j0; case_decide; lia).
  destruct (scanPalette_first palette j0 theme0 Hnodup Hj0 Hshort Hphase0)
    as (theme' & -> & Hn & Hs & Hphase').
  simpl. exists theme'.
  replace (j mod length palette)%nat with j0.
  - split; [done |]. split; [congruence |]. split; [congruence |].
    unfold j0 in Hphase'. by destruct (decide (j = length palette)).
  - unfold j0. destruct (decide (j = length palette)) as [->|Hne].
    + by rewrite Nat.Div0.mod_same.
    + symmetry. apply Nat.mod_small. lia.
Qed.

Lemma flag_calls (fuel n : nat) :
  ∀ (i : Z) (theme : Tracking.ColorTheme) (src : Source) (j : nat),
  Tracking.name theme = nm → (j ≤ length palette)%nat →
  flagPhase palette j theme →
  ∃ theme',
    Tracking.calls fuel n i theme src
    = Some ((λ k, palette !!! ((j + k) mod length palette)%nat) <$> seq 0 n,
            theme', src)
    ∧ Tracking.startColor theme' = Tracking.startColor theme.
Proof.
  induction n as [|n IH]; intros i theme src j Hname Hj Hphase.
  - by exists theme.
  - assert (HL : (0 < length palette)%nat)
      by (destruct palette; [done | simpl; lia]).
    cbn [Tracking.calls].
    destruct (flag_call fuel theme i src j Hname Hj Hphase)
      as (theme' & -> & Hname' & Hstart' & Hphase').
    cbn [mbind option_bind].
    set (j' := if decide (j = length palette) then 1%nat else S j) in *.
    assert (Hj' : (j' ≤ length palette)%nat)
      by (unfold j'; case_decide; lia).
    destruct (IH (i + 1) theme' src j' Hname' Hj' Hphase')
      as (theme'' & -> & Hstart'').
    cbn [mbind option_bind]. exists theme''. split; [|congruence].
    do 3 f_equal. cbn [seq fmap list_fmap]. rewrite Nat.add_0_r. f_equal.
    rewrite <- fmap_S_seq, <- list_fmap_compose.
    apply list_fmap_ext. intros _ k _. simpl. f_equal.
    unfold j'. destruct (decide (j = length palette)) as [->|Hne].
    + replace (length palette + S k)%nat
        with (1 + k + 1 * length palette)%nat by lia.
      by rewrite Nat.Div0.mod_add.
    + f_equal. lia.
Qed.

End FlagThemes.

Lemma flagPhase_new (name : gostring) (src : Source) (palette : list Z) :
  palette ≠ [] → flagPhase palette 0 (Tracking.newColorTheme name src).1.
Proof.
  intros Hne. unfold flagPhase. simpl. split; [|done].
  rewrite Z.mod_0_l; [done |]. destruct palette; [done | simpl; lia].
Qed.

(** X10: the flag themes of the later revision walk their palette in
    order. The [k]-th call on a new pride, trans, bi, pan or nb theme
    returns the entry [k mod len] of the palette, whatever index it is
    given, and draws nothing from the random source: consecutive layers
    get consecutive stripes, and the colours repeat after [len] layers. *)
Theorem flag_palette_cycles (name : gostring) (src0 src : Source)
    (fuel n : nat) (i : Z) :
  name ∈ [runes "pride"; runes "trans"; runes "bi"; runes "pan"; runes "nb"] →
  ∃ theme',
    Tracking.calls fuel n i (Tracking.newColorTheme name src0).1 src
    = Some ((λ k, Tracking.candidateColors name
                    !!! (k mod length (Tracking.candidateColors name))%nat)
              <$> seq 0 n,
            theme', src).
Proof.
  intros Hname.
  assert (Hok : name ≠ runes "random" ∧ name ≠ runes "gradient"
                ∧ name ≠ runes "rainbow"
                ∧ NoDup (Tracking.candidateColors name)
                ∧ Tracking.candidateColors name ≠ []
                ∧ Z.of_nat (length (Tracking.candidateColors name)) ≤ 1000).
  { rewrite !elem_of_cons in Hname.
    destruct Hname as [->|[->|[->|[->|[->|Hno]]]]];
      [| | | | | by apply elem_of_nil in Hno];
      (split; [done |]); (split; [done |]); (split; [done |]);
      (split; [apply (bool_decide_unpack _); by vm_compute |]);
      (split; [done |]); vm_compute; discriminate. }
  destruct Hok as (H1 & H2 & H3 & Hnd & Hne & Hlen).
  destruct (flag_calls (Tracking.candidateColors name) name eq_refl
              (conj H1 (conj H2 H3)) Hnd Hne Hlen fuel n i
              (Tracking.newColorTheme name src0).1 src 0 eq_refl
              ltac:(lia) (flagPhase_new name src0 _ Hne))
    as (theme' & Hcalls & _).
  by exists theme'.
Qed.

(** Seven calls on a new pride theme. *)
Lemma flag_palette_cycles_witness :
  ∃ theme',
    Tracking.calls 0 7 5
      (Tracking.newColorTheme (runes "pride")
         {| draws := λ n, Z.of_nat n; drawn := 0 |}).1
      {| draws := λ n, Z.of_nat n; drawn := 1 |}
    = Some ((λ k, Tracking.candidateColors (runes "pride")
                    !!! (k mod length
                                 (Tracking.candidateColors (runes "pride")))%nat)
              <$> seq 0 7,
            theme', {| draws := λ n, Z.of_nat n; drawn := 1 |}).
Proof.
  apply (flag_palette_cycles (runes "pride")). by left.
Defined.

(** The gradient and rainbow themes count their own calls. *)
Lemma counting_calls (fuel n : nat) :
  ∀ (i : Z) (theme : Tracking.ColorTheme) (src : Source),
  Tracking.name theme = runes "gradient"
  ∨ Tracking.name theme = runes "rainbow" →
  0 ≤ Tracking.startColor theme < 216 →
  0 ≤ Tracking.colorIndex theme →
  Tracking.colorIndex theme + Z.of_nat n ≤ maxInt - 216 →
  ∃ theme',
    Tracking.calls fuel n i theme src
    = Some ((λ k, ((if decide (Tracking.name theme = runes "gradient")
                    then Tracking.startColor theme else 0)
                   + Tracking.colorIndex theme + Z.of_nat k) `mod` 216)
              <$> seq 0 n,
            theme', src).
Proof.
  induction n as [|n IH]; intros i theme src Hname Hstart Hci Hfit.
  - by exists theme.
  - cbn [Tracking.calls].
    assert (Hcall : Tracking.getNextColor fuel theme i src
                    = Some (((if decide (Tracking.name theme
                                         = runes "gradient")
                              then Tracking.startColor theme else 0)
                             + Tracking.colorIndex theme) `mod` 216,
                            Tracking.bumpIndex theme, src)).
    { unfold Tracking.getNextColor.
      destruct Hname as [Hname|Hname]; rewrite Hname.
      - rewrite decide_False by done. rewrite decide_True by done.
        unfold int_add. rewrite wrap_id by (unfold minInt, maxInt in *; lia).
        by rewrite Z.rem_mod_nonneg by lia.
      - rewrite !decide_False by done. rewrite decide_True by done.
        by rewrite Z.rem_mod_nonneg by lia. }
    rewrite Hcall. cbn [mbind option_bind].
    assert (Hbump : int_add (Tracking.colorIndex theme) 1
                    = Tracking.colorIndex theme + 1)
      by (apply wrap_id; unfold minInt, maxInt in *; lia).
    destruct (IH (i + 1) (Tracking.bumpIndex theme) src) as (theme' & ->);
      [done | done | simpl; lia | simpl; lia |].
    cbn [mbind option_bind]. exists theme'. do 3 f_equal.
    cbn [seq fmap list_fmap]. f_equal; [f_equal; lia |].
    rewrite <- fmap_S_seq, <- list_fmap_compose.
    apply list_fmap_ext. intros _ k _.
    cbn [Tracking.bumpIndex Tracking.name Tracking.startColor
           Tracking.colorIndex compose].
    rewrite Hbump. f_equal. lia.
Qed.

(** X11: on a new gradient theme of the later revision the [k]-th call
    returns [(startColor + k) mod 216], and on a new rainbow theme
    [k mod 216], whatever index the call is given: the themes count their
    own calls, step by one colour per layer, and draw nothing from the
    random source. *)
Theorem gradient_rainbow_step (src0 src : Source) (fuel n : nat) (i : Z) :
  Z.of_nat n ≤ maxInt - 216 →
  (∃ theme',
     Tracking.calls fuel n i
       (Tracking.newColorTheme (runes "gradient") src0).1 src
     = Some ((λ k, ((Intn 216 src0).1 + Z.of_nat k) `mod` 216) <$> seq 0 n,
             theme', src))
  ∧ (∃ theme',
       Tracking.calls fuel n i
         (Tracking.newColorTheme (runes "rainbow") src0).1 src
       = Some ((λ k, Z.of_nat k `mod` 216) <$> seq 0 n, theme', src)).
Proof.
  intros Hn.
  assert (Hstart : 0 ≤ (Intn 216 src0).1 < 216)
    by (simpl; by apply Z.mod_pos_bound).
  split.
  - destruct (counting_calls fuel n i
                (Tracking.newColorTheme (runes "gradient") src0).1 src)
      as (theme' & Hcalls); [by left | done | done | simpl; lia |].
    exists theme'. rewrite Hcalls. do 3 f_equal.
    apply list_fmap_ext. intros _ k _. simpl. f_equal. lia.
  - destruct (counting_calls fuel n i
                (Tracking.newColorTheme (runes "rainbow") src0).1 src)
      as (theme' & Hcalls); [by right | done | done | simpl; lia |].
    exists theme'. rewrite Hcalls. do 3 f_equal.
Qed.

(** 300 calls on the source that draws 0, 1, 2, ... *)
Lemma gradient_rainbow_step_witness :
  (∃ theme',
     Tracking.calls 0 300 7
       (Tracking.newColorTheme (runes "gradient")
          {| draws := λ n, Z.of_nat n; drawn := 5 |}).1
       {| draws := λ n, Z.of_nat n; drawn := 6 |}
     = Some ((λ k, ((Intn 216 {| draws := λ n, Z.of_nat n; drawn := 5 |}).1
                    + Z.of_nat k) `mod` 216) <$> seq 0 300,
             theme', {| draws := λ n, Z.of_nat n; drawn := 6 |}))
  ∧ (∃ theme',
       Tracking.calls 0 300 7
         (Tracking.newColorTheme (runes "rainbow")
            {| draws := λ n, Z.of_nat n; drawn := 5 |}).1
         {| draws := λ n, Z.of_nat n; drawn := 6 |}
       = Some ((λ k, Z.of_nat k `mod` 216) <$> seq 0 300, theme',
               {| draws := λ n, Z.of_nat n; drawn := 6 |})).
Proof.
  apply (gradient_rainbow_step {| draws := λ n, Z.of_nat n; drawn := 5 |}).
  unfold maxInt. lia.
Defined.

(** ** The colour theme engine of box.go (box.go:39-93) *)

Lemma cycle_lookup (colors : list Z) (k : nat) :
  colors ≠ [] →
  BoxGo.cycle colors (Z.of_nat k)
  = Some (colors !!! (k mod length colors)%nat).
Proof.
  intros Hne.
  assert (HL : (0 < length colors)%nat)
    by (destruct colors; [done | simpl; lia]).
  unfold BoxGo.cycle. rewrite Z.rem_mod_nonneg by lia.
  rewrite <- Nat2Z.inj_mod. apply at_index_lookup.
  apply Nat.mod_upper_bound. lia.
Qed.

Lemma cycle_member (colors : list Z) (index c : Z) :
  colors ≠ [] → 0 ≤ index → BoxGo.cycle colors index = Some c → c ∈ colors.
Proof.
  intros Hne Hindex Hc. unfold BoxGo.cycle in Hc.
  destruct (at_index_Some colors (Z.rem index (Z.of_nat (length colors))))
    as (c' & Hc' & Hin); [|congruence].
  apply rem_range; [done |]. destruct colors; [done | simpl; lia].
Qed.

(** X12: the engine of box.go always names a colour of the 256-colour
    table. For a theme made by [newColorTheme], whatever its name, and a
    layer index that is not negative, [getColorFromTheme] returns the
    colour [38;5;c] with [0 <= c < 256], and only the random theme draws
    from the random source. *)
Theorem BoxGo_color_valid (name : gostring) (src0 src : Source) (index : Z) :
  0 ≤ index ≤ maxInt - 216 →
  ∃ c src',
    BoxGo.getColorFromTheme ((BoxGo.newColorTheme name src0).1, src) index
    = Some (New [38; 5; c], ((BoxGo.newColorTheme name src0).1, src'))
    ∧ 0 ≤ c < 256
    ∧ (name ≠ runes "random" → src' = src).
Proof.
  intros Hindex.
  assert (Hstart : 0 ≤ draws src0 (drawn src0) `mod` 216 < 216)
    by by apply Z.mod_pos_bound.
  assert (Hdraw : 0 ≤ draws src (drawn src) `mod` 216 < 216)
    by by apply Z.mod_pos_bound.
  assert (Hflag : ∀ colors,
            colors ≠ [] → Forall (λ c, 0 ≤ c < 256) colors →
            ∃ c, BoxGo.cycle colors index = Some c ∧ 0 ≤ c < 256).
  { intros colors Hne Hall.
    destruct (cycle_Some colors index Hne ltac:(lia)) as [c Hc].
    exists c. split; [done |].
    apply (proj1 (Forall_forall _ _) Hall).
    apply (cycle_member colors index); [done | lia | done]. }
  unfold BoxGo.getColorFromTheme, BoxGo.getNextColor, BoxGo.newColorTheme.
  cbn [Intn fst snd BoxGo.name BoxGo.startColor].
  repeat case_decide.
  - eexists _, _. split; [done |]. split; [lia | done].
  - eexists _, _. split; [done |]. split; [|done].
    unfold int_add. rewrite wrap_id by (unfold minInt, maxInt in *; lia).
    rewrite Z.rem_mod_nonneg by lia. assert (0 < 216) as H216 by lia.
    pose proof (Z.mod_pos_bound
                  (draws src0 (drawn src0) `mod` 216 + index) 216 H216).
    lia.
  - eexists _, _. split; [done |]. split; [|done].
    rewrite Z.rem_mod_nonneg by lia. assert (0 < 216) as H216 by lia.
    pose proof (Z.mod_pos_bound index 216 H216). lia.
  - destruct (Hflag BoxGo.prideColors) as (c & -> & Hc);
      [done | repeat constructor; lia |]. by eexists _, _.
  - destruct (Hflag BoxGo.transColors) as (c & -> & Hc);
      [done | repeat constructor; lia |]. by eexists _, _.
  - destruct (Hflag BoxGo.biColors) as (c & -> & Hc);
      [done | repeat constructor; lia |]. by eexists _, _.
  - destruct (Hflag BoxGo.panColors) as (c & -> & Hc);
      [done | repeat constructor; lia |]. by eexists _, _.
  - destruct (Hflag BoxGo.nbColors) as (c & -> & Hc);
      [done | repeat constructor; lia |]. by eexists _, _.
  - eexists _, _. split; [done |]. split; [lia | done].
Qed.

(** Layer 7 of a theme with a name that is no theme. *)
Lemma BoxGo_color_valid_witness :
  ∃ c src',
    BoxGo.getColorFromTheme
      ((BoxGo.newColorTheme (runes "sunset")
          {| draws := λ n, Z.of_nat n + 500; drawn := 0 |}).1,
       {| draws := λ n, Z.of_nat n; drawn := 1 |}) 7
    = Some (New [38; 5; c],
            ((BoxGo.newColorTheme (runes "sunset")
                {| draws := λ n, Z.of_nat n + 500; drawn := 0 |}).1, src'))
    ∧ 0 ≤ c < 256
    ∧ (runes "sunset" ≠ runes "random"
       → src' = {| draws := λ n, Z.of_nat n; drawn := 1 |}).
Proof.
  apply (BoxGo_color_valid (runes "sunset")). unfold maxInt. lia.
Defined.

(** ** The two engines side by side *)

Lemma mapM_fmap_Some {A B} (g : A → option B) (f : A → B) (l : list A) :
  (∀ x, x ∈ l → g x = Some (f x)) → mapM g l = Some (f <$> l).
Proof. intros Hg. apply mapM_explicit. by apply Forall_forall. Qed.

(** X13: outside the random and trans themes the two revisions colour
    the layers alike. For the gradient, rainbow, pride, bi, pan and nb
    themes, the colours that [n] consecutive calls of the tracking engine
    return on a new theme are the colours that the engine of box.go
    computes for the layer indices [0 .. n-1] from the same start
    colour. *)
Theorem engines_agree (name : gostring) (src0 src : Source) (fuel n : nat)
    (i : Z) :
  name ∈ [runes "gradient"; runes "rainbow"; runes "pride"; runes "bi";
          runes "pan"; runes "nb"] →
  Z.of_nat n ≤ maxInt - 216 →
  ∃ colors theme',
    Tracking.calls fuel n i (Tracking.newColorTheme name src0).1 src
    = Some (colors, theme', src)
    ∧ mapM (λ k, fst <$> BoxGo.getNextColor
                           (BoxGo.newColorTheme name src0).1 (Z.of_nat k)
                           src)
        (seq 0 n)
      = Some colors.
Proof.
  intros Hname Hn.
  assert (Hstart : 0 ≤ draws src0 (drawn src0) `mod` 216 < 216)
    by by apply Z.mod_pos_bound.
  assert (Hflags :
    ∀ palette,
      name ≠ runes "random" ∧ name ≠ runes "gradient"
      ∧ name ≠ runes "rainbow" →
      Tracking.candidateColors name = palette → NoDup palette →
      palette ≠ [] → Z.of_nat (length palette) ≤ 1000 →
      (∀ k, BoxGo.getNextColor (BoxGo.newColorTheme name src0).1 k src
            = c ← BoxGo.cycle palette k; Some (c, src)) →
      ∃ colors theme',
        Tracking.calls fuel n i (Tracking.newColorTheme name src0).1 src
        = Some (colors, theme', src)
        ∧ mapM (λ k, fst <$> BoxGo.getNextColor
                               (BoxGo.newColorTheme name src0).1
                               (Z.of_nat k) src)
            (seq 0 n)
          = Some colors).
  { intros palette Hflag Hpal Hnd Hne Hlen Hbox.
    destruct (flag_calls palette name Hpal Hflag Hnd Hne Hlen fuel n i
                (Tracking.newColorTheme name src0).1 src 0 eq_refl
                ltac:(lia) (flagPhase_new name src0 _ Hne))
      as (theme' & Hcalls & _).
    eexists _, theme'. split; [exact Hcalls |].
    apply mapM_fmap_Some. intros k _.
    by rewrite Hbox, cycle_lookup by done. }
  rewrite !elem_of_cons in Hname.
  destruct Hname as [->|[->|[->|[->|[->|[->|Hno]]]]]];
    [| | | | | | by apply elem_of_nil in Hno].
  - destruct (counting_calls fuel n i
                (Tracking.newColorTheme (runes "gradient") src0).1 src)
      as (theme' & Hcalls); [by left | done | done | simpl; lia |].
    eexists _, theme'. split; [exact Hcalls |].
    apply mapM_fmap_Some. intros k Hk. apply elem_of_seq in Hk.
    unfold BoxGo.getNextColor. simpl.
    unfold int_add. rewrite wrap_id by (unfold minInt, maxInt in *; lia).
    rewrite Z.rem_mod_nonneg by lia. do 2 f_equal. lia.
  - destruct (counting_calls fuel n i
                (Tracking.newColorTheme (runes "rainbow") src0).1 src)
      as (theme' & Hcalls); [by right | done | done | simpl; lia |].
    eexists _, theme'. split; [exact Hcalls |].
    apply mapM_fmap_Some. intros k Hk.
    unfold BoxGo.getNextColor. simpl.
    by rewrite Z.rem_mod_nonneg by lia.
  - apply (Hflags [196; 208; 226; 46; 21; 129]);
      [done | done | apply (bool_decide_unpack _); by vm_compute | done
      | simpl; lia |].
    intros k. unfold BoxGo.getNextColor. simpl BoxGo.name.
    rewrite !decide_False by done. by rewrite decide_True by done.
  - apply (Hflags [213; 129; 21]);
      [done | done | apply (bool_decide_unpack _); by vm_compute | done
      | simpl; lia |].
    intros k. unfold BoxGo.getNextColor. simpl BoxGo.name.
    rewrite !decide_False by done. by rewrite decide_True by done.
  - apply (Hflags [213; 226; 21]);
      [done | done | apply (bool_decide_unpack _); by vm_compute | done
      | simpl; lia |].
    intros k. unfold BoxGo.getNextColor. simpl BoxGo.name.
    rewrite !decide_False by done. by rewrite decide_True by done.
  - apply (Hflags [226; 15; 129; 0]);
      [done | done | apply (bool_decide_unpack _); by vm_compute | done
      | simpl; lia |].
    intros k. unfold BoxGo.getNextColor. simpl BoxGo.name.
    rewrite !decide_False by done. by rewrite decide_True by done.
Qed.

(** Eight layers of the bi theme. *)
Lemma engines_agree_witness :
  ∃ colors theme',
    Tracking.calls 0 8 0
      (Tracking.newColorTheme (runes "bi")
         {| draws := λ n, Z.of_nat n; drawn := 3 |}).1
      {| draws := λ n, Z.of_nat n; drawn := 4 |}
    = Some (colors, theme', {| draws := λ n, Z.of_nat n; drawn := 4 |})
    ∧ mapM (λ k, fst <$> BoxGo.getNextColor
                           (BoxGo.newColorTheme (runes "bi")
                              {| draws := λ n, Z.of_nat n; drawn := 3 |}).1
                           (Z.of_nat k)
                           {| draws := λ n, Z.of_nat n; drawn := 4 |})
        (seq 0 8)
      = Some colors.
Proof.
  apply (engines_agree (runes "bi")).
  - rewrite !elem_of_cons. tauto.
  - unfold maxInt. lia.
Defined.

(** ** The command line: arguments and lists
    (unnamed/part_001:25-86, box.go:333-379) *)



Lemma splitFrom_nonempty (sep s : gostring) :
  ∀ skip, splitFrom sep skip s ≠ [].
Proof.
  induction s as [|c s IH]; intros skip; [done |].
  destruct skip as [|skip]; cbn [splitFrom]; [|apply IH].
  case_bool_decide; [done |]. by destruct (splitFrom sep 0 s).
Qed.




(** A string without the first code point of the separator is one part. *)
Lemma splitFrom_plain (d : Z) (sep s : gostring) :
  d ∉ s → splitFrom (d :: sep) 0 s = [s].
Proof.
  induction s as [|c s IH]; intros Hd; [done |].
  apply not_elem_of_cons in Hd as [Hne Hd].
  cbn [splitFrom]. rewrite bool_decide_eq_false_2.
  - by rewrite IH.
  - intros [k Hk]. simplify_eq/=.
Qed.


Lemma processArguments_nil (args : list gostring) :
  TrackingCmd.processArguments args = [] ↔ Forall (λ arg, arg = []) args.
Proof.
  induction args as [|arg args IH]; [done |]. simpl. case_decide.
  - rewrite IH. split; [by constructor |]. by inversion 1.
  - split.
    + intros Hnil. apply app_eq_nil in Hnil as [Hnil _].
      by apply splitFrom_nonempty in Hnil.
    + by inversion 1.
Qed.


(** X15: arguments without a backslash come out as they are, one line
    each, the empty ones dropped. *)
Theorem processArguments_plain (args : list gostring) :
  Forall (λ arg, 92 ∉ arg) args →
  TrackingCmd.processArguments args = filter (λ arg, arg ≠ []) args.
Proof.
  induction 1 as [|arg args Harg _ IH]; [done |]. simpl.
  rewrite filter_cons. case_decide as Hempty.
  - by rewrite decide_False by (by intros ?).
  - rewrite decide_True by done.
    change (Split arg [92; 110]) with (splitFrom [92; 110] 0 arg).
    by rewrite splitFrom_plain, IH by done.
Qed.

Lemma processArguments_plain_witness :
  TrackingCmd.processArguments [runes "Line 1"; []; runes "Line 2"]
  = filter (λ arg, arg ≠ []) [runes "Line 1"; []; runes "Line 2"].
Proof.
  apply processArguments_plain.
  repeat (apply Forall_cons; split); try apply Forall_nil;
    apply (bool_decide_unpack _); by vm_compute.
Defined.

(** X16: the command has no input, and prints its usage, exactly when the
    standard input is a terminal (or cannot be examined) and every
    argument is empty. A piped standard input is read even when it is
    empty, and the arguments are then ignored. *)
Theorem resolveTextInput_no_input (stdin : TrackingCmd.Stdin)
    (args : list gostring) :
  (TrackingCmd.resolveTextInput stdin args = inr TrackingCmd.NoInput
   ↔ (stdin = TrackingCmd.StatError ∨ stdin = TrackingCmd.CharDevice)
     ∧ Forall (λ arg, arg = []) args)
  ∧ (∀ lines,
       TrackingCmd.resolveTextInput (TrackingCmd.Piped lines) args
       = inl lines).
Proof.
  split; [|done].
  rewrite <- processArguments_nil. unfold TrackingCmd.resolveTextInput.
  destruct stdin as [| |lines|].
  - destruct (TrackingCmd.processArguments args) as [|l ls]; simpl.
    + split; [intros _; split; [by left | done] | done].
    + split; [done | by intros [_ ?]].
  - destruct (TrackingCmd.processArguments args) as [|l ls]; simpl.
    + split; [intros _; split; [by right | done] | done].
    + split; [done | by intros [_ ?]].
  - split; [done | by intros [[?|?] _]].
  - split; [done | by intros [[?|?] _]].
Qed.

(** ** The lists of the later revision (unnamed/part_001:463-505) *)

Lemma validate_spec (depth : Z) (values : list gostring) :
  TrackingCmd.validate depth values = true
  ↔ (length values ≤ 1)%nat ∨ Z.of_nat (length values) = depth.
Proof.
  unfold TrackingCmd.validate.
  destruct (Nat.eqb_spec (length values) 0),
    (Nat.eqb_spec (length values) 1),
    (Z.eqb_spec (Z.of_nat (length values)) depth); simpl;
    split; try done; try (intros _; lia); try (intros _; by right).
  intros [?|?]; [lia | done].
Qed.

(** X17: in the later revision every layer has its own entry. When the
    depth is not negative and a list passes the validation, the expanded
    list has [depth] entries, and for each layer [i < depth] the nesting
    loop reads the value of index [i], the single value given, or the
    empty string when the flag is absent: a colour is then never unset,
    it is parsed from that value, and the fallback to the first entry is
    not reached. *)
Theorem expanded_layers (parse : gostring → Color) (depth : Z)
    (values : list gostring) (i : nat) :
  0 ≤ depth → TrackingCmd.validate depth values = true →
  (i < Z.to_nat depth)%nat →
  ∃ expanded,
    TrackingCmd.expand depth values = Some expanded
    ∧ length expanded = Z.to_nat depth
    ∧ layerTitle expanded i
      = match values with
        | [] => []
        | [v] => v
        | _ => values !!! i
        end
    ∧ listColor parse expanded i
      = Some (parse match values with
                    | [] => []
                    | [v] => v
                    | _ => values !!! i
                    end).
Proof.
  intros Hdepth Hvalid Hi.
  assert (Hlayer : ∀ expanded v,
            length expanded = Z.to_nat depth → expanded !!! i = v →
            layerTitle expanded i = v
            ∧ listColor parse expanded i = Some (parse v)).
  { intros expanded v Hlen Hv. unfold layerTitle, listColor.
    replace (0 <? length expanded)%nat with true
      by (symmetry; apply Nat.ltb_lt; lia).
    replace (i <? length expanded)%nat with true
      by (symmetry; apply Nat.ltb_lt; lia).
    by rewrite Hv. }
  assert (Hpos : (depth <? 0) = false) by (apply Z.ltb_ge; lia).
  unfold TrackingCmd.expand. destruct values as [|v [|v' values]].
  - change (length [] =? 0)%nat with true. cbv iota. rewrite Hpos.
    eexists. split; [done |]. rewrite length_replicate. split; [done |].
    apply Hlayer; [by rewrite length_replicate |].
    by apply lookup_total_replicate_2.
  - change (length [v] =? 0)%nat with false.
    change (length [v] =? 1)%nat with true. cbv iota. rewrite Hpos.
    eexists. split; [done |]. rewrite length_replicate. split; [done |].
    apply Hlayer; [by rewrite length_replicate |].
    by apply lookup_total_replicate_2.
  - apply validate_spec in Hvalid as [Hle|Heq]; [simpl in Hle; lia |].
    change (length (v :: v' :: values) =? 0)%nat with false.
    change (length (v :: v' :: values) =? 1)%nat with false. cbv iota.
    eexists. split; [done |].
    assert (Hlen : length (v :: v' :: values) = Z.to_nat depth) by lia.
    split; [done |]. by apply Hlayer.
Qed.

(** Three layers, one border colour for all. *)
Lemma expanded_layers_witness :
  ∃ expanded,
    TrackingCmd.expand 3 [runes "red"] = Some expanded
    ∧ length expanded = Z.to_nat 3
    ∧ layerTitle expanded 2
      = match [runes "red"] with
        | [] => []
        | [v] => v
        | _ => [runes "red"] !!! 2%nat
        end
    ∧ listColor (parseColor (λ s, s)) expanded 2
      = Some (parseColor (λ s, s)
                match [runes "red"] with
                | [] => []
                | [v] => v
                | _ => [runes "red"] !!! 2%nat
                end).
Proof.
  apply (expanded_layers (parseColor (λ s, s)) 3 [runes "red"] 2).
  - lia.
  - reflexivity.
  - simpl. lia.
Defined.

(** ** A negative depth (box.go:322-400, unnamed/part_001:430-532) *)

Lemma validate_negative (depth : Z) (values : list gostring) :
  depth < 0 → TrackingCmd.validate depth values = true →
  TrackingCmd.expand depth values = None.
Proof.
  intros Hdepth Hvalid.
  apply validate_spec in Hvalid as [Hle|Heq]; [|lia].
  assert (Hneg : (depth <? 0) = true) by (apply Z.ltb_lt; lia).
  unfold TrackingCmd.expand.
  destruct values as [|v [|v' values]]; [| |simpl in Hle; lia].
  - change (length [] =? 0)%nat with true. cbv iota. by rewrite Hneg.
  - change (length [v] =? 0)%nat with false.
    change (length [v] =? 1)%nat with true. cbv iota. by rewrite Hneg.
Qed.

(** X18: with a negative depth the command of box.go prints the lines
    it has read unchanged, whatever the other flags, and returns the
    error of the scanner when it could not read them; the command of the
    later revision prints nothing: it reports a list of two or more
    values, and else panics on making a list of negative length. *)
Theorem negative_depth (NoColor : bool) (resetParams : list Z → list Z)
    (ToLower : gostring → gostring) (fuel : nat) (flags : Flags)
    (scanned : BoxGoCmd.Stdin) (stdin : TrackingCmd.Stdin)
    (args : list gostring) (src : Source) :
  number flags < 0 →
  BoxGoCmd.RunE NoColor resetParams ToLower flags scanned src
  = match scanned with
    | BoxGoCmd.Lines lines => BoxGoCmd.Printed lines
    | BoxGoCmd.ScanError => BoxGoCmd.Failed
    end
  ∧ TrackingCmd.RunE NoColor resetParams ToLower fuel flags stdin args src
    = match TrackingCmd.resolveTextInput stdin args with
      | inr TrackingCmd.NoInput => TrackingCmd.Usage
      | inr TrackingCmd.ReadFailed => TrackingCmd.Failed
      | inl _ =>
          if bool_decide (length (splitList (title flags)) ≤ 1
                          ∧ length (splitList (boxColor flags)) ≤ 1
                          ∧ length (splitList (titleColor flags)) ≤ 1)%nat
          then TrackingCmd.NoResult
          else TrackingCmd.Failed
      end.
Proof.
  intros Hdepth. split.
  - destruct scanned as [lines|]; [|done].
    unfold BoxGoCmd.RunE, createNestedBoxes.
    by rewrite Z2Nat.nonpos by lia.
  - unfold TrackingCmd.RunE.
    destruct (TrackingCmd.resolveTextInput stdin args) as [input|[]];
      [|done | done].
    assert (Hshort : ∀ values,
              TrackingCmd.validate (number flags) values = true
              ↔ (length values ≤ 1)%nat).
    { intros values. rewrite validate_spec.
      split; [intros [?|?]; [done | lia] | by left]. }
    destruct (TrackingCmd.validate (number flags) (splitList (title flags)))
      eqn:Ht; simpl.
    2: { rewrite bool_decide_eq_false_2; [done |]. intros (H1 & _).
         apply Hshort in H1. congruence. }
    destruct (TrackingCmd.validate (number flags)
                (splitList (boxColor flags))) eqn:Hb; simpl.
    2: { rewrite bool_decide_eq_false_2; [done |]. intros (_ & H2 & _).
         apply Hshort in H2. congruence. }
    destruct (TrackingCmd.validate (number flags)
                (splitList (titleColor flags))) eqn:Hc; simpl.
    2: { rewrite bool_decide_eq_false_2; [done |]. intros (_ & _ & H3).
         apply Hshort in H3. congruence. }
    rewrite (validate_negative _ _ Hdepth Ht).
    rewrite bool_decide_eq_true_2; [done |].
    by rewrite <- !Hshort.
Qed.

(** [box -n -1 -t a,b] on the line "x". *)
Lemma negative_depth_witness :
  BoxGoCmd.RunE false (λ _, [0]) (λ s, s)
    {| number := -1; title := runes "a,b"; boxColor := []; titleColor := [];
       centerColor := []; vpadding := 0; hpadding := 0;
       themeName := runes "unicode"; mode := [] |}
    (BoxGoCmd.Lines [runes "x"]) {| draws := λ n, Z.of_nat n; drawn := 0 |}
  = BoxGoCmd.Printed [runes "x"]
  ∧ TrackingCmd.RunE false (λ _, [0]) (λ s, s) 0
      {| number := -1; title := runes "a,b"; boxColor := [];
         titleColor := []; centerColor := []; vpadding := 0; hpadding := 0;
         themeName := runes "unicode"; mode := [] |}
      (TrackingCmd.Piped [runes "x"]) []
      {| draws := λ n, Z.of_nat n; drawn := 0 |}
    = TrackingCmd.Failed.
Proof.
  apply (negative_depth false (λ _, [0]) (λ s, s) 0
           {| number := -1; title := runes "a,b"; boxColor := [];
              titleColor := []; centerColor := []; vpadding := 0;
              hpadding := 0; themeName := runes "unicode"; mode := [] |}
           (BoxGoCmd.Lines [runes "x"]) (TrackingCmd.Piped [runes "x"]) []
           {| draws := λ n, Z.of_nat n; drawn := 0 |}).
  simpl. lia.
Defined.

(** ** The padding of the lists (box.go:358-379,
    unnamed/part_002:289-311) *)

(** X19: in box.go the values given on the command line go to the last
    layer indices. When [k <= depth] titles are given, the layers of the
    first [depth - k] indices have no title and layer [i] beyond them has
    the title of position [i - (depth - k)]; a list of colours that is
    not empty gives those first layers its first colour. *)
Theorem padded_layers (parse : gostring → Color) (depth : Z)
    (titles colors : list gostring) (i : nat) :
  depth ≤ maxInt →
  (length titles ≤ Z.to_nat depth)%nat →
  (length colors ≤ Z.to_nat depth)%nat →
  (i < Z.to_nat depth)%nat →
  layerTitle (BoxGoCmd.padTitles depth titles) i
  = (if (i <? Z.to_nat depth - length titles)%nat then []
     else titles !!! (i - (Z.to_nat depth - length titles))%nat)
  ∧ listColor parse (BoxGoCmd.padColors depth colors) i
    = (if (length colors =? 0)%nat then None
       else Some (parse
                    (if (i <? Z.to_nat depth - length colors)%nat
                     then colors !!! 0%nat
                     else colors !!! (i - (Z.to_nat depth - length colors))%nat))).
Proof.
  intros Hmax Htitles Hcolors Hi.
  assert (Hsub : ∀ n : nat, (n ≤ Z.to_nat depth)%nat →
            Z.to_nat (int_sub depth (Z.of_nat n)) = (Z.to_nat depth - n)%nat).
  { intros n Hn. unfold int_sub.
    rewrite wrap_id by (unfold minInt, maxInt in *; lia). lia. }
  split.
  - rewrite layerTitle_lookup. unfold BoxGoCmd.padTitles.
    rewrite Hsub by done.
    destruct (Z.ltb_spec (Z.of_nat (length titles)) depth) as [Hlt|Hge].
    + destruct (Nat.ltb_spec i (Z.to_nat depth - length titles)) as [Hin|Hout].
      * rewrite lookup_app_l by (rewrite length_replicate; lia).
        by rewrite lookup_replicate_2.
      * rewrite lookup_app_r by (rewrite length_replicate; lia).
        rewrite length_replicate.
        destruct (lookup_lt_is_Some_2 titles
                    (i - (Z.to_nat depth - length titles))) as [t Ht];
          [lia |].
        rewrite Ht. symmetry. by apply list_lookup_total_correct.
    + destruct (Nat.ltb_spec i (Z.to_nat depth - length titles)); [lia |].
      replace (i - (Z.to_nat depth - length titles))%nat with i by lia.
      destruct (lookup_lt_is_Some_2 titles i) as [t Ht]; [lia |].
      rewrite Ht. symmetry. by apply list_lookup_total_correct.
  - unfold BoxGoCmd.padColors. rewrite Hsub by done.
    destruct colors as [|c colors].
    { change (0 <? Z.of_nat (length [])) with false.
      by rewrite andb_false_r. }
    set (cs := c :: colors) in *.
    assert (Hlen : (0 < length cs)%nat) by (simpl; lia).
    replace (length cs =? 0)%nat with false
      by (symmetry; apply Nat.eqb_neq; lia).
    replace (0 <? Z.of_nat (length cs)) with true
      by (symmetry; apply Z.ltb_lt; lia).
    rewrite andb_true_r. unfold listColor.
    destruct (Z.ltb_spec (Z.of_nat (length cs)) depth) as [Hlt|Hge].
    + rewrite length_app, length_replicate.
      replace (0 <? Z.to_nat depth - length cs + length cs)%nat with true
        by (symmetry; apply Nat.ltb_lt; lia).
      replace (i <? Z.to_nat depth - length cs + length cs)%nat with true
        by (symmetry; apply Nat.ltb_lt; lia).
      do 2 f_equal.
      destruct (Nat.ltb_spec i (Z.to_nat depth - length cs)) as [Hin|Hout].
      * rewrite lookup_total_app_l by (rewrite length_replicate; lia).
        by apply lookup_total_replicate_2.
      * rewrite lookup_total_app_r by (rewrite length_replicate; lia).
        by rewrite length_replicate.
    + replace (0 <? length cs)%nat with true
        by (symmetry; apply Nat.ltb_lt; lia).
      replace (i <? length cs)%nat with true
        by (symmetry; apply Nat.ltb_lt; lia).
      destruct (Nat.ltb_spec i (Z.to_nat depth - length cs)); [lia |].
      do 3 f_equal. lia.
Qed.

(** Three layers, the titles "a" and "b": the layer of index 0 has no
    title. *)
Lemma padded_layers_witness :
  layerTitle (BoxGoCmd.padTitles 3 [runes "a"; runes "b"]) 0
  = (if (0 <? Z.to_nat 3 - length [runes "a"; runes "b"])%nat then []
     else [runes "a"; runes "b"]
            !!! (0 - (Z.to_nat 3 - length [runes "a"; runes "b"]))%nat)
  ∧ listColor (parseColor (λ s, s)) (BoxGoCmd.padColors 3 [runes "red"]) 0
    = (if (length [runes "red"] =? 0)%nat then None
       else Some (parseColor (λ s, s)
                    (if (0 <? Z.to_nat 3 - length [runes "red"])%nat
                     then [runes "red"] !!! 0%nat
                     else [runes "red"]
                            !!! (0 - (Z.to_nat 3 - length [runes "red"]))%nat))).
Proof.
  apply (padded_layers (parseColor (λ s, s)) 3 [runes "a"; runes "b"]
           [runes "red"] 0).
  - unfold maxInt. lia.
  - simpl. lia.
  - simpl. lia.
  - simpl. lia.
Defined.

(** ** The commands as a whole (box.go:322-400,
    unnamed/part_001:430-532) *)






(** ** Boxing the output again (box.go:264-308, 322-400; the pipeline of
    test_box_depth.sh) *)

(** A box drawn with no colour at all is the same with colours switched
    on or off. *)
Lemma createBox_uncoloured (NoColor NoColor' : bool)
    (resetParams : list Z → list Z) (lines : list gostring)
    (boxTitle : gostring) (theme : gmap string gostring)
    (vpadding hpadding : Z) :
  createBox NoColor resetParams lines None None boxTitle None theme vpadding
    hpadding
  = createBox NoColor' resetParams lines None None boxTitle None theme
      vpadding hpadding.
Proof. reflexivity. Qed.

Section Pipeline.
Variable resetParams : list Z → list Z.
Variable ToLower : gostring → gostring.
Variable ThemeState : Type.
Variable getColorFromTheme : ThemeState → Z → option (Color * ThemeState).

Local Abbreviation nestFrom NoColor :=
  (nestFrom NoColor resetParams ToLower ThemeState getColorFromTheme).

(** Lists that give every layer the border colour [cb], the title colour
    [ct] and the title [t]. *)
Local Abbreviation constant cb ct t boxColors titleColors boxTitles :=
  (∀ j, listColor (parseColor ToLower) boxColors j = cb
        ∧ listColor (parseColor ToLower) titleColors j = ct
        ∧ layerTitle boxTitles j = t).

Lemma nestFrom_constant (cb ct : option Color) (t : gostring)
    (NoColor NoColor' : bool) (rounds : nat) :
  ∀ (i i' : nat) (lines : list gostring) (depth depth' : Z)
    (boxColors titleColors boxTitles : list gostring)
    (boxColors' titleColors' boxTitles' : list gostring)
    (theme : gmap string gostring) (vpadding hpadding : Z),
  (cb = None ∧ ct = None) ∨ NoColor' = NoColor →
  constant cb ct t boxColors titleColors boxTitles →
  constant cb ct t boxColors' titleColors' boxTitles' →
  nestFrom NoColor rounds i lines depth boxColors titleColors boxTitles theme
    vpadding hpadding None None
  = nestFrom NoColor' rounds i' lines depth' boxColors' titleColors'
      boxTitles' theme vpadding hpadding None None.
Proof.
  induction rounds as [|rounds IH]; intros i i' lines depth depth' boxColors
    titleColors boxTitles boxColors' titleColors' boxTitles' theme vpadding
    hpadding Hnc Hc Hc'; [done |].
  simpl.
  destruct (Hc i) as (-> & -> & ->). destruct (Hc' i') as (-> & -> & ->).
  replace (if Z.of_nat i =? int_sub depth 1 then None else None)
    with (@None Color) by by destruct (_ =? _).
  replace (if Z.of_nat i' =? int_sub depth' 1 then None else None)
    with (@None Color) by by destruct (_ =? _).
  assert (Hbox : createBox NoColor resetParams lines cb None t ct theme
                   vpadding hpadding
                 = createBox NoColor' resetParams lines cb None t ct theme
                     vpadding hpadding).
  { destruct Hnc as [[Hcb Hct]| ->]; [|done].
    rewrite Hcb, Hct. apply createBox_uncoloured. }
  rewrite Hbox.
  destruct (createBox NoColor' resetParams lines _ _ _ _ _ _ _)
    as [lines'|]; [|done].
  simpl. by apply IH.
Qed.

Lemma nestFrom_constant_app (cb ct : option Color) (t : gostring)
    (NoColor NoColorA NoColorB : bool) (ra : nat) :
  ∀ (rb i : nat) (lines : list gostring) (d da db : Z)
    (boxColors titleColors boxTitles : list gostring)
    (boxColorsA titleColorsA boxTitlesA : list gostring)
    (boxColorsB titleColorsB boxTitlesB : list gostring)
    (theme : gmap string gostring) (vpadding hpadding : Z),
  (cb = None ∧ ct = None) ∨ (NoColorA = NoColor ∧ NoColorB = NoColor) →
  constant cb ct t boxColors titleColors boxTitles →
  constant cb ct t boxColorsA titleColorsA boxTitlesA →
  constant cb ct t boxColorsB titleColorsB boxTitlesB →
  nestFrom NoColor (ra + rb) i lines d boxColors titleColors boxTitles theme
    vpadding hpadding None None
  = mid ← nestFrom NoColorA ra i lines da boxColorsA titleColorsA boxTitlesA
            theme vpadding hpadding None None;
    nestFrom NoColorB rb 0 mid db boxColorsB titleColorsB boxTitlesB theme
      vpadding hpadding None None.
Proof.
  induction ra as [|ra IH]; intros rb i lines d da db boxColors titleColors
    boxTitles boxColorsA titleColorsA boxTitlesA boxColorsB titleColorsB
    boxTitlesB theme vpadding hpadding Hnc Hc Ha Hb.
  - simpl. apply (nestFrom_constant cb ct t); [|done | done].
    destruct Hnc as [?|[_ ?]]; [by left | by right].
  - simpl.
    destruct (Hc i) as (-> & -> & ->). destruct (Ha i) as (-> & -> & ->).
    replace (if Z.of_nat i =? int_sub d 1 then None else None)
      with (@None Color) by by destruct (_ =? _).
    replace (if Z.of_nat i =? int_sub da 1 then None else None)
      with (@None Color) by by destruct (_ =? _).
    assert (Hbox : createBox NoColor resetParams lines cb None t ct theme
                     vpadding hpadding
                   = createBox NoColorA resetParams lines cb None t ct theme
                       vpadding hpadding).
    { destruct Hnc as [[Hcb Hct]|[-> _]]; [|done].
      rewrite Hcb, Hct. apply createBox_uncoloured. }
    rewrite Hbox.
    destruct (createBox NoColorA resetParams lines _ _ _ _ _ _ _)
      as [lines'|]; [|done].
    simpl. by apply IH.
Qed.

End Pipeline.

Lemma padColors_constant (parse : gostring → Color) (depth : Z)
    (colors : list gostring) (j : nat) :
  depth ≤ maxInt → (length colors ≤ 1)%nat →
  listColor parse (BoxGoCmd.padColors depth colors) j
  = listColor parse colors 0.
Proof.
  intros Hmax Hlen. unfold BoxGoCmd.padColors.
  destruct colors as [|c [|c' colors]]; [|clear Hlen|simpl in Hlen; lia].
  { change (0 <? Z.of_nat (length [])) with false.
    by rewrite andb_false_r. }
  change (0 <? Z.of_nat (length [c])) with true. rewrite andb_true_r.
  change ([c] !!! 0%nat) with c.
  destruct (Z.ltb_spec (Z.of_nat (length [c])) depth) as [Hlt|Hge];
    [|by apply listColor_single].
  replace (replicate (Z.to_nat (int_sub depth (Z.of_nat (length [c])))) c
             ++ [c])
    with (replicate (S (Z.to_nat (int_sub depth (Z.of_nat (length [c]))))) c)
    by (by rewrite replicate_S_end).
  unfold listColor. rewrite length_replicate.
  change (0 <? S _)%nat with true. change (0 <? length [c])%nat with true.
  cbv iota. change ([c] !!! 0%nat) with c.
  destruct (_ <? _)%nat eqn:Hj.
  - apply Nat.ltb_lt in Hj. by rewrite lookup_total_replicate_2.
  - by rewrite lookup_total_replicate_2 by lia.
Qed.

Lemma padTitles_none (depth : Z) (j : nat) :
  layerTitle (BoxGoCmd.padTitles depth []) j = [].
Proof.
  rewrite layerTitle_lookup. unfold BoxGoCmd.padTitles. rewrite app_nil_r.
  case_match; [|done].
  destruct (replicate _ _ !! j) as [t|] eqn:Ht; [|done].
  by apply lookup_replicate in Ht as [-> _].
Qed.

(** X22: boxing the output of the command again is asking for the
    greater depth. With no titles, no content colour and no colour theme,
    when a first run of the command of box.go at depth [a] has printed
    [mid] and a second run at depth [b] reads these lines, the second run
    comes to what one run at depth [a + b] comes to on the input of the
    first: [box | box] is [box -n 2]. Each run has its own colour switch:
    a run that writes to a pipe has colours off. So the runs have no
    border colour and no title colour, or else at most one of each and
    the same colour switch. *)
Theorem BoxGoCmd_pipeline (NoColor NoColorA NoColorB : bool)
    (resetParams : list Z → list Z) (ToLower : gostring → gostring)
    (a b : Z) (border titleCol : gostring) (vpad hpad : Z)
    (glyphs : gostring) (lines mid : list gostring)
    (src srcA srcB : Source) :
  0 ≤ a → 0 ≤ b → a + b ≤ maxInt →
  (length (splitList border) ≤ 1)%nat →
  (length (splitList titleCol) ≤ 1)%nat →
  (border = [] ∧ titleCol = [])
  ∨ (NoColorA = NoColor ∧ NoColorB = NoColor) →
  BoxGoCmd.RunE NoColorA resetParams ToLower
    {| number := a; title := []; boxColor := border;
       titleColor := titleCol; centerColor := []; vpadding := vpad;
       hpadding := hpad; themeName := glyphs; mode := [] |}
    (BoxGoCmd.Lines lines) srcA
  = BoxGoCmd.Printed mid →
  BoxGoCmd.RunE NoColorB resetParams ToLower
    {| number := b; title := []; boxColor := border;
       titleColor := titleCol; centerColor := []; vpadding := vpad;
       hpadding := hpad; themeName := glyphs; mode := [] |}
    (BoxGoCmd.Lines mid) srcB
  = BoxGoCmd.RunE NoColor resetParams ToLower
      {| number := a + b; title := []; boxColor := border;
         titleColor := titleCol; centerColor := []; vpadding := vpad;
         hpadding := hpad; themeName := glyphs; mode := [] |}
      (BoxGoCmd.Lines lines) src.
Proof.
  intros Ha Hb Hmax Hbc Htc Hnc. unfold BoxGoCmd.RunE, createNestedBoxes.
  cbn [number title boxColor titleColor centerColor vpadding hpadding
         themeName mode].
  rewrite !decide_True by done.
  change (splitList []) with (@nil gostring).
  intros Hmid.
  rewrite Z2Nat.inj_add by done.
  rewrite (nestFrom_constant_app _ _ _ _
             (listColor (parseColor ToLower) (splitList border) 0)
             (listColor (parseColor ToLower) (splitList titleCol) 0) []
             NoColor NoColorA NoColorB (Z.to_nat a) (Z.to_nat b) 0 lines
             (a + b) a b
             (BoxGoCmd.padColors (a + b) (splitList border))
             (BoxGoCmd.padColors (a + b) (splitList titleCol))
             (BoxGoCmd.padTitles (a + b) [])
             (BoxGoCmd.padColors a (splitList border))
             (BoxGoCmd.padColors a (splitList titleCol))
             (BoxGoCmd.padTitles a [])
             (BoxGoCmd.padColors b (splitList border))
             (BoxGoCmd.padColors b (splitList titleCol))
             (BoxGoCmd.padTitles b [])).
  - destruct (nestFrom NoColorA _ _ _ _ (Z.to_nat a) _ _ _ _ _ _ _ _ _ _ _)
      as [mid'|]; [|done].
    by injection Hmid as ->.
  - destruct Hnc as [[-> ->]|?]; [by left | by right].
  - intros j. rewrite !padColors_constant by (done || lia).
    by rewrite padTitles_none.
  - intros j. rewrite !padColors_constant by (done || lia).
    by rewrite padTitles_none.
  - intros j. rewrite !padColors_constant by (done || lia).
    by rewrite padTitles_none.
Qed.

(** [box | box] and [box -n 2] on two lines: the first run writes to the
    pipe, with colours off. *)
Lemma BoxGoCmd_pipeline_witness :
  BoxGoCmd.RunE false (λ _, [0]) (λ s, s)
    {| number := 1; title := []; boxColor := []; titleColor := [];
       centerColor := []; vpadding := 0; hpadding := 1;
       themeName := runes "unicode"; mode := [] |}
    (BoxGoCmd.Lines
       match
         BoxGoCmd.RunE true (λ _, [0]) (λ s, s)
           {| number := 1; title := []; boxColor := []; titleColor := [];
              centerColor := []; vpadding := 0; hpadding := 1;
              themeName := runes "unicode"; mode := [] |}
           (BoxGoCmd.Lines [runes "x"; runes "yz"])
           {| draws := λ n, Z.of_nat n; drawn := 0 |}
       with
       | BoxGoCmd.Printed out => out
       | _ => []
       end)
    {| draws := λ n, Z.of_nat n; drawn := 0 |}
  = BoxGoCmd.RunE false (λ _, [0]) (λ s, s)
      {| number := 1 + 1; title := []; boxColor := []; titleColor := [];
         centerColor := []; vpadding := 0; hpadding := 1;
         themeName := runes "unicode"; mode := [] |}
      (BoxGoCmd.Lines [runes "x"; runes "yz"])
      {| draws := λ n, Z.of_nat n; drawn := 0 |}.
Proof.
  apply (BoxGoCmd_pipeline false true false (λ _, [0]) (λ s, s) 1 1 [] [] 0
           1 (runes "unicode") [runes "x"; runes "yz"] _
           {| draws := λ n, Z.of_nat n; drawn := 0 |}
           {| draws := λ n, Z.of_nat n; drawn := 0 |}
           {| draws := λ n, Z.of_nat n; drawn := 0 |}).
  - lia.
  - lia.
  - unfold maxInt. lia.
  - vm_compute. lia.
  - vm_compute. lia.
  - by left.
  - vm_compute. reflexivity.
Defined.

(** ** Colour names that are numbers (box.go:143-148) *)

Lemma parseDigits_acc (d : Decimal.uint) :
  ∀ acc : positive,
  parseDigits (Z.pos acc) (runes_of_uint d)
  = Some (Z.pos (Pos.of_uint_acc d acc)).
Proof.
  induction d; intros acc; cbn [runes_of_uint parseDigits Pos.of_uint_acc];
    [done | ..];
    (change (digitVal _) with (Some 0) || change (digitVal _) with (Some 1)
     || change (digitVal _) with (Some 2) || change (digitVal _) with (Some 3)
     || change (digitVal _) with (Some 4) || change (digitVal _) with (Some 5)
     || change (digitVal _) with (Some 6) || change (digitVal _) with (Some 7)
     || change (digitVal _) with (Some 8) || change (digitVal _) with (Some 9));
    cbn [mbind option_bind]; rewrite <- IHd; f_equal; lia.
Qed.

Lemma parseDigits_uint (d : Decimal.uint) :
  parseDigits 0 (runes_of_uint d) = Some (Z.of_N (Pos.of_uint d)).
Proof.
  induction d; cbn [runes_of_uint parseDigits Pos.of_uint]; [done | ..];
    (change (digitVal _) with (Some 0) || change (digitVal _) with (Some 1)
     || change (digitVal _) with (Some 2) || change (digitVal _) with (Some 3)
     || change (digitVal _) with (Some 4) || change (digitVal _) with (Some 5)
     || change (digitVal _) with (Some 6) || change (digitVal _) with (Some 7)
     || change (digitVal _) with (Some 8) || change (digitVal _) with (Some 9));
    cbn [mbind option_bind]; try exact IHd;
    match goal with
    | |- parseDigits ?k _ = _ =>
        let p := eval cbv in (Z.to_pos k) in
        change k with (Z.pos p)
    end; by rewrite parseDigits_acc.
Qed.

Lemma runes_of_uint_range (d : Decimal.uint) :
  Forall (λ r, 48 ≤ r ≤ 57) (runes_of_uint d).
Proof. induction d; simpl; [done | ..]; (constructor; [lia | done]). Qed.

Lemma runes_of_uint_nonempty (d : Decimal.uint) :
  d ≠ Decimal.Nil → runes_of_uint d ≠ [].
Proof. by destruct d. Qed.

(** [Atoi] reads back what [Itoa] writes. *)
Lemma Atoi_Itoa (n : Z) : 0 ≤ n ≤ maxInt → Atoi (Itoa n) = Some n.
Proof.
  intros Hn. unfold Itoa.
  destruct n as [|p|p]; [by vm_compute | | lia].
  cbn [Z.to_int].
  pose proof (runes_of_uint_range (Pos.to_uint p)) as Hdigits.
  pose proof (runes_of_uint_nonempty _ (DecimalPos.Unsigned.to_uint_nonnil p))
    as Hne.
  pose proof (parseDigits_uint (Pos.to_uint p)) as Hparse.
  rewrite DecimalPos.Unsigned.of_to in Hparse.
  destruct (runes_of_uint (Pos.to_uint p)) as [|r rs] eqn:Hrunes; [done |].
  apply Forall_cons in Hdigits as [Hr _].
  unfold Atoi.
  assert (Hsign : match r :: rs with
                  | 43 :: t => (false, t)
                  | 45 :: t => (true, t)
                  | _ => (false, r :: rs)
                  end = (false, r :: rs)).
  { destruct r as [|q|q]; [done | | done].
    do 6 (destruct q as [q|q|]; try done). }
  rewrite Hsign, Hparse. cbn [mbind option_bind].
  change (Z.of_N (N.pos p)) with (Z.pos p).
  replace (minInt <=? Z.pos p) with true
    by (symmetry; apply Z.leb_le; unfold minInt; lia).
  by replace (Z.pos p <=? maxInt) with true
    by (symmetry; apply Z.leb_le; lia).
Qed.

(** X23: a colour name that is a decimal number [n] selects the SGR
    parameter [90 + n], a bright colour for [n] up to 7, and no entry of
    the 256-colour table: [parseColor] adds the number to the code of
    bright black. *)
Theorem parseColor_number (ToLower : gostring → gostring) (n : Z) :
  0 ≤ n ≤ maxInt - 90 → ToLower (Itoa n) = Itoa n →
  parseColor ToLower (Itoa n) = New [90 + n]
  ∧ format (parseColor ToLower (Itoa n))
    = [27; 91] ++ Itoa (90 + n) ++ [109].
Proof.
  intros Hn Hlower.
  assert (Hcolor : parseColor ToLower (Itoa n) = New [90 + n]).
  { unfold parseColor. rewrite Hlower, Atoi_Itoa by lia.
    assert (Hdigit : ∃ r rs, Itoa n = r :: rs ∧ 48 ≤ r ≤ 57).
    { unfold Itoa. destruct n as [|p|p]; [by exists 48, [] | | lia].
      cbn [Z.to_int].
      pose proof (runes_of_uint_range (Pos.to_uint p)) as Hdigits.
      pose proof (runes_of_uint_nonempty _
                    (DecimalPos.Unsigned.to_uint_nonnil p)) as Hne.
      destruct (runes_of_uint (Pos.to_uint p)) as [|r rs]; [done |].
      apply Forall_cons in Hdigits as [Hr _]. by exists r, rs. }
    destruct Hdigit as (r & rs & -> & Hr).
    unfold namedColor.
    repeat (case_decide as Heq;
            [exfalso; first [destruct Heq as [Heq|Heq] | idtac];
             apply (f_equal head) in Heq; vm_compute in Heq;
             injection Heq; lia | clear Heq]).
    unfold int_add, FgHiBlack.
    by rewrite wrap_id by (unfold minInt, maxInt in *; lia). }
  split; [done |]. by rewrite Hcolor.
Qed.

(** The name "196". *)
Lemma parseColor_number_witness :
  parseColor (λ s, s) (Itoa 196) = New [90 + 196]
  ∧ format (parseColor (λ s, s) (Itoa 196))
    = [27; 91] ++ Itoa (90 + 196) ++ [109].
Proof.
  apply (parseColor_number (λ s, s) 196).
  - unfold maxInt. lia.
  - reflexivity.
Defined.
